(** * fibdrv: the arbitrary-precision integers of [bn.c]

    A shallow embedding of [bn.h] / [bn.c]: sign-magnitude integers kept as
    an array of 32-bit limbs, least significant limb first.  The C code works
    on pointers to heap objects and is used with aliased arguments
    ([bn_add (a, b, a)]), so the embedding threads an explicit memory through
    every function: a state-and-failure monad in which [None] stands for a
    memory error (null or dangling dereference, access out of bounds). *)

From stdpp Require Import gmap list.
From Stdlib Require Import ZArith Lia.

Local Open Scope Z_scope.

(** ** Machine integers *)

(** [unsigned int] and [size_t] values are kept as [Z] in range; a narrowing
    conversion is written out as a reduction.  The kernel is built with
    wrapping signed arithmetic, so [int] results are reduced the same way. *)

Definition u32 (x : Z) : Z := x mod 2 ^ 32.
Definition u64 (x : Z) : Z := x mod 2 ^ 64.
Definition s32 (x : Z) : Z := (x + 2 ^ 31) mod 2 ^ 32 - 2 ^ 31.
Definition s64 (x : Z) : Z := (x + 2 ^ 63) mod 2 ^ 64 - 2 ^ 63.

(** [__builtin_clz] on a non-zero 32-bit word. *)
Definition builtin_clz (x : Z) : Z := 31 - Z.log2 x.

(** ** Memory *)

(** A C pointer: an address, or [None] for [NULL]. *)
Abbreviation ptr := (option positive).

(** [struct bn] of bn.h. *)
Record bn := Bn {
  number : ptr;   (* unsigned int *number *)
  size : Z;       (* unsigned int size    *)
  sign : Z        (* unsigned sign        *)
}.

(** The heap: the live [bn] objects and the live limb arrays. *)
Record mem := Mem {
  structs : gmap positive bn;
  bufs : gmap positive (list Z)
}.

(** ** The monad *)

Definition M (A : Type) : Type := mem -> option (A * mem).

Definition ret {A} (x : A) : M A := fun m => Some (x, m).

Definition bind {A B} (c : M A) (k : A -> M B) : M B :=
  fun m => match c m with
           | Some (x, m') => k x m'
           | None => None
           end.

Notation "x <- c ;; k" := (bind c (fun x => k))
  (at level 100, c at next level, right associativity).
Notation "c ;;; k" := (bind c (fun _ => k))
  (at level 100, right associativity).

(** [*p] for [bn *p]. *)
Definition deref (p : ptr) : M bn := fun m =>
  match p with
  | Some a => match structs m !! a with
              | Some s => Some (s, m)
              | None => None
              end
  | None => None
  end.

(** [*p = s]. *)
Definition assign (p : ptr) (s : bn) : M unit := fun m =>
  match p with
  | Some a => match structs m !! a with
              | Some _ => Some (tt, Mem (<[a := s]> (structs m)) (bufs m))
              | None => None
              end
  | None => None
  end.

Definition set_number (p : ptr) (q : ptr) : M unit :=
  s <- deref p ;; assign p (Bn q (size s) (sign s)).

Definition set_size (p : ptr) (n : Z) : M unit :=
  s <- deref p ;; assign p (Bn (number s) n (sign s)).

Definition set_sign (p : ptr) (g : Z) : M unit :=
  s <- deref p ;; assign p (Bn (number s) (size s) g).

(** [q[i]] for a limb array [q]. *)
Definition load (q : ptr) (i : Z) : M Z := fun m =>
  match q with
  | Some a => match bufs m !! a with
              | Some l => if 0 <=? i
                          then match l !! Z.to_nat i with
                               | Some x => Some (x, m)
                               | None => None
                               end
                          else None
              | None => None
              end
  | None => None
  end.

(** [q[i] = v]. *)
Definition store (q : ptr) (i : Z) (v : Z) : M unit := fun m =>
  match q with
  | Some a => match bufs m !! a with
              | Some l => if (0 <=? i) && (i <? Z.of_nat (length l))
                          then Some (tt, Mem (structs m)
                                             (<[a := <[Z.to_nat i := v]> l]> (bufs m)))
                          else None
              | None => None
              end
  | None => None
  end.

(** [kfree] of a limb array and of a [bn] object; [kfree (NULL)] does
    nothing, freeing what is not live is a memory error. *)
Definition kfree_limbs (q : ptr) : M unit := fun m =>
  match q with
  | Some a => match bufs m !! a with
              | Some _ => Some (tt, Mem (structs m) (delete a (bufs m)))
              | None => None
              end
  | None => Some (tt, m)
  end.

Definition kfree_bn (p : ptr) : M unit := fun m =>
  match p with
  | Some a => match structs m !! a with
              | Some _ => Some (tt, Mem (delete a (structs m)) (bufs m))
              | None => None
              end
  | None => Some (tt, m)
  end.

(** [memset (q + off, 0, sizeof (int) * n)]; for zero bytes nothing is
    written and [q] is not looked at. *)
Definition memset0 (q : ptr) (off n : Z) : M unit := fun m =>
  if n =? 0 then Some (tt, m) else
  match q with
  | Some a => match bufs m !! a with
              | Some l => if (0 <=? off) && (0 <=? n)
                             && (off + n <=? Z.of_nat (length l))
                          then Some (tt, Mem (structs m)
                                  (<[a := take (Z.to_nat off) l
                                          ++ replicate (Z.to_nat n) 0
                                          ++ drop (Z.to_nat (off + n)) l]> (bufs m)))
                          else None
              | None => None
              end
  | None => None
  end.

Section Allocator.

(** The host allocator is not part of the repository.  [krealloc_ok n] says
    whether a request for [n] limbs is granted, [stale i] is whatever a grown
    array holds at index [i] before it is written. *)
Variable krealloc_ok : Z -> bool.
Variable stale : Z -> Z.

(** [krealloc (q, sizeof (int) * n, GFP_KERNEL)]: the first [n] limbs are
    kept, the rest of a grown array is not initialised.  A granted request
    is given back under the address it had; the kernel may as well move the
    array, which [bn_resize] allows for by storing the result in the one
    pointer to it, so what is proved of a resized [bn] is stated through
    [view], not through the address.  A refused request yields [NULL] and
    leaves the array alone.  With [q = NULL] it allocates. *)
Definition krealloc (q : ptr) (n : Z) : M ptr := fun m =>
  if krealloc_ok n then
    match q with
    | Some a =>
        match bufs m !! a with
        | Some l =>
            let len := Z.of_nat (length l) in
            Some (Some a,
                  Mem (structs m)
                      (<[a := take (Z.to_nat n) l
                              ++ ((fun i => u32 (stale i)) <$> seqZ len (n - len))]>
                         (bufs m)))
        | None => None
        end
    | None =>
        let a := fresh (dom (bufs m)) in
        Some (Some a,
              Mem (structs m)
                  (<[a := (fun i => u32 (stale i)) <$> seqZ 0 n]> (bufs m)))
    end
  else Some (None, m).

(** ** bn.c *)

(** [bn_swap], lines 25-30. *)
Definition bn_swap (a b : ptr) : M unit :=
  tmp <- deref a ;;
  sb <- deref b ;;
  assign a sb ;;;
  assign b tmp.

(** [DIV_ROUNDUP], lines 32-34, at type [int]. *)
Definition DIV_ROUNDUP (x len : Z) : Z := Z.quot (s32 (s32 (x + len) - 1)) len.

(** [bn_free], lines 40-47. *)
Definition bn_free (src : ptr) : M Z :=
  match src with
  | None => ret (-1)
  | Some _ =>
      s <- deref src ;;
      kfree_limbs (number s) ;;;
      kfree_bn src ;;;
      ret 0
  end.

(** [bn_clz], lines 50-63.  The loop runs [i] from [src->size - 1] down to
    [0]; [n] is [i + 1]. *)
Fixpoint bn_clz_loop (n : nat) (src : ptr) (cnt : Z) : M Z :=
  match n with
  | O => ret cnt
  | S i =>
      s <- deref src ;;
      x <- load (number s) (Z.of_nat i) ;;
      if negb (x =? 0)
      then ret (s32 (cnt + builtin_clz x))
      else bn_clz_loop i src (s32 (cnt + 32))
  end.

Definition bn_clz (src : ptr) : M Z :=
  s <- deref src ;;
  bn_clz_loop (Z.to_nat (s32 (size s - 1) + 1)) src 0.

(** [bn_msb], lines 66-69. *)
Definition bn_msb (src : ptr) : M Z :=
  s <- deref src ;;
  z <- bn_clz src ;;
  ret (s32 (size s * 32 - z)).

(** [bn_resize], lines 76-92; [sz] is a [size_t]. *)
Definition bn_resize (src : ptr) (sz : Z) : M Z :=
  match src with
  | None => ret (-1)
  | Some _ =>
      s <- deref src ;;
      if sz =? size s then ret 0
      else if sz =? 0 then bn_free src
      else
        q <- krealloc (number s) sz ;;
        set_number src q ;;;
        match q with
        | None => ret (-1)
        | Some _ =>
            (if size s <? sz
             then memset0 q (size s) (sz - size s)
             else ret tt) ;;;
            set_size src (u32 sz) ;;;
            ret 0
        end
  end.

(** [bn_cmp], lines 96-105; the loop index as in [bn_clz_loop]. *)
Fixpoint bn_cmp_loop (n : nat) (a b : ptr) : M Z :=
  match n with
  | O => ret 0
  | S i =>
      sa <- deref a ;;
      sb <- deref b ;;
      x <- load (number sa) (Z.of_nat i) ;;
      y <- load (number sb) (Z.of_nat i) ;;
      if negb (x =? y)
      then ret (if x <? y then 1 else -1)
      else bn_cmp_loop i a b
  end.

Definition bn_cmp (a b : ptr) : M Z :=
  sa <- deref a ;;
  sb <- deref b ;;
  if negb (size sa =? size sb)
  then ret (if size sa <? size sb then 1 else -1)
  else bn_cmp_loop (Z.to_nat (s32 (size sa - 1) + 1)) a b.

(** [(i < p->size) ? p->number[i] : 0], lines 117-118 and 140-141. *)
Definition limb_or_zero (p : ptr) (i : Z) : M Z :=
  s <- deref p ;;
  if u32 i <? size s then load (number s) i else ret 0.

(** [bn_do_add], lines 108-126.  Lines 111-112 compute the limb count. *)
Definition bn_do_add_digits (a b : ptr) : M Z :=
  ma <- bn_msb a ;;
  mb <- bn_msb b ;;
  let d := s32 (Z.max ma mb + 1) in
  ret (s32 (DIV_ROUNDUP d 32 + (if d =? 0 then 1 else 0))).

(** The loop of lines 116-122.  The body does not write [c->size], so the
    number [n] of iterations left is fixed on entry. *)
Fixpoint bn_do_add_loop (n : nat) (a b c : ptr) (i carry : Z) : M unit :=
  match n with
  | O => ret tt
  | S n' =>
      tmp1 <- limb_or_zero a i ;;
      tmp2 <- limb_or_zero b i ;;
      let carry := u64 (carry + u64 (tmp1 + tmp2)) in
      sc <- deref c ;;
      store (number sc) i (u32 carry) ;;;
      bn_do_add_loop n' a b c (i + 1) (Z.shiftr carry 32)
  end.

(** Lines 115-125: the carry loop and the trim of the top limb. *)
Definition bn_do_add_carry (a b c : ptr) : M unit :=
  sc <- deref c ;;
  bn_do_add_loop (Z.to_nat (size sc)) a b c 0 0 ;;;
  sc <- deref c ;;
  top <- load (number sc) (u32 (size sc - 1)) ;;
  if (top =? 0) && (1 <? size sc)
  then bn_resize c (u32 (size sc - 1)) ;;; ret tt
  else ret tt.

Definition bn_do_add (a b c : ptr) : M unit :=
  d <- bn_do_add_digits a b ;;
  bn_resize c (u64 d) ;;;
  bn_do_add_carry a b c.

(** [bn_do_sub], lines 132-156. *)
Fixpoint bn_do_sub_loop (n : nat) (a b c : ptr) (i carry : Z) : M unit :=
  match n with
  | O => ret tt
  | S n' =>
      tmp1 <- limb_or_zero a i ;;
      tmp2 <- limb_or_zero b i ;;
      let carry := s64 (tmp1 - tmp2 - carry) in
      sc <- deref c ;;
      if carry <? 0
      then store (number sc) i (u32 (carry + Z.shiftl 1 32)) ;;;
           bn_do_sub_loop n' a b c (i + 1) 1
      else store (number sc) i (u32 carry) ;;;
           bn_do_sub_loop n' a b c (i + 1) 0
  end.

(** Lines 138-155: the borrow loop and the trim of the zero limbs. *)
Definition bn_do_sub_borrow (a b c : ptr) : M unit :=
  sc <- deref c ;;
  bn_do_sub_loop (Z.to_nat (size sc)) a b c 0 0 ;;;
  z <- bn_clz c ;;
  let d := Z.quot z 32 in
  sc <- deref c ;;
  let d := if u32 d =? size sc then s32 (d - 1) else d in
  bn_resize c (u32 (size sc - d)) ;;;
  ret tt.

Definition bn_do_sub (a b c : ptr) : M unit :=
  sa <- deref a ;;
  sb <- deref b ;;
  let d := s32 (Z.max (size sa) (size sb)) in
  bn_resize c (u64 d) ;;;
  bn_do_sub_borrow a b c.

(** [bn_add], lines 161-185. *)
Definition bn_add (a b c : ptr) : M unit :=
  sa <- deref a ;;
  sb <- deref b ;;
  if sign sa =? sign sb then
    bn_do_add a b c ;;;
    sa <- deref a ;;
    set_sign c (sign sa)
  else
    (if negb (sign sa =? 0) then bn_swap a b else ret tt) ;;;
    cmp <- bn_cmp a b ;;
    if 0 <? cmp then
      bn_do_sub a b c ;;;
      set_sign c 0
    else if cmp <? 0 then
      bn_do_sub b a c ;;;
      set_sign c 1
    else
      bn_resize c 1 ;;;
      sc <- deref c ;;
      store (number sc) 0 0 ;;;
      set_sign c 0.

End Allocator.

(** [bn_is_zero], bn.h line 18. *)
Definition bn_is_zero (n : bn) : bool := size n =? 0.

(** How [bn_add] reads the result of [bn_cmp (a, b)], lines 170-178:
    [cmp > 0] is taken as [|a| > |b|], [cmp < 0] as [|a| < |b|], anything
    else as [|a| == |b|]. *)
Inductive order := LESS | EQUAL | GREATER.

Definition order_of_cmp (cmp : Z) : order :=
  if 0 <? cmp then GREATER else if cmp <? 0 then LESS else EQUAL.

(** ** What a [bn] stands for *)

(** The limbs, the size and the sign found behind a pointer. *)
Definition view (m : mem) (p : ptr) : option (list Z * Z * Z) :=
  match p with
  | Some a =>
      match structs m !! a with
      | Some s =>
          match number s with
          | Some q =>
              match bufs m !! q with
              | Some l => Some (l, size s, sign s)
              | None => None
              end
          | None => None
          end
      | None => None
      end
  | None => None
  end.

(** [p] is a live [bn] with sign [g] whose limbs [l] are the whole array
    at [q]. *)
Definition owns (m : mem) (p q : positive) (l : list Z) (g : Z) : Prop :=
  structs m !! p = Some (Bn (Some q) (Z.of_nat (length l)) g)
  /\ bufs m !! q = Some l.

(** No limb array belongs to two [bn] objects. *)
Definition exclusive (m : mem) : Prop :=
  forall p p' s s' q,
    structs m !! p = Some s -> structs m !! p' = Some s' ->
    number s = Some q -> number s' = Some q -> p = p'.

Definition exclusiveb (m : mem) : bool :=
  forallb (fun x : positive * bn =>
    forallb (fun y : positive * bn =>
      match number x.2, number y.2 with
      | Some q, Some q' =>
          if decide (q = q') then bool_decide (x.1 = y.1) else true
      | _, _ => true
      end) (map_to_list (structs m))) (map_to_list (structs m)).

Definition limbs_ok (l : list Z) : Prop := Forall (fun x => 0 <= x < 2 ^ 32) l.

(** The magnitude: limb [i] weighs [2 ^ (32 * i)]. *)
Definition value (l : list Z) : Z := foldr (fun x v => x + 2 ^ 32 * v) 0 l.

(** The number of bits of a magnitude. *)
Definition bitlen (v : Z) : Z := if v =? 0 then 0 else Z.log2 v + 1.

(** Limb [i], zero past the end. *)
Definition limb (l : list Z) (i : Z) : Z := default 0 (l !! Z.to_nat i).

(** [size == 1] or [limbs[size - 1] != 0]. *)
Definition normalized (l : list Z) : Prop :=
  length l = 1%nat \/ limb l (Z.of_nat (length l) - 1) <> 0.

(** What [bn_clz_loop] adds to its counter over the limbs [n-1 .. 0]. *)
Fixpoint clz_top (n : nat) (l : list Z) : Z :=
  match n with
  | O => 0
  | S i => if limb l (Z.of_nat i) =? 0
           then 32 + clz_top i l
           else builtin_clz (limb l (Z.of_nat i))
  end.

(** The zero limbs at the top of the first [n]. *)
Fixpoint zeros_top (n : nat) (l : list Z) : nat :=
  match n with
  | O => O
  | S i => if limb l (Z.of_nat i) =? 0 then S (zeros_top i l) else O
  end.

(** One limb of the addition and of the subtraction: the limb stored and
    the carry handed on. *)
Definition add_step (t1 t2 k : Z) : Z * Z :=
  let c := u64 (k + u64 (t1 + t2)) in (u32 c, Z.shiftr c 32).

Definition sub_step (t1 t2 k : Z) : Z * Z :=
  let c := s64 (t1 - t2 - k) in
  if c <? 0 then (u32 (c + Z.shiftl 1 32), 1) else (u32 c, 0).

(** Both loops as one: read limb [i] of the operands, store limb [i] of the
    destination, pass the carry. *)
Fixpoint limb_loop (f : Z -> Z -> Z -> Z * Z) (n : nat) (a b c : ptr)
    (i k : Z) : M unit :=
  match n with
  | O => ret tt
  | S n' =>
      t1 <- limb_or_zero a i ;;
      t2 <- limb_or_zero b i ;;
      sc <- deref c ;;
      store (number sc) i (f t1 t2 k).1 ;;;
      limb_loop f n' a b c (i + 1) (f t1 t2 k).2
  end.

(** The limbs such a loop stores, and the carry it ends with, when limb [j]
    of the operands reads [xa j] and [xb j]. *)
Fixpoint limbs_out (f : Z -> Z -> Z -> Z * Z) (n : nat) (xa xb : Z -> Z)
    (i k : Z) : list Z :=
  match n with
  | O => []
  | S n' => (f (xa i) (xb i) k).1
            :: limbs_out f n' xa xb (i + 1) (f (xa i) (xb i) k).2
  end.

Fixpoint carry_out (f : Z -> Z -> Z -> Z * Z) (n : nat) (xa xb : Z -> Z)
    (i k : Z) : Z :=
  match n with
  | O => k
  | S n' => carry_out f n' xa xb (i + 1) (f (xa i) (xb i) k).2
  end.

(** [xa i + xa (i+1) * 2^32 + ...], [n] terms. *)
Fixpoint weigh (n : nat) (xa : Z -> Z) (i : Z) : Z :=
  match n with
  | O => 0
  | S n' => xa i + 2 ^ 32 * weigh n' xa (i + 1)
  end.

(** [add_step] and [sub_step] are one step of schoolbook addition and
    subtraction in base [2 ^ 32]; [sg] is [1] for the first, [-1] for the
    second. *)
Definition step_law (sg : Z) (f : Z -> Z -> Z -> Z * Z) : Prop :=
  forall t1 t2 k, 0 <= t1 < 2 ^ 32 -> 0 <= t2 < 2 ^ 32 -> 0 <= k <= 1 ->
    0 <= (f t1 t2 k).1 < 2 ^ 32 /\ 0 <= (f t1 t2 k).2 <= 1
    /\ (f t1 t2 k).1 + sg * 2 ^ 32 * (f t1 t2 k).2 = t1 + sg * t2 + sg * k.

(** What the limb loops leave in the destination, [n] limbs. *)
Definition add_limbs (n : nat) (la lb : list Z) : list Z :=
  limbs_out add_step n (limb la) (limb lb) 0 0.

Definition sub_limbs (n : nat) (la lb : list Z) : list Z :=
  limbs_out sub_step n (limb la) (limb lb) 0 0.

(** Lines 124-125: drop the top limb when it is zero and not the only one. *)
Definition trim_top (l : list Z) : list Z :=
  if (limb l (Z.of_nat (length l) - 1) =? 0) && (1 <? Z.of_nat (length l))
  then take (length l - 1) l
  else l.

(** Lines 152-155: drop the zero limbs at the top, but never the last limb. *)
Definition trim_zeros (l : list Z) : list Z :=
  let d := zeros_top (length l) l in
  take (length l - (if decide (d = length l) then d - 1 else d)) l.

(** What [bn_cmp] answers on limbs [la] and [lb]. *)
Fixpoint cmp_top (n : nat) (la lb : list Z) : Z :=
  match n with
  | O => 0
  | S i => if negb (limb la (Z.of_nat i) =? limb lb (Z.of_nat i))
           then (if limb la (Z.of_nat i) <? limb lb (Z.of_nat i) then 1 else -1)
           else cmp_top i la lb
  end.

Definition cmp_limbs (la lb : list Z) : Z :=
  if negb (Z.of_nat (length la) =? Z.of_nat (length lb))
  then (if Z.of_nat (length la) <? Z.of_nat (length lb) then 1 else -1)
  else cmp_top (length la) la lb.

(** The limb count [bn_do_add] asks for, lines 111-112. *)
Definition add_digits (la lb : list Z) : Z :=
  (Z.max (bitlen (value la)) (bitlen (value lb)) + 32) / 32.

(** The limbs and the sign [bn_add] leaves in its destination: lines
    169-183 on a non-negative [a] and a negative [b], then the whole of
    lines 163-184. *)
Definition signed_result (la lb : list Z) : list Z * Z :=
  let n := (length la `max` length lb)%nat in
  let cmp := cmp_limbs la lb in
  if 0 <? cmp then (trim_zeros (sub_limbs n la lb), 0)
  else if cmp <? 0 then (trim_zeros (sub_limbs n lb la), 1)
  else ([0], 0).

Definition add_result (la : list Z) (ga : Z) (lb : list Z) (gb : Z) : list Z * Z :=
  if ga =? gb
  then (trim_top (add_limbs (Z.to_nat (add_digits la lb)) la lb), ga)
  else if negb (ga =? 0) then signed_result lb la else signed_result la lb.

(** ** [bn_alloc] *)

Section Kmalloc.

(** [kmalloc], like [krealloc], belongs to the host: [kmalloc_bn_ok] says
    whether the request for a [bn] object is granted and [stale_bn] is what
    the fresh object holds; [kmalloc_ok n] and [stale] do the same for an
    array of [n] limbs. *)
Variable kmalloc_bn_ok : bool.
Variable stale_bn : bn.
Variable kmalloc_ok : Z -> bool.
Variable stale : Z -> Z.

(** [kmalloc (sizeof (bn), GFP_KERNEL)]. *)
Definition kmalloc_bn : M ptr := fun m =>
  if kmalloc_bn_ok then
    let a := fresh (dom (structs m)) in
    Some (Some a, Mem (<[a := stale_bn]> (structs m)) (bufs m))
  else Some (None, m).

(** [kmalloc (sizeof (int) * n, GFP_KERNEL)]. *)
Definition kmalloc (n : Z) : M ptr := fun m =>
  if kmalloc_ok n then
    let a := fresh (dom (bufs m)) in
    Some (Some a,
          Mem (structs m) (<[a := (fun i => u32 (stale i)) <$> seqZ 0 n]> (bufs m)))
  else Some (None, m).

(** [bn_alloc], lines 15-23; [size] is a [size_t].  The byte count
    [sizeof (int) * size] of lines 18 and 19 is a [size_t] product, so it is
    reduced modulo [2 ^ 64]; [n] is that count in limbs. *)
Definition bn_alloc (size : Z) : M ptr :=
  new <- kmalloc_bn ;;
  let n := u64 (4 * size) / 4 in
  q <- kmalloc n ;;
  set_number new q ;;;
  s <- deref new ;;
  memset0 (number s) 0 n ;;;
  set_size new (u32 size) ;;;
  set_sign new 0 ;;;
  ret new.

End Kmalloc.

(** Every array a [bn] points to is live. *)
Definition no_dangling (m : mem) : Prop :=
  forall p s q, structs m !! p = Some s -> number s = Some q ->
    is_Some (bufs m !! q).

Definition no_danglingb (m : mem) : bool :=
  forallb (fun x : positive * bn =>
    match number x.2 with
    | Some q => bool_decide (is_Some (bufs m !! q))
    | None => true
    end) (map_to_list (structs m)).

(** ** Test heaps *)

(** An allocator that grants every request and hands out zeroed memory. *)
Definition always_granted (_ : Z) : bool := true.
Definition no_stale (_ : Z) : Z := 0.

(** Three [bn] objects at addresses 1, 2 and 3, with their limb arrays at
    11, 12 and 13. *)
Definition heap3 (la : list Z) (ga : Z) (lb : list Z) (gb : Z)
    (lc : list Z) (gc : Z) : mem :=
  Mem (<[1%positive := Bn (Some 11%positive) (Z.of_nat (length la)) ga]>
         (<[2%positive := Bn (Some 12%positive) (Z.of_nat (length lb)) gb]>
            (<[3%positive := Bn (Some 13%positive) (Z.of_nat (length lc)) gc]> ∅)))
      (<[11%positive := la]> (<[12%positive := lb]> (<[13%positive := lc]> ∅))).

(** * Properties *)

(** ** Machine integers *)

Lemma u32_small x : 0 <= x < 2 ^ 32 -> u32 x = x.
Proof. intros H. unfold u32. apply Z.mod_small. exact H. Qed.

Lemma u64_small x : 0 <= x < 2 ^ 64 -> u64 x = x.
Proof. intros H. unfold u64. apply Z.mod_small. exact H. Qed.

Lemma s32_small x : - 2 ^ 31 <= x < 2 ^ 31 -> s32 x = x.
Proof. intros H. unfold s32. rewrite Z.mod_small; lia. Qed.

Lemma s64_small x : - 2 ^ 63 <= x < 2 ^ 63 -> s64 x = x.
Proof. intros H. unfold s64. rewrite Z.mod_small; lia. Qed.

Lemma builtin_clz_range x : 0 < x < 2 ^ 32 -> 0 <= builtin_clz x <= 31.
Proof.
  intros [H0 H1]. unfold builtin_clz.
  pose proof (Z.log2_nonneg x).
  assert (Z.log2 x < 32) by (apply Z.log2_lt_pow2; lia).
  lia.
Qed.

(** ** The monad *)

Lemma bind_Some {A B} (c : M A) (k : A -> M B) m x m' :
  c m = Some (x, m') -> bind c k m = k x m'.
Proof. intros H. unfold bind. rewrite H. reflexivity. Qed.

(** Run the first command of a sequence, given what it returns. *)
Ltac run H := rewrite (bind_Some _ _ _ _ _ H).

Lemma mem_eta m : Mem (structs m) (bufs m) = m.
Proof. destruct m; reflexivity. Qed.

(** ** Limbs and magnitudes *)

Lemma limb_lookup (l : list Z) i x :
  l !! i = Some x -> limb l (Z.of_nat i) = x.
Proof. intros H. unfold limb. rewrite Nat2Z.id, H. reflexivity. Qed.

Lemma limb_ge (l : list Z) i : Z.of_nat (length l) <= i -> limb l i = 0.
Proof.
  intros H. unfold limb. rewrite lookup_ge_None_2; [reflexivity | lia].
Qed.

Lemma limb_range l i : limbs_ok l -> 0 <= limb l i < 2 ^ 32.
Proof.
  intros Hl. unfold limb.
  destruct (l !! Z.to_nat i) as [x|] eqn:E; simpl; [| lia].
  unfold limbs_ok in Hl. rewrite Forall_lookup in Hl. exact (Hl _ _ E).
Qed.

Lemma value_app l1 l2 :
  value (l1 ++ l2) = value l1 + 2 ^ (32 * Z.of_nat (length l1)) * value l2.
Proof.
  induction l1 as [|x l1 IH]; simpl.
  - lia.
  - fold (value (l1 ++ l2)). fold (value l1). rewrite IH.
    replace (32 * Z.of_nat (S (length l1))) with (32 + 32 * Z.of_nat (length l1)) by lia.
    rewrite Z.pow_add_r by lia. ring.
Qed.

Lemma value_range l :
  limbs_ok l -> 0 <= value l < 2 ^ (32 * Z.of_nat (length l)).
Proof.
  induction 1 as [|x l Hx Hl IH]; simpl.
  - lia.
  - fold (value l).
    replace (32 * Z.of_nat (S (length l))) with (32 + 32 * Z.of_nat (length l)) by lia.
    rewrite Z.pow_add_r by lia. nia.
Qed.

Lemma value_snoc l x :
  value (l ++ [x]) = value l + 2 ^ (32 * Z.of_nat (length l)) * x.
Proof. rewrite value_app. simpl. f_equal. f_equal. lia. Qed.

Lemma limbs_ok_take l n : limbs_ok l -> limbs_ok (take n l).
Proof. apply Forall_take. Qed.

Lemma weigh_nil n : forall i, weigh n (limb []) i = 0.
Proof.
  induction n as [|n IH]; intros i; simpl; [reflexivity |].
  rewrite IH. unfold limb. rewrite lookup_nil. simpl. lia.
Qed.

Lemma limb_cons x l i : 0 <= i -> limb (x :: l) (i + 1) = limb l i.
Proof.
  intros Hi. unfold limb.
  replace (Z.to_nat (i + 1)) with (S (Z.to_nat i)) by lia. reflexivity.
Qed.

Lemma weigh_cons n x l : forall i,
  0 <= i -> weigh n (limb (x :: l)) (i + 1) = weigh n (limb l) i.
Proof.
  induction n as [|n IH]; intros i Hi; simpl; [reflexivity |].
  rewrite limb_cons by lia. rewrite IH by lia. reflexivity.
Qed.

Lemma weigh_take n : forall l, weigh n (limb l) 0 = value (take n l).
Proof.
  induction n as [|n IH]; intros l; simpl.
  - reflexivity.
  - destruct l as [|x l]; simpl.
    + rewrite weigh_nil. unfold limb. simpl. lia.
    + fold (value (take n l)). rewrite <- IH.
      change 1 with (0 + 1). rewrite weigh_cons by lia. reflexivity.
Qed.

(** A magnitude that fits [n] limbs is the magnitude of its first [n]. *)
Lemma value_take_fits l n :
  limbs_ok l -> value l < 2 ^ (32 * Z.of_nat n) -> value (take n l) = value l.
Proof.
  intros Hl Hv.
  destruct (decide (length l <= n)%nat) as [Hle|Hgt].
  - rewrite take_ge by lia. reflexivity.
  - rewrite <- (take_drop n l) in Hv at 1. rewrite value_app in Hv.
    rewrite length_take in Hv. replace (n `min` length l)%nat with n in Hv by lia.
    pose proof (value_range (take n l) (limbs_ok_take _ _ Hl)) as [H1 _].
    assert (Hd : limbs_ok (drop n l)) by (apply Forall_drop; exact Hl).
    pose proof (value_range _ Hd) as [H2 _].
    assert (0 < 2 ^ (32 * Z.of_nat n)) by (apply Z.pow_pos_nonneg; lia).
    assert (value (drop n l) = 0) by nia.
    rewrite <- (take_drop n l) at 2. rewrite value_app, H0. lia.
Qed.

(** ** Counting leading zeros *)

Lemma log2_shift v k x :
  0 <= k -> 0 <= v < 2 ^ k -> 0 < x ->
  Z.log2 (v + 2 ^ k * x) = k + Z.log2 x.
Proof.
  intros Hk Hv Hx.
  pose proof (Z.log2_nonneg x) as Hl.
  pose proof (Z.log2_spec x Hx) as [L1 L2].
  replace (Z.succ (Z.log2 x)) with (Z.log2 x + 1) in L2 by lia.
  assert (0 < 2 ^ k) by (apply Z.pow_pos_nonneg; lia).
  apply Z.log2_unique; [lia |].
  replace (Z.succ (k + Z.log2 x)) with (k + (Z.log2 x + 1)) by lia.
  rewrite !Z.pow_add_r in * by lia. split.
  - apply Z.le_trans with (2 ^ k * x); [| lia].
    apply Z.mul_le_mono_nonneg_l; lia.
  - apply Z.lt_le_trans with (2 ^ k * (x + 1)); [lia |].
    apply Z.mul_le_mono_nonneg_l; lia.
Qed.

Lemma clz_top_range l : limbs_ok l -> forall n,
  0 <= clz_top n l <= 32 * Z.of_nat n.
Proof.
  intros Hl. induction n as [|n IH]; simpl clz_top; [lia |].
  pose proof (limb_range l (Z.of_nat n) Hl) as Hr.
  destruct (limb l (Z.of_nat n) =? 0) eqn:E.
  - lia.
  - apply Z.eqb_neq in E.
    pose proof (builtin_clz_range (limb l (Z.of_nat n))). lia.
Qed.

Lemma msb_take l : limbs_ok l -> forall n, (n <= length l)%nat ->
  32 * Z.of_nat n - clz_top n l = bitlen (value (take n l)).
Proof.
  intros Hl. induction n as [|n IH]; intros Hn.
  - rewrite take_0. reflexivity.
  - destruct (lookup_lt_is_Some_2 l n) as [x Hx]; [lia |].
    rewrite (take_S_r _ _ _ Hx), value_snoc, length_take.
    replace (n `min` length l)%nat with n by lia.
    simpl clz_top. rewrite (limb_lookup _ _ _ Hx).
    destruct (x =? 0) eqn:E.
    + apply Z.eqb_eq in E. subst x. rewrite Z.mul_0_r, Z.add_0_r.
      rewrite <- IH by lia. lia.
    + apply Z.eqb_neq in E.
      assert (Hxr : 0 <= x < 2 ^ 32).
      { unfold limbs_ok in Hl. rewrite Forall_lookup in Hl. exact (Hl _ _ Hx). }
      pose proof (value_range _ (limbs_ok_take l n Hl)) as Hv.
      rewrite length_take in Hv. replace (n `min` length l)%nat with n in Hv by lia.
      assert (0 < 2 ^ (32 * Z.of_nat n)) by (apply Z.pow_pos_nonneg; lia).
      unfold bitlen.
      destruct (value (take n l) + 2 ^ (32 * Z.of_nat n) * x =? 0) eqn:E0.
      * apply Z.eqb_eq in E0. nia.
      * rewrite log2_shift by lia. unfold builtin_clz. lia.
Qed.

Lemma msb_bitlen l : limbs_ok l ->
  32 * Z.of_nat (length l) - clz_top (length l) l = bitlen (value l).
Proof.
  intros Hl. rewrite (msb_take l Hl (length l)) by lia.
  rewrite take_ge by lia. reflexivity.
Qed.

Lemma bitlen_spec v : 0 <= v -> 0 <= bitlen v /\ v < 2 ^ bitlen v
  /\ (0 < v -> 2 ^ (bitlen v - 1) <= v).
Proof.
  intros Hv. unfold bitlen. destruct (v =? 0) eqn:E.
  - apply Z.eqb_eq in E. subst. simpl. lia.
  - apply Z.eqb_neq in E. assert (Hp : 0 < v) by lia.
    pose proof (Z.log2_spec v Hp) as [L1 L2]. pose proof (Z.log2_nonneg v).
    replace (Z.log2 v + 1 - 1) with (Z.log2 v) by lia.
    replace (Z.succ (Z.log2 v)) with (Z.log2 v + 1) in L2 by lia. lia.
Qed.

(** ** Reading a [bn] *)

Lemma deref_owns m p q l g :
  owns m p q l g -> deref (Some p) m = Some (Bn (Some q) (Z.of_nat (length l)) g, m).
Proof. intros [H _]. unfold deref. rewrite H. reflexivity. Qed.

Ltac run_deref H := run (deref_owns _ _ _ _ _ H).

Lemma load_owns m p q l g i x :
  owns m p q l g -> l !! i = Some x -> load (Some q) (Z.of_nat i) m = Some (x, m).
Proof.
  intros [_ H] Hx. unfold load. rewrite H.
  destruct (Z.leb_spec 0 (Z.of_nat i)); [| lia].
  rewrite Nat2Z.id, Hx. reflexivity.
Qed.

Lemma limb_or_zero_owns m p q l g i :
  owns m p q l g -> 0 <= i < 2 ^ 32 ->
  limb_or_zero (Some p) i m = Some (limb l i, m).
Proof.
  intros Ho Hi. unfold limb_or_zero.
  run_deref Ho. simpl.
  rewrite u32_small by lia.
  destruct (i <? Z.of_nat (length l)) eqn:E.
  - apply Z.ltb_lt in E.
    destruct (lookup_lt_is_Some_2 l (Z.to_nat i)) as [x Hx]; [lia |].
    replace i with (Z.of_nat (Z.to_nat i)) at 1 by lia.
    rewrite (load_owns _ _ _ _ _ _ _ Ho Hx). unfold limb. rewrite Hx. reflexivity.
  - apply Z.ltb_ge in E. rewrite limb_ge by lia. reflexivity.
Qed.

Lemma bn_clz_loop_owns m p q l g : owns m p q l g -> limbs_ok l ->
  forall n cnt, (n <= length l)%nat -> 0 <= cnt -> cnt + 32 * Z.of_nat n < 2 ^ 31 ->
  bn_clz_loop n (Some p) cnt m = Some (cnt + clz_top n l, m).
Proof.
  intros Ho Hl. induction n as [|n IH]; intros cnt Hn Hc Hb; simpl.
  - unfold ret. rewrite Z.add_0_r. reflexivity.
  - destruct (lookup_lt_is_Some_2 l n) as [x Hx]; [lia |].
    run_deref Ho. simpl number.
    run (load_owns _ _ _ _ _ _ _ Ho Hx).
    rewrite (limb_lookup _ _ _ Hx).
    assert (Hxr : 0 <= x < 2 ^ 32).
    { unfold limbs_ok in Hl. rewrite Forall_lookup in Hl. exact (Hl _ _ Hx). }
    destruct (x =? 0) eqn:E; simpl.
    + rewrite s32_small by lia. rewrite IH by lia. f_equal. f_equal. lia.
    + apply Z.eqb_neq in E. pose proof (builtin_clz_range x).
      unfold ret. rewrite s32_small by lia. reflexivity.
Qed.

Lemma bn_clz_owns m p q l g :
  owns m p q l g -> limbs_ok l -> Z.of_nat (length l) < 2 ^ 26 ->
  bn_clz (Some p) m = Some (clz_top (length l) l, m).
Proof.
  intros Ho Hl Hb. unfold bn_clz.
  run_deref Ho. simpl size.
  rewrite s32_small by lia.
  replace (Z.to_nat (Z.of_nat (length l) - 1 + 1)) with (length l) by lia.
  rewrite (bn_clz_loop_owns _ _ _ _ _ Ho Hl) by lia. reflexivity.
Qed.

Lemma bn_msb_owns m p q l g :
  owns m p q l g -> limbs_ok l -> Z.of_nat (length l) < 2 ^ 26 ->
  bn_msb (Some p) m = Some (bitlen (value l), m).
Proof.
  intros Ho Hl Hb. unfold bn_msb.
  run_deref Ho.
  run (bn_clz_owns _ _ _ _ _ Ho Hl Hb). simpl size.
  pose proof (clz_top_range l Hl (length l)).
  unfold ret. rewrite s32_small by lia. rewrite <- msb_bitlen by exact Hl.
  do 2 f_equal. lia.
Qed.

(** ** Writing a [bn] *)

Lemma set_number_live m p s q :
  structs m !! p = Some s ->
  set_number (Some p) q m =
    Some (tt, Mem (<[p := Bn q (size s) (sign s)]> (structs m)) (bufs m)).
Proof.
  intros H. unfold set_number, bind, deref, assign. rewrite H. cbn. rewrite H.
  reflexivity.
Qed.

Lemma set_size_live m p s n :
  structs m !! p = Some s ->
  set_size (Some p) n m =
    Some (tt, Mem (<[p := Bn (number s) n (sign s)]> (structs m)) (bufs m)).
Proof.
  intros H. unfold set_size, bind, deref, assign. rewrite H. cbn. rewrite H.
  reflexivity.
Qed.

Lemma set_sign_live m p s g :
  structs m !! p = Some s ->
  set_sign (Some p) g m =
    Some (tt, Mem (<[p := Bn (number s) (size s) g]> (structs m)) (bufs m)).
Proof.
  intros H. unfold set_sign, bind, deref, assign. rewrite H. cbn. rewrite H.
  reflexivity.
Qed.

Lemma store_live m q l i v :
  bufs m !! q = Some l -> 0 <= i < Z.of_nat (length l) ->
  store (Some q) i v m =
    Some (tt, Mem (structs m) (<[q := <[Z.to_nat i := v]> l]> (bufs m))).
Proof.
  intros H Hi. unfold store. rewrite H.
  destruct (Z.leb_spec 0 i); [| lia].
  destruct (Z.ltb_spec i (Z.of_nat (length l))); [| lia]. reflexivity.
Qed.

Lemma memset0_live m q l off n :
  bufs m !! q = Some l -> 0 <= off -> 0 <= n -> off + n <= Z.of_nat (length l) ->
  memset0 (Some q) off n m =
    Some (tt, Mem (structs m)
                  (<[q := take (Z.to_nat off) l ++ replicate (Z.to_nat n) 0
                          ++ drop (Z.to_nat (off + n)) l]> (bufs m))).
Proof.
  intros H H1 H2 H3. unfold memset0. rewrite H.
  destruct (Z.eqb_spec n 0) as [->|_].
  - rewrite ?Z.add_0_r. change (Z.to_nat 0) with 0%nat. cbn [replicate app].
    rewrite take_drop, insert_id by exact H. rewrite mem_eta. reflexivity.
  - destruct (Z.leb_spec 0 off); [| lia].
    destruct (Z.leb_spec 0 n); [| lia].
    destruct (Z.leb_spec (off + n) (Z.of_nat (length l))); [| lia]. reflexivity.
Qed.

(** ** Resizing and freeing *)

Lemma bn_free_owns m p q l g :
  owns m p q l g ->
  bn_free (Some p) m = Some (0, Mem (delete p (structs m)) (delete q (bufs m))).
Proof.
  intros Ho. pose proof Ho as [Hs Hq]. unfold bn_free.
  run_deref Ho. simpl number.
  unfold bind, kfree_limbs, kfree_bn, ret. rewrite Hq. simpl. rewrite Hs.
  reflexivity.
Qed.

Section Resize.

Variable ok : Z -> bool.
Variable stale : Z -> Z.

Lemma krealloc_live m q l n :
  bufs m !! q = Some l -> ok n = true ->
  krealloc ok stale (Some q) n m =
    Some (Some q,
          Mem (structs m)
              (<[q := take (Z.to_nat n) l
                      ++ ((fun i => u32 (stale i))
                            <$> seqZ (Z.of_nat (length l)) (n - Z.of_nat (length l)))]>
                 (bufs m))).
Proof. intros H Hok. unfold krealloc. rewrite Hok, H. reflexivity. Qed.

(** A granted [bn_resize] to [n > 0] limbs: the array is cut or padded
    with zeros to [n] limbs, nothing else moves. *)
Lemma bn_resize_owns m c qc lc gc n :
  owns m c qc lc gc -> 0 < n < 2 ^ 32 -> ok n = true ->
  bn_resize ok stale (Some c) n m =
    Some (0, Mem (<[c := Bn (Some qc) n gc]> (structs m))
                 (<[qc := resize (Z.to_nat n) 0 lc]> (bufs m))).
Proof.
  intros Ho Hn Hok. pose proof Ho as [Hs Hq]. unfold bn_resize.
  run_deref Ho. cbn [number size sign].
  destruct (Z.eqb_spec n (Z.of_nat (length lc))) as [E|E].
  - unfold ret. subst n. rewrite Nat2Z.id, resize_all.
    rewrite !insert_id by assumption. rewrite mem_eta. reflexivity.
  - destruct (Z.eqb_spec n 0) as [E0|_]; [lia |].
    run (krealloc_live _ _ _ _ Hq Hok).
    erewrite bind_Some by (apply set_number_live; exact Hs). cbn [number size sign].
    destruct (Z.ltb_spec (Z.of_nat (length lc)) n) as [Hlt|Hge].
    + erewrite bind_Some; cycle 1.
      { apply memset0_live with (l := lc ++ ((fun i => u32 (stale i))
                 <$> seqZ (Z.of_nat (length lc)) (n - Z.of_nat (length lc)))).
        - cbn [bufs]. rewrite lookup_insert_eq, take_ge by lia. reflexivity.
        - lia.
        - lia.
        - rewrite length_app, length_fmap, length_seqZ. lia. }
      cbn [bufs structs].
      erewrite bind_Some
        by (apply set_size_live; cbn [structs]; apply lookup_insert_eq).
      cbn [number size sign structs bufs]. unfold ret.
      rewrite !insert_insert_eq. rewrite u32_small by lia.
      do 3 f_equal.
      rewrite Nat2Z.id, take_app_length.
      rewrite drop_ge by (rewrite length_app, length_fmap, length_seqZ; lia).
      rewrite app_nil_r, resize_ge by lia.
      replace (Z.to_nat (n - Z.of_nat (length lc)))
        with (Z.to_nat n - length lc)%nat by lia.
      reflexivity.
    + unfold ret at 1. unfold bind at 1. cbn [bufs structs].
      erewrite bind_Some
        by (apply set_size_live; cbn [structs]; apply lookup_insert_eq).
      cbn [number size sign structs bufs]. unfold ret.
      rewrite !insert_insert_eq. rewrite u32_small by lia.
      do 3 f_equal.
      rewrite seqZ_nil by lia. simpl. rewrite app_nil_r.
      rewrite resize_le by lia. reflexivity.
Qed.

End Resize.

(** ** The limb loops *)

Lemma bn_do_add_loop_limb_loop n : forall a b c i k m,
  bn_do_add_loop n a b c i k m = limb_loop add_step n a b c i k m.
Proof.
  induction n as [|n IH]; intros a b c i k m; simpl; [reflexivity |].
  unfold bind. destruct (limb_or_zero a i m) as [[t1 m1]|]; [| reflexivity].
  destruct (limb_or_zero b i m1) as [[t2 m2]|]; [| reflexivity].
  destruct (deref c m2) as [[sc m3]|]; [| reflexivity].
  unfold add_step. cbn [fst snd].
  destruct (store (number sc) i _ m3) as [[[] m4]|]; [| reflexivity].
  apply IH.
Qed.

Lemma bn_do_sub_loop_limb_loop n : forall a b c i k m,
  bn_do_sub_loop n a b c i k m = limb_loop sub_step n a b c i k m.
Proof.
  induction n as [|n IH]; intros a b c i k m; simpl; [reflexivity |].
  unfold bind. destruct (limb_or_zero a i m) as [[t1 m1]|]; [| reflexivity].
  destruct (limb_or_zero b i m1) as [[t2 m2]|]; [| reflexivity].
  destruct (deref c m2) as [[sc m3]|]; [| reflexivity].
  unfold sub_step. destruct (s64 (t1 - t2 - k) <? 0); cbn [fst snd].
  - destruct (store (number sc) i _ m3) as [[[] m4]|]; [| reflexivity]. apply IH.
  - destruct (store (number sc) i _ m3) as [[[] m4]|]; [| reflexivity]. apply IH.
Qed.

Lemma limbs_out_ext f n : forall xa xa' xb xb' i k,
  (forall j, i <= j < i + Z.of_nat n -> xa j = xa' j) ->
  (forall j, i <= j < i + Z.of_nat n -> xb j = xb' j) ->
  limbs_out f n xa xb i k = limbs_out f n xa' xb' i k.
Proof.
  induction n as [|n IH]; intros xa xa' xb xb' i k Ha Hb; simpl; [reflexivity |].
  rewrite (Ha i), (Hb i) by lia. f_equal.
  apply IH; intros j Hj; [apply Ha | apply Hb]; lia.
Qed.

Lemma length_limbs_out f n : forall xa xb i k,
  length (limbs_out f n xa xb i k) = n.
Proof. induction n as [|n IH]; intros; simpl; [reflexivity |]. rewrite IH. reflexivity. Qed.

(** A store into the destination leaves every [bn] in place; when the
    array written is that of [p], the other limbs of [p] stay as they are. *)
Lemma owns_store m p q l g qc cur i v :
  owns m p q l g -> bufs m !! qc = Some cur ->
  exists l', owns (Mem (structs m) (<[qc := <[i := v]> cur]> (bufs m))) p q l' g
             /\ forall j, 0 <= j -> j <> Z.of_nat i -> limb l' j = limb l j.
Proof.
  intros [Hs Hq] Hc. destruct (decide (q = qc)) as [->|Hne].
  - assert (l = cur) by congruence. subst cur.
    exists (<[i := v]> l). split.
    + split; cbn [structs bufs].
      * rewrite length_insert. exact Hs.
      * apply lookup_insert_eq.
    + intros j Hj Hji. unfold limb. rewrite list_lookup_insert_ne by lia. reflexivity.
  - exists l. split; [| reflexivity].
    split; cbn [structs bufs]; [exact Hs |]. rewrite lookup_insert_ne by congruence.
    exact Hq.
Qed.

(** The loop on aliased operands: limb [i] of [a] and [b] is read before
    limb [i] of [c] is written, and no limb below [i] is read again, so the
    loop stores what it would store from untouched operands. *)
Lemma limb_loop_owns f a b c qa qb qc ga gb gc : forall n i k m la lb cur,
  owns m a qa la ga -> owns m b qb lb gb -> owns m c qc cur gc ->
  length cur = (i + n)%nat -> Z.of_nat (i + n) < 2 ^ 32 ->
  limb_loop f n (Some a) (Some b) (Some c) (Z.of_nat i) k m =
    Some (tt, Mem (structs m)
                  (<[qc := take i cur
                           ++ limbs_out f n (limb la) (limb lb) (Z.of_nat i) k]>
                     (bufs m))).
Proof.
  induction n as [|n IH]; intros i k m la lb cur Ha Hb Hc Hlen Hsz.
  - simpl. unfold ret. rewrite app_nil_r, take_ge by lia.
    rewrite insert_id by apply Hc. rewrite mem_eta. reflexivity.
  - cbn [limb_loop limbs_out].
    run (limb_or_zero_owns _ _ _ _ _ (Z.of_nat i) Ha ltac:(lia)).
    run (limb_or_zero_owns _ _ _ _ _ (Z.of_nat i) Hb ltac:(lia)).
    run_deref Hc. cbn [number].
    set (r := f (limb la (Z.of_nat i)) (limb lb (Z.of_nat i)) k).
    pose proof Hc as [Hcs Hcq].
    erewrite bind_Some by (apply store_live; [exact Hcq | lia]).
    rewrite Nat2Z.id.
    destruct (owns_store _ _ _ _ _ _ _ i r.1 Ha Hcq) as (la' & Ha' & Hla).
    destruct (owns_store _ _ _ _ _ _ _ i r.1 Hb Hcq) as (lb' & Hb' & Hlb).
    assert (Hc' : owns (Mem (structs m) (<[qc := <[i := r.1]> cur]> (bufs m)))
                    c qc (<[i := r.1]> cur) gc).
    { split; cbn [structs bufs]; [rewrite length_insert; exact Hcs |].
      apply lookup_insert_eq. }
    replace (Z.of_nat i + 1) with (Z.of_nat (S i)) by lia.
    rewrite (IH (S i) r.2 _ la' lb' _ Ha' Hb' Hc')
      by (rewrite ?length_insert; lia).
    cbn [structs bufs]. rewrite insert_insert_eq.
    do 4 f_equal.
    rewrite (take_S_r _ _ r.1) by (apply list_lookup_insert_eq; lia).
    rewrite take_insert_ge by lia. rewrite <- app_assoc. simpl. do 2 f_equal.
    apply limbs_out_ext; intros j Hj; [apply Hla | apply Hlb]; lia.
Qed.

(** ** The arithmetic of the loops *)

Lemma add_step_law : step_law 1 add_step.
Proof.
  intros t1 t2 k H1 H2 Hk. unfold add_step. cbn [fst snd].
  rewrite (u64_small (t1 + t2)) by lia. rewrite u64_small by lia.
  rewrite Z.shiftr_div_pow2 by lia. unfold u32.
  pose proof (Z.div_mod (k + (t1 + t2)) (2 ^ 32) ltac:(lia)).
  pose proof (Z.mod_pos_bound (k + (t1 + t2)) (2 ^ 32) ltac:(lia)).
  lia.
Qed.

Lemma sub_step_law : step_law (-1) sub_step.
Proof.
  intros t1 t2 k H1 H2 Hk. unfold sub_step.
  rewrite s64_small by lia. change (Z.shiftl 1 32) with (2 ^ 32).
  destruct (Z.ltb_spec (t1 - t2 - k) 0); cbn [fst snd]; rewrite u32_small by lia; lia.
Qed.

Lemma weigh_range n : forall xa i,
  (forall j, 0 <= xa j < 2 ^ 32) -> 0 <= weigh n xa i < 2 ^ (32 * Z.of_nat n).
Proof.
  induction n as [|n IH]; intros xa i H; simpl weigh.
  - simpl. lia.
  - specialize (IH xa (i + 1) H). specialize (H i).
    replace (32 * Z.of_nat (S n)) with (32 + 32 * Z.of_nat n) by lia.
    rewrite Z.pow_add_r by lia. nia.
Qed.

Lemma limbs_out_value sg f : step_law sg f -> forall n xa xb i k,
  (forall j, 0 <= xa j < 2 ^ 32) -> (forall j, 0 <= xb j < 2 ^ 32) -> 0 <= k <= 1 ->
  limbs_ok (limbs_out f n xa xb i k)
  /\ 0 <= carry_out f n xa xb i k <= 1
  /\ value (limbs_out f n xa xb i k)
     + sg * 2 ^ (32 * Z.of_nat n) * carry_out f n xa xb i k
     = weigh n xa i + sg * weigh n xb i + sg * k.
Proof.
  intros Hf. induction n as [|n IH]; intros xa xb i k Ha Hb Hk.
  - simpl. split; [constructor |]. split; lia.
  - cbn [limbs_out carry_out weigh].
    destruct (Hf (xa i) (xb i) k (Ha i) (Hb i) Hk) as (R1 & R2 & R3).
    destruct (IH xa xb (i + 1) _ Ha Hb R2) as (I1 & I2 & I3).
    split; [constructor; assumption |]. split; [assumption |].
    simpl value. fold (value (limbs_out f n xa xb (i + 1) (f (xa i) (xb i) k).2)).
    replace (32 * Z.of_nat (S n)) with (32 + 32 * Z.of_nat n) by lia.
    rewrite Z.pow_add_r by lia.
    set (V := value _) in *. set (C := carry_out _ _ _ _ _ _) in *.
    set (P := 2 ^ (32 * Z.of_nat n)) in *.
    set (r1 := (f (xa i) (xb i) k).1) in *. set (r2 := (f (xa i) (xb i) k).2) in *.
    set (WA := weigh n xa (i + 1)) in *. set (WB := weigh n xb (i + 1)) in *.
    transitivity (r1 + 2 ^ 32 * (V + sg * P * C)); [ring |].
    rewrite I3. transitivity ((r1 + sg * 2 ^ 32 * r2) + 2 ^ 32 * WA + sg * 2 ^ 32 * WB); [ring |].
    rewrite R3. ring.
Qed.

(** ** Aliasing with the destination *)

Lemma limb_resize (l : list Z) n j :
  0 <= j < Z.of_nat n -> limb (resize n 0 l) j = limb l j.
Proof.
  intros Hj. unfold limb.
  destruct (decide (Z.to_nat j < length l)%nat) as [Hlt|Hge].
  - rewrite lookup_resize by lia. reflexivity.
  - rewrite lookup_resize_new by lia. rewrite lookup_ge_None_2 by lia. reflexivity.
Qed.

Lemma limbs_ok_resize l n : limbs_ok l -> limbs_ok (resize n 0 l).
Proof. intros H. apply Forall_resize; [lia | exact H]. Qed.

(** The destination after a resize to [n] limbs. *)
Lemma owns_resized m c qc lc gc n :
  owns (Mem (<[c := Bn (Some qc) (Z.of_nat n) gc]> (structs m))
            (<[qc := resize n 0 lc]> (bufs m))) c qc (resize n 0 lc) gc.
Proof.
  split; cbn [structs bufs]; rewrite lookup_insert_eq; [| reflexivity].
  rewrite length_resize. reflexivity.
Qed.

(** An operand after the destination was resized to [n] limbs: whether it
    is the destination or not, its limbs below [n] read as before. *)
Lemma owns_resize_frame m p q l g c qc lc gc n :
  owns m p q l g -> owns m c qc lc gc -> (p = c \/ q <> qc) ->
  exists l',
    owns (Mem (<[c := Bn (Some qc) (Z.of_nat n) gc]> (structs m))
              (<[qc := resize n 0 lc]> (bufs m))) p q l' g
    /\ (forall j, 0 <= j < Z.of_nat n -> limb l' j = limb l j)
    /\ (limbs_ok l -> limbs_ok l').
Proof.
  intros Hp Hc Hsep. destruct (decide (p = c)) as [->|Hne].
  - destruct Hp as [Hs Hq], Hc as [Hcs Hcq].
    assert (q = qc /\ g = gc) as [-> ->] by (rewrite Hs in Hcs; split; congruence).
    assert (l = lc) by congruence. subst lc.
    exists (resize n 0 l). split; [apply owns_resized |]. split.
    + intros j Hj. apply limb_resize. exact Hj.
    + apply limbs_ok_resize.
  - destruct Hsep as [?|Hq]; [contradiction |].
    exists l. split; [| split; [reflexivity | tauto]].
    destruct Hp as [Hs Hb]. split; cbn [structs bufs].
    + rewrite lookup_insert_ne by congruence. exact Hs.
    + rewrite lookup_insert_ne by congruence. exact Hb.
Qed.

Lemma exclusive_owns m p q l g c qc lc gc :
  exclusive m -> owns m p q l g -> owns m c qc lc gc -> p = c \/ q <> qc.
Proof.
  intros Hx [Hs _] [Hcs _]. destruct (decide (q = qc)) as [->|Hne]; [left | right; exact Hne].
  exact (Hx _ _ _ _ qc Hs Hcs eq_refl eq_refl).
Qed.

(** ** [bn_do_add] *)

Lemma bitlen_value_range l :
  limbs_ok l -> 0 <= bitlen (value l) <= 32 * Z.of_nat (length l).
Proof.
  intros Hl. rewrite <- msb_bitlen by exact Hl.
  pose proof (clz_top_range l Hl (length l)).
  pose proof (value_range l Hl) as [Hv _].
  pose proof (bitlen_spec _ Hv) as [Hb _].
  rewrite <- msb_bitlen in Hb by exact Hl. lia.
Qed.

Lemma add_digits_range la lb :
  limbs_ok la -> limbs_ok lb ->
  Z.of_nat (length la) < 2 ^ 25 -> Z.of_nat (length lb) < 2 ^ 25 ->
  1 <= add_digits la lb <= 2 ^ 25.
Proof.
  intros Ha Hb La Lb. unfold add_digits.
  pose proof (bitlen_value_range la Ha). pose proof (bitlen_value_range lb Hb).
  split.
  - apply Z.div_le_lower_bound; lia.
  - apply Z.div_le_upper_bound; lia.
Qed.

Lemma bn_do_add_digits_owns m a qa la ga b qb lb gb :
  owns m a qa la ga -> owns m b qb lb gb -> limbs_ok la -> limbs_ok lb ->
  Z.of_nat (length la) < 2 ^ 25 -> Z.of_nat (length lb) < 2 ^ 25 ->
  bn_do_add_digits (Some a) (Some b) m = Some (add_digits la lb, m).
Proof.
  intros Ha Hb Hla Hlb La Lb. unfold bn_do_add_digits.
  run (bn_msb_owns _ _ _ _ _ Ha Hla ltac:(lia)).
  run (bn_msb_owns _ _ _ _ _ Hb Hlb ltac:(lia)).
  pose proof (bitlen_value_range la Hla). pose proof (bitlen_value_range lb Hlb).
  pose proof (add_digits_range la lb Hla Hlb La Lb) as Hd. unfold add_digits in *.
  set (mx := Z.max (bitlen (value la)) (bitlen (value lb))) in *.
  unfold ret, DIV_ROUNDUP. rewrite (s32_small (mx + 1)) by lia.
  rewrite (s32_small (mx + 1 + 32)) by lia. rewrite (s32_small (mx + 1 + 32 - 1)) by lia.
  destruct (Z.eqb_spec (mx + 1) 0) as [E|_]; [lia |].
  rewrite Z.quot_div_nonneg by lia.
  replace (mx + 1 + 32 - 1) with (mx + 32) by lia.
  rewrite Z.add_0_r, s32_small by lia. reflexivity.
Qed.

Section Granted.

Variable ok : Z -> bool.
Variable stale : Z -> Z.
Hypothesis granted : forall n, ok n = true.

(** Lines 115-125 on a destination of [n >= 1] limbs. *)
Lemma bn_do_add_carry_owns m a qa la ga b qb lb gb c qc cur gc :
  owns m a qa la ga -> owns m b qb lb gb -> owns m c qc cur gc ->
  (1 <= length cur)%nat -> Z.of_nat (length cur) < 2 ^ 32 ->
  let r := trim_top (add_limbs (length cur) la lb) in
  bn_do_add_carry ok stale (Some a) (Some b) (Some c) m =
    Some (tt, Mem (<[c := Bn (Some qc) (Z.of_nat (length r)) gc]> (structs m))
                  (<[qc := r]> (bufs m))).
Proof.
  intros Ha Hb Hc Hn Hsz r. unfold bn_do_add_carry.
  run_deref Hc. cbn [number size sign].
  rewrite Nat2Z.id.
  erewrite bind_Some; cycle 1.
  { rewrite bn_do_add_loop_limb_loop.
    apply (limb_loop_owns add_step a b c qa qb qc ga gb gc (length cur) 0%nat 0 m la lb cur
             Ha Hb Hc); simpl; lia. }
  rewrite take_0, app_nil_l. fold (add_limbs (length cur) la lb).
  set (outs := add_limbs (length cur) la lb) in *.
  assert (Hlen : length outs = length cur) by apply length_limbs_out.
  set (m1 := Mem (structs m) (<[qc := outs]> (bufs m))).
  assert (Hc1 : owns m1 c qc outs gc).
  { destruct Hc as [Hcs Hcq]. split; cbn [structs bufs].
    - rewrite Hlen. exact Hcs.
    - apply lookup_insert_eq. }
  run_deref Hc1. cbn [number size sign].
  rewrite u32_small by lia.
  destruct (lookup_lt_is_Some_2 outs (length outs - 1)) as [top Htop]; [lia |].
  replace (Z.of_nat (length outs) - 1) with (Z.of_nat (length outs - 1)) by lia.
  run (load_owns _ _ _ _ _ _ _ Hc1 Htop).
  assert (Hr : r = if (top =? 0) && (1 <? Z.of_nat (length outs))
                   then take (length outs - 1) outs else outs).
  { unfold r, trim_top.
    replace (Z.of_nat (length outs) - 1) with (Z.of_nat (length outs - 1)) by lia.
    rewrite (limb_lookup _ _ _ Htop). reflexivity. }
  destruct ((top =? 0) && (1 <? Z.of_nat (length outs))) eqn:E.
  - apply andb_true_iff in E as [_ E]. apply Z.ltb_lt in E.
    erewrite bind_Some
      by (apply (bn_resize_owns ok stale _ _ _ _ _ _ Hc1); [lia | apply granted]).
    unfold ret, m1. cbn [structs bufs]. rewrite insert_insert_eq.
    replace (Z.to_nat (Z.of_nat (length outs - 1))) with (length outs - 1)%nat by lia.
    rewrite resize_le by lia. rewrite Hr, length_take.
    replace ((length outs - 1) `min` length outs)%nat with (length outs - 1)%nat by lia.
    reflexivity.
  - unfold ret, m1. rewrite Hr.
    rewrite (insert_id (structs m) c); [reflexivity |].
    destruct Hc as [Hcs _]. rewrite Hlen. exact Hcs.
Qed.

(** [bn_do_add] altogether; [c] may be [a] or [b], and [a] may be [b]. *)
Lemma bn_do_add_owns m a qa la ga b qb lb gb c qc lc gc :
  owns m a qa la ga -> owns m b qb lb gb -> owns m c qc lc gc ->
  (a = c \/ qa <> qc) -> (b = c \/ qb <> qc) ->
  limbs_ok la -> limbs_ok lb ->
  Z.of_nat (length la) < 2 ^ 25 -> Z.of_nat (length lb) < 2 ^ 25 ->
  let r := trim_top (add_limbs (Z.to_nat (add_digits la lb)) la lb) in
  bn_do_add ok stale (Some a) (Some b) (Some c) m =
    Some (tt, Mem (<[c := Bn (Some qc) (Z.of_nat (length r)) gc]> (structs m))
                  (<[qc := r]> (bufs m))).
Proof.
  intros Ha Hb Hc Sa Sb Hla Hlb La Lb r. unfold bn_do_add.
  run (bn_do_add_digits_owns _ _ _ _ _ _ _ _ _ Ha Hb Hla Hlb La Lb).
  pose proof (add_digits_range la lb Hla Hlb La Lb) as Hd.
  set (d := add_digits la lb) in *.
  rewrite u64_small by lia.
  erewrite bind_Some
    by (apply (bn_resize_owns ok stale _ _ _ _ _ _ Hc); [lia | apply granted]).
  replace d with (Z.of_nat (Z.to_nat d)) at 1 by lia.
  destruct (owns_resize_frame _ _ _ _ _ _ _ _ _ (Z.to_nat d) Ha Hc Sa) as (la' & Ha' & Hla' & _).
  destruct (owns_resize_frame _ _ _ _ _ _ _ _ _ (Z.to_nat d) Hb Hc Sb) as (lb' & Hb' & Hlb' & _).
  pose proof (owns_resized m c qc lc gc (Z.to_nat d)) as Hc'.
  rewrite (bn_do_add_carry_owns _ _ _ _ _ _ _ _ _ _ _ _ _ Ha' Hb' Hc')
    by (rewrite length_resize; lia).
  cbn [structs bufs]. rewrite !insert_insert_eq, length_resize.
  assert (E : add_limbs (Z.to_nat d) la' lb' = add_limbs (Z.to_nat d) la lb).
  { apply limbs_out_ext; intros j Hj; [apply Hla' | apply Hlb']; lia. }
  rewrite E. reflexivity.
Qed.

End Granted.

(** ** Trimming *)

Lemma limb_take l n j : 0 <= j < Z.of_nat n -> limb (take n l) j = limb l j.
Proof. intros Hj. unfold limb. rewrite lookup_take_lt by lia. reflexivity. Qed.

Lemma value_zero_limbs l : (forall j, 0 <= j -> limb l j = 0) -> value l = 0.
Proof.
  induction l as [|x l IH]; intros H; simpl; [reflexivity |].
  fold (value l). rewrite IH.
  - specialize (H 0 ltac:(lia)). unfold limb in H. simpl in H. lia.
  - intros j Hj. rewrite <- (limb_cons x) by lia. apply H. lia.
Qed.

(** Zero limbs at the top do not count. *)
Lemma value_take_zeros l k :
  (forall j, Z.of_nat k <= j -> limb l j = 0) -> value (take k l) = value l.
Proof.
  intros H. rewrite <- (take_drop k l) at 2. rewrite value_app.
  rewrite (value_zero_limbs (drop k l)); [lia |].
  intros j Hj. unfold limb. rewrite lookup_drop.
  specialize (H (Z.of_nat k + j) ltac:(lia)). unfold limb in H.
  replace (k + Z.to_nat j)%nat with (Z.to_nat (Z.of_nat k + j)) by lia. exact H.
Qed.

Lemma trim_top_value l : value (trim_top l) = value l.
Proof.
  unfold trim_top.
  destruct (Z.eqb_spec (limb l (Z.of_nat (length l) - 1)) 0) as [E|_]; [| reflexivity].
  destruct (Z.ltb_spec 1 (Z.of_nat (length l))); [| reflexivity]. cbn [andb].
  apply value_take_zeros. intros j Hj.
  destruct (decide (j = Z.of_nat (length l) - 1)) as [->|Hne]; [exact E |].
  apply limb_ge. lia.
Qed.

Lemma trim_top_limbs_ok l : limbs_ok l -> limbs_ok (trim_top l).
Proof.
  intros H. unfold trim_top. destruct (_ && _); [apply limbs_ok_take |]; exact H.
Qed.

(** A magnitude of at least [2 ^ (32 * k)] has a limb above [k] that is
    not zero; here for the top limb of [k + 1]. *)
Lemma top_limb_nonzero l k :
  limbs_ok l -> length l = S k -> 2 ^ (32 * Z.of_nat k) <= value l ->
  limb l (Z.of_nat k) <> 0.
Proof.
  intros Hl Hlen Hv E.
  rewrite <- (value_take_zeros l k) in Hv.
  - pose proof (value_range _ (limbs_ok_take l k Hl)) as Hr.
    rewrite length_take in Hr. replace (k `min` length l)%nat with k in Hr by lia. lia.
  - intros j Hj. destruct (decide (j = Z.of_nat k)) as [->|Hne]; [exact E |].
    apply limb_ge. lia.
Qed.

Lemma trim_top_normalized l :
  limbs_ok l -> (1 <= length l)%nat ->
  ((2 <= length l)%nat -> 2 ^ (32 * (Z.of_nat (length l) - 2)) <= value l) ->
  normalized (trim_top l).
Proof.
  intros Hl Hn Hv. pose proof (trim_top_value l) as Htv. unfold trim_top in *.
  destruct (Z.eqb_spec (limb l (Z.of_nat (length l) - 1)) 0) as [E|E]; cbn [andb] in *.
  - destruct (Z.ltb_spec 1 (Z.of_nat (length l))) as [H1|H1].
    + right. set (r := take (length l - 1) l) in *.
      assert (Hlr : length r = S (length l - 2)).
      { unfold r. rewrite length_take. lia. }
      replace (Z.of_nat (length r) - 1) with (Z.of_nat (length l - 2)) by lia.
      apply top_limb_nonzero; [apply limbs_ok_take; exact Hl | exact Hlr |].
      rewrite Htv. replace (Z.of_nat (length l - 2)) with (Z.of_nat (length l) - 2) by lia.
      apply Hv. lia.
    + left. lia.
  - right. exact E.
Qed.

Lemma zeros_top_spec l : forall n,
  (zeros_top n l <= n)%nat
  /\ (forall j, Z.of_nat n - Z.of_nat (zeros_top n l) <= j < Z.of_nat n -> limb l j = 0)
  /\ ((zeros_top n l < n)%nat ->
      limb l (Z.of_nat n - Z.of_nat (zeros_top n l) - 1) <> 0).
Proof.
  induction n as [|n (I1 & I2 & I3)]; simpl zeros_top.
  - split; [lia |]. split; [intros; lia | lia].
  - destruct (Z.eqb_spec (limb l (Z.of_nat n)) 0) as [E|E].
    + split; [lia |]. split.
      * intros j Hj. destruct (decide (j = Z.of_nat n)) as [->|Hne]; [exact E |].
        apply I2. lia.
      * intros H.
        replace (Z.of_nat (S n) - Z.of_nat (S (zeros_top n l)) - 1)
          with (Z.of_nat n - Z.of_nat (zeros_top n l) - 1) by lia.
        apply I3. lia.
    + split; [lia |]. split; [intros; lia |]. intros _.
      replace (Z.of_nat (S n) - Z.of_nat 0 - 1) with (Z.of_nat n) by lia. exact E.
Qed.

Lemma clz_top_zeros l : limbs_ok l -> forall n,
  Z.quot (clz_top n l) 32 = Z.of_nat (zeros_top n l).
Proof.
  intros Hl n.
  assert (H : exists r, 0 <= r < 32 /\ clz_top n l = 32 * Z.of_nat (zeros_top n l) + r).
  { induction n as [|n (r & Hr & IH)]; simpl clz_top; simpl zeros_top.
    - exists 0. lia.
    - pose proof (limb_range l (Z.of_nat n) Hl).
      destruct (Z.eqb_spec (limb l (Z.of_nat n)) 0) as [E|E].
      + exists r. lia.
      + pose proof (builtin_clz_range (limb l (Z.of_nat n))).
        exists (builtin_clz (limb l (Z.of_nat n))). lia. }
  destruct H as (r & Hr & ->).
  rewrite Z.quot_div_nonneg by lia.
  symmetry. apply (Z.div_unique _ 32 _ r); lia.
Qed.

Lemma length_trim_zeros l : (1 <= length l)%nat ->
  (1 <= length (trim_zeros l) <= length l)%nat.
Proof.
  intros H. unfold trim_zeros. pose proof (zeros_top_spec l (length l)) as (Z1 & _).
  rewrite length_take. destruct (decide (zeros_top (length l) l = length l)); lia.
Qed.

Lemma trim_zeros_value l : value (trim_zeros l) = value l.
Proof.
  unfold trim_zeros. pose proof (zeros_top_spec l (length l)) as (Z1 & Z2 & _).
  apply value_take_zeros. intros j Hj.
  destruct (decide (j < Z.of_nat (length l))) as [Hlt|Hge]; [| apply limb_ge; lia].
  apply Z2. destruct (decide (zeros_top (length l) l = length l)); lia.
Qed.

Lemma trim_zeros_normalized l : (1 <= length l)%nat -> normalized (trim_zeros l).
Proof.
  intros Hn. pose proof (length_trim_zeros l Hn) as Hlen. unfold trim_zeros in *.
  pose proof (zeros_top_spec l (length l)) as (Z1 & _ & Z3).
  set (d := zeros_top (length l) l) in *.
  destruct (decide (d = length l)) as [E|E].
  - left. rewrite length_take. lia.
  - right. rewrite length_take in Hlen.
    rewrite length_take. rewrite limb_take by lia.
    replace (Z.of_nat ((length l - d) `min` length l) - 1)
      with (Z.of_nat (length l) - Z.of_nat d - 1) by lia.
    apply Z3. lia.
Qed.

(** ** The sum and the difference *)

Lemma limb_range_all l : limbs_ok l -> forall j, 0 <= limb l j < 2 ^ 32.
Proof. intros H j. apply limb_range. exact H. Qed.

Lemma add_digits_fits la lb :
  limbs_ok la -> limbs_ok lb ->
  let mx := Z.max (bitlen (value la)) (bitlen (value lb)) in
  0 <= mx /\ 32 * (add_digits la lb - 1) <= mx < 32 * add_digits la lb.
Proof.
  intros Ha Hb mx.
  pose proof (bitlen_value_range la Ha). pose proof (bitlen_value_range lb Hb).
  unfold add_digits. fold mx.
  pose proof (Z.div_mod (mx + 32) 32 ltac:(lia)).
  pose proof (Z.mod_pos_bound (mx + 32) 32 ltac:(lia)). lia.
Qed.

Lemma add_limbs_sum la lb :
  limbs_ok la -> limbs_ok lb ->
  let n := Z.to_nat (add_digits la lb) in
  limbs_ok (add_limbs n la lb) /\ value (add_limbs n la lb) = value la + value lb.
Proof.
  intros Ha Hb n.
  destruct (limbs_out_value 1 add_step add_step_law n (limb la) (limb lb) 0 0
              (limb_range_all la Ha) (limb_range_all lb Hb) ltac:(lia)) as (Hok & Hc & Hv).
  fold (add_limbs n la lb) in *. split; [exact Hok |].
  destruct (add_digits_fits la lb Ha Hb) as (Hmx & Hlo & Hhi).
  set (mx := Z.max (bitlen (value la)) (bitlen (value lb))) in *.
  pose proof (value_range la Ha) as [A0 _]. pose proof (value_range lb Hb) as [B0 _].
  destruct (bitlen_spec _ A0) as (_ & A1 & _). destruct (bitlen_spec _ B0) as (_ & B1 & _).
  pose proof (bitlen_value_range la Ha). pose proof (bitlen_value_range lb Hb).
  assert (PA : 2 ^ bitlen (value la) <= 2 ^ mx) by (apply Z.pow_le_mono_r; lia).
  assert (PB : 2 ^ bitlen (value lb) <= 2 ^ mx) by (apply Z.pow_le_mono_r; lia).
  assert (PM : 2 ^ (mx + 1) <= 2 ^ (32 * Z.of_nat n)) by (apply Z.pow_le_mono_r; lia).
  rewrite Z.pow_add_r in PM by lia. change (2 ^ 1) with 2 in PM.
  rewrite !weigh_take in Hv.
  rewrite (value_take_fits la n Ha) in Hv by lia.
  rewrite (value_take_fits lb n Hb) in Hv by lia.
  pose proof (value_range _ Hok) as Hr.
  unfold add_limbs in Hr. rewrite length_limbs_out in Hr. fold (add_limbs n la lb) in Hr.
  set (P := 2 ^ (32 * Z.of_nat n)) in *. set (C := carry_out _ _ _ _ _ _) in *.
  assert (C = 0) by nia. subst C. lia.
Qed.

Lemma add_limbs_top la lb :
  limbs_ok la -> limbs_ok lb -> 2 <= add_digits la lb ->
  2 ^ (32 * (add_digits la lb - 2)) <= value la + value lb.
Proof.
  intros Ha Hb Hd.
  destruct (add_digits_fits la lb Ha Hb) as (Hmx & Hlo & Hhi).
  set (mx := Z.max (bitlen (value la)) (bitlen (value lb))) in *.
  pose proof (value_range la Ha) as [A0 _]. pose proof (value_range lb Hb) as [B0 _].
  assert (Hb1 : forall v, 0 <= v -> 1 <= bitlen v -> 2 ^ (bitlen v - 1) <= v).
  { intros v Hv H1. destruct (bitlen_spec v Hv) as (_ & _ & H). apply H.
    destruct (decide (v = 0)) as [->|]; [| lia]. unfold bitlen in H1. simpl in H1. lia. }
  assert (PM : 2 ^ (32 * (add_digits la lb - 2)) <= 2 ^ (mx - 1))
    by (apply Z.pow_le_mono_r; lia).
  destruct (Z.max_spec (bitlen (value la)) (bitlen (value lb))) as [[_ E]|[_ E]];
    fold mx in E.
  - specialize (Hb1 (value lb) B0 ltac:(lia)). rewrite <- E in Hb1. lia.
  - specialize (Hb1 (value la) A0 ltac:(lia)). rewrite <- E in Hb1. lia.
Qed.

Lemma sub_limbs_ok la lb n :
  limbs_ok la -> limbs_ok lb -> limbs_ok (sub_limbs n la lb).
Proof.
  intros Ha Hb.
  destruct (limbs_out_value (-1) sub_step sub_step_law n (limb la) (limb lb) 0 0
              (limb_range_all la Ha) (limb_range_all lb Hb) ltac:(lia)) as (Hok & _).
  exact Hok.
Qed.

Lemma sub_limbs_difference la lb :
  limbs_ok la -> limbs_ok lb -> value lb <= value la ->
  let n := (length la `max` length lb)%nat in
  value (sub_limbs n la lb) = value la - value lb.
Proof.
  intros Ha Hb Hle n.
  destruct (limbs_out_value (-1) sub_step sub_step_law n (limb la) (limb lb) 0 0
              (limb_range_all la Ha) (limb_range_all lb Hb) ltac:(lia)) as (Hok & Hc & Hv).
  fold (sub_limbs n la lb) in *.
  rewrite !weigh_take in Hv.
  rewrite (take_ge la) in Hv by lia. rewrite (take_ge lb) in Hv by lia.
  pose proof (value_range _ Hok) as Hr.
  unfold sub_limbs in Hr. rewrite length_limbs_out in Hr. fold (sub_limbs n la lb) in Hr.
  set (P := 2 ^ (32 * Z.of_nat n)) in *. set (C := carry_out _ _ _ _ _ _) in *.
  assert (C = 0) by nia. subst C. lia.
Qed.

(** ** [bn_do_sub] *)

Section Subtraction.

Variable ok : Z -> bool.
Variable stale : Z -> Z.
Hypothesis granted : forall n, ok n = true.

(** Lines 138-155 on a destination of [n >= 1] limbs. *)
Lemma bn_do_sub_borrow_owns m a qa la ga b qb lb gb c qc cur gc :
  owns m a qa la ga -> owns m b qb lb gb -> owns m c qc cur gc ->
  limbs_ok la -> limbs_ok lb ->
  (1 <= length cur)%nat -> Z.of_nat (length cur) < 2 ^ 26 ->
  let r := trim_zeros (sub_limbs (length cur) la lb) in
  bn_do_sub_borrow ok stale (Some a) (Some b) (Some c) m =
    Some (tt, Mem (<[c := Bn (Some qc) (Z.of_nat (length r)) gc]> (structs m))
                  (<[qc := r]> (bufs m))).
Proof.
  intros Ha Hb Hc Hla Hlb Hn Hsz r. unfold bn_do_sub_borrow.
  run_deref Hc. cbn [number size sign].
  rewrite Nat2Z.id.
  erewrite bind_Some; cycle 1.
  { rewrite bn_do_sub_loop_limb_loop.
    apply (limb_loop_owns sub_step a b c qa qb qc ga gb gc (length cur) 0%nat 0 m la lb cur
             Ha Hb Hc); simpl; lia. }
  rewrite take_0, app_nil_l. fold (sub_limbs (length cur) la lb).
  set (outs := sub_limbs (length cur) la lb) in *.
  assert (Hlen : length outs = length cur) by apply length_limbs_out.
  assert (Hok : limbs_ok outs) by (apply sub_limbs_ok; assumption).
  set (m1 := Mem (structs m) (<[qc := outs]> (bufs m))).
  assert (Hc1 : owns m1 c qc outs gc).
  { destruct Hc as [Hcs Hcq]. split; cbn [structs bufs].
    - rewrite Hlen. exact Hcs.
    - apply lookup_insert_eq. }
  run (bn_clz_owns _ _ _ _ _ Hc1 Hok ltac:(lia)).
  run_deref Hc1. cbn [number size sign].
  rewrite clz_top_zeros by exact Hok.
  pose proof (zeros_top_spec outs (length outs)) as (Z1 & _).
  pose proof (length_trim_zeros outs ltac:(lia)) as Hlr. fold r in Hlr.
  assert (Hr : r = take (length outs
                          - (if decide (zeros_top (length outs) outs = length outs)
                             then zeros_top (length outs) outs - 1
                             else zeros_top (length outs) outs)) outs) by reflexivity.
  set (d := zeros_top (length outs) outs) in *.
  rewrite (u32_small (Z.of_nat d)) by lia.
  assert (Hd : (if Z.of_nat d =? Z.of_nat (length outs)
                then s32 (Z.of_nat d - 1) else Z.of_nat d)
               = Z.of_nat (if decide (d = length outs) then d - 1 else d)%nat).
  { destruct (Z.eqb_spec (Z.of_nat d) (Z.of_nat (length outs))) as [E|E];
      destruct (decide (d = length outs)) as [E'|E']; try lia.
    rewrite s32_small by lia. lia. }
  rewrite Hd. set (d' := if decide (d = length outs) then (d - 1)%nat else d) in *.
  assert (Hd' : (d' < length outs)%nat).
  { unfold d'. destruct (decide (d = length outs)); lia. }
  rewrite u32_small by lia.
  erewrite bind_Some
    by (apply (bn_resize_owns ok stale _ _ _ _ _ _ Hc1); [lia | apply granted]).
  unfold ret, m1. cbn [structs bufs]. rewrite insert_insert_eq.
  replace (Z.to_nat (Z.of_nat (length outs) - Z.of_nat d')) with (length outs - d')%nat by lia.
  rewrite resize_le by lia. rewrite <- Hr.
  replace (Z.of_nat (length outs) - Z.of_nat d') with (Z.of_nat (length r)); [reflexivity |].
  rewrite Hr, length_take. lia.
Qed.

(** [bn_do_sub] altogether, on operands of which one has a limb. *)
Lemma bn_do_sub_owns m a qa la ga b qb lb gb c qc lc gc :
  owns m a qa la ga -> owns m b qb lb gb -> owns m c qc lc gc ->
  (a = c \/ qa <> qc) -> (b = c \/ qb <> qc) ->
  limbs_ok la -> limbs_ok lb ->
  Z.of_nat (length la) < 2 ^ 25 -> Z.of_nat (length lb) < 2 ^ 25 ->
  (1 <= length la `max` length lb)%nat ->
  let r := trim_zeros (sub_limbs (length la `max` length lb) la lb) in
  bn_do_sub ok stale (Some a) (Some b) (Some c) m =
    Some (tt, Mem (<[c := Bn (Some qc) (Z.of_nat (length r)) gc]> (structs m))
                  (<[qc := r]> (bufs m))).
Proof.
  intros Ha Hb Hc Sa Sb Hla Hlb La Lb Hn r. unfold bn_do_sub.
  run_deref Ha.
  run_deref Hb. cbn [number size sign].
  set (n := (length la `max` length lb)%nat) in *.
  replace (Z.of_nat (length la) `max` Z.of_nat (length lb)) with (Z.of_nat n) by lia.
  rewrite s32_small by lia. rewrite u64_small by lia.
  erewrite bind_Some
    by (apply (bn_resize_owns ok stale _ _ _ _ _ _ Hc); [lia | apply granted]).
  rewrite Nat2Z.id.
  destruct (owns_resize_frame _ _ _ _ _ _ _ _ _ n Ha Hc Sa) as (la' & Ha' & Hla' & Oa).
  destruct (owns_resize_frame _ _ _ _ _ _ _ _ _ n Hb Hc Sb) as (lb' & Hb' & Hlb' & Ob).
  pose proof (owns_resized m c qc lc gc n) as Hc'.
  rewrite (bn_do_sub_borrow_owns _ _ _ _ _ _ _ _ _ _ _ _ _ Ha' Hb' Hc' (Oa Hla) (Ob Hlb))
    by (rewrite length_resize; lia).
  cbn [structs bufs]. rewrite !insert_insert_eq, length_resize.
  assert (E : sub_limbs n la' lb' = sub_limbs n la lb).
  { apply limbs_out_ext; intros j Hj; [apply Hla' | apply Hlb']; lia. }
  rewrite E. reflexivity.
Qed.

End Subtraction.

(** ** [bn_cmp] and [bn_swap] *)

Lemma bn_cmp_loop_owns m a qa la ga b qb lb gb :
  owns m a qa la ga -> owns m b qb lb gb ->
  forall n, (n <= length la)%nat -> (n <= length lb)%nat ->
  bn_cmp_loop n (Some a) (Some b) m = Some (cmp_top n la lb, m).
Proof.
  intros Ha Hb. induction n as [|n IH]; intros H1 H2; simpl; [reflexivity |].
  destruct (lookup_lt_is_Some_2 la n) as [x Hx]; [lia |].
  destruct (lookup_lt_is_Some_2 lb n) as [y Hy]; [lia |].
  run_deref Ha.
  run_deref Hb. cbn [number].
  run (load_owns _ _ _ _ _ _ _ Ha Hx).
  run (load_owns _ _ _ _ _ _ _ Hb Hy).
  rewrite (limb_lookup _ _ _ Hx), (limb_lookup _ _ _ Hy).
  destruct (negb (x =? y)); [reflexivity |]. apply IH; lia.
Qed.

Lemma bn_cmp_owns m a qa la ga b qb lb gb :
  owns m a qa la ga -> owns m b qb lb gb -> Z.of_nat (length la) < 2 ^ 31 ->
  bn_cmp (Some a) (Some b) m = Some (cmp_limbs la lb, m).
Proof.
  intros Ha Hb La. unfold bn_cmp, cmp_limbs.
  run_deref Ha.
  run_deref Hb. cbn [size].
  destruct (Z.eqb_spec (Z.of_nat (length la)) (Z.of_nat (length lb))) as [E|E];
    cbn [negb]; [| reflexivity].
  rewrite s32_small by lia.
  replace (Z.to_nat (Z.of_nat (length la) - 1 + 1)) with (length la) by lia.
  apply (bn_cmp_loop_owns _ _ _ _ _ _ _ _ _ Ha Hb); lia.
Qed.

Lemma cmp_top_refl l : forall n, cmp_top n l l = 0.
Proof.
  induction n as [|n IH]; simpl; [reflexivity |].
  rewrite Z.eqb_refl. exact IH.
Qed.

Lemma cmp_limbs_refl l : cmp_limbs l l = 0.
Proof. unfold cmp_limbs. rewrite Z.eqb_refl. apply cmp_top_refl. Qed.

Lemma bn_swap_owns m a qa la ga b qb lb gb :
  owns m a qa la ga -> owns m b qb lb gb ->
  bn_swap (Some a) (Some b) m =
    Some (tt, Mem (<[b := Bn (Some qa) (Z.of_nat (length la)) ga]>
                     (<[a := Bn (Some qb) (Z.of_nat (length lb)) gb]> (structs m)))
                  (bufs m)).
Proof.
  intros Ha Hb. unfold bn_swap.
  run_deref Ha.
  run_deref Hb.
  destruct Ha as [Hsa _], Hb as [Hsb _].
  unfold bind, assign. rewrite Hsa. cbn [structs bufs].
  destruct (decide (a = b)) as [->|Hne].
  - rewrite lookup_insert_eq. reflexivity.
  - rewrite lookup_insert_ne by congruence. rewrite Hsb. reflexivity.
Qed.

(** Swapping two [bn] objects hands each array to the other object. *)
Lemma exclusive_swap m a sa b sb :
  exclusive m -> structs m !! a = Some sa -> structs m !! b = Some sb ->
  exclusive (Mem (<[b := sa]> (<[a := sb]> (structs m))) (bufs m)).
Proof.
  intros Hx Hsa Hsb p p' s s' q. cbn [structs].
  rewrite !lookup_insert. intros H1 H2 N1 N2.
  repeat case_decide; simplify_eq; try reflexivity;
    repeat match goal with
      | H : structs m !! ?x = Some ?sx, H' : structs m !! ?y = Some ?sy,
        N : number ?sx = Some q, N' : number ?sy = Some q |- _ =>
          lazymatch goal with
          | _ : x = y |- _ => fail
          | _ => assert (x = y) by exact (Hx _ _ _ _ q H H' N N')
          end
      end; congruence.
Qed.

Lemma owns_view m p q l g :
  owns m p q l g -> view m (Some p) = Some (l, Z.of_nat (length l), g).
Proof. intros [Hs Hq]. unfold view. rewrite Hs. cbn [number]. rewrite Hq. reflexivity. Qed.

Lemma view_owns m p l g :
  view m (Some p) = Some (l, Z.of_nat (length l), g) -> exists q, owns m p q l g.
Proof.
  unfold view. destruct (structs m !! p) as [[[q|] n g']|] eqn:Hs; cbn [number]; [| discriminate..].
  destruct (bufs m !! q) as [l'|] eqn:Hq; [| discriminate].
  intros H. injection H as -> -> ->. exists q. split; assumption.
Qed.

(** ** [bn_add] *)

Section Addition.

Variable ok : Z -> bool.
Variable stale : Z -> Z.
Hypothesis granted : forall n, ok n = true.

(** Lines 169-183, once the operands are in place. *)
Lemma bn_add_signed_owns m a qa la ga b qb lb gb c qc lc gc :
  exclusive m ->
  owns m a qa la ga -> owns m b qb lb gb -> owns m c qc lc gc ->
  limbs_ok la -> limbs_ok lb ->
  (1 <= length la)%nat -> (1 <= length lb)%nat ->
  Z.of_nat (length la) < 2 ^ 25 -> Z.of_nat (length lb) < 2 ^ 25 ->
  exists m',
    (cmp <- bn_cmp (Some a) (Some b) ;;
     if 0 <? cmp then
       bn_do_sub ok stale (Some a) (Some b) (Some c) ;;;
       set_sign (Some c) 0
     else if cmp <? 0 then
       bn_do_sub ok stale (Some b) (Some a) (Some c) ;;;
       set_sign (Some c) 1
     else
       bn_resize ok stale (Some c) 1 ;;;
       sc <- deref (Some c) ;;
       store (number sc) 0 0 ;;;
       set_sign (Some c) 0) m = Some (tt, m')
    /\ owns m' c qc (signed_result la lb).1 (signed_result la lb).2.
Proof.
  intros Hx Ha Hb Hc Hla Hlb Na Nb La Lb.
  pose proof (exclusive_owns _ _ _ _ _ _ _ _ _ Hx Ha Hc) as Sa.
  pose proof (exclusive_owns _ _ _ _ _ _ _ _ _ Hx Hb Hc) as Sb.
  run (bn_cmp_owns _ _ _ _ _ _ _ _ _ Ha Hb ltac:(lia)).
  unfold signed_result.
  destruct (0 <? cmp_limbs la lb); [| destruct (cmp_limbs la lb <? 0)]; cbn [fst snd].
  - run
      (bn_do_sub_owns ok stale granted _ _ _ _ _ _ _ _ _ _ _ _ _ Ha Hb Hc Sa Sb Hla Hlb La Lb
         ltac:(lia)).
    erewrite set_sign_live by (cbn [structs]; apply lookup_insert_eq).
    eexists. split; [reflexivity |].
    cbn [structs bufs number size sign]. rewrite insert_insert_eq.
    split; cbn [structs bufs]; apply lookup_insert_eq.
  - rewrite (Nat.max_comm (length la) (length lb)).
    run
      (bn_do_sub_owns ok stale granted _ _ _ _ _ _ _ _ _ _ _ _ _ Hb Ha Hc Sb Sa Hlb Hla Lb La
         ltac:(lia)).
    erewrite set_sign_live by (cbn [structs]; apply lookup_insert_eq).
    eexists. split; [reflexivity |].
    cbn [structs bufs number size sign]. rewrite insert_insert_eq.
    split; cbn [structs bufs]; apply lookup_insert_eq.
  - erewrite bind_Some
      by (apply (bn_resize_owns ok stale _ _ _ _ _ _ Hc); [lia | apply granted]).
    change (Z.to_nat 1) with 1%nat.
    pose proof (owns_resized m c qc lc gc 1) as Hc1. change (Z.of_nat 1) with 1 in Hc1.
    run_deref Hc1. cbn [number].
    erewrite bind_Some
      by (apply store_live; [apply Hc1 | rewrite length_resize; lia]).
    erewrite set_sign_live by (cbn [structs]; apply lookup_insert_eq).
    eexists. split; [reflexivity |].
    cbn [structs bufs number size sign]. rewrite !insert_insert_eq.
    assert (E : <[Z.to_nat 0 := 0]> (resize 1 0 lc) = [0]).
    { destruct lc as [|z lc]; cbn; [reflexivity |]. rewrite resize_0. reflexivity. }
    rewrite E. split; cbn [structs bufs]; apply lookup_insert_eq.
Qed.

(** [bn_add] on any three live [bn] objects, aliased or not: it returns,
    and the destination holds [add_result]. *)
Lemma bn_add_owns m a qa la ga b qb lb gb c qc lc gc :
  exclusive m ->
  owns m a qa la ga -> owns m b qb lb gb -> owns m c qc lc gc ->
  limbs_ok la -> limbs_ok lb ->
  (1 <= length la)%nat -> (1 <= length lb)%nat ->
  Z.of_nat (length la) < 2 ^ 25 -> Z.of_nat (length lb) < 2 ^ 25 ->
  exists m' q,
    bn_add ok stale (Some a) (Some b) (Some c) m = Some (tt, m')
    /\ owns m' c q (add_result la ga lb gb).1 (add_result la ga lb gb).2.
Proof.
  intros Hx Ha Hb Hc Hla Hlb Na Nb La Lb. unfold bn_add, add_result.
  run_deref Ha.
  run_deref Hb. cbn [sign].
  destruct (Z.eqb_spec ga gb) as [E|E].
  - pose proof (exclusive_owns _ _ _ _ _ _ _ _ _ Hx Ha Hc) as Sa.
    pose proof (exclusive_owns _ _ _ _ _ _ _ _ _ Hx Hb Hc) as Sb.
    run
      (bn_do_add_owns ok stale granted _ _ _ _ _ _ _ _ _ _ _ _ _ Ha Hb Hc Sa Sb Hla Hlb La Lb).
    set (r := trim_top _).
    set (m1 := Mem (<[c := Bn (Some qc) (Z.of_nat (length r)) gc]> (structs m))
                   (<[qc := r]> (bufs m))).
    assert (Hsa : exists sa, structs m1 !! a = Some sa /\ sign sa = ga).
    { destruct (decide (a = c)) as [->|Hne].
      - exists (Bn (Some qc) (Z.of_nat (length r)) gc). split.
        + apply lookup_insert_eq.
        + destruct Ha as [Hs _], Hc as [Hcs _]. rewrite Hs in Hcs. cbn. congruence.
      - exists (Bn (Some qa) (Z.of_nat (length la)) ga). split; [| reflexivity].
        cbn [m1 structs]. rewrite lookup_insert_ne by congruence. apply Ha. }
    destruct Hsa as (sa & Hsa & Hg).
    assert (Hda : deref (Some a) m1 = Some (sa, m1)) by (unfold deref; rewrite Hsa; reflexivity).
    run Hda. rewrite Hg.
    erewrite set_sign_live by (cbn [m1 structs]; apply lookup_insert_eq).
    eexists. exists qc. split; [reflexivity |].
    cbn [m1 structs bufs number size sign fst snd]. rewrite insert_insert_eq.
    split; cbn [structs bufs]; apply lookup_insert_eq.
  - assert (Hab : a <> b).
    { intros ->. destruct Ha as [Hs _], Hb as [Hs' _]. rewrite Hs in Hs'. congruence. }
    destruct (Z.eqb_spec ga 0) as [E0|E0]; cbn [negb].
    + unfold ret at 1. unfold bind at 1.
      destruct (bn_add_signed_owns m a qa la ga b qb lb gb c qc lc gc
                  Hx Ha Hb Hc Hla Hlb Na Nb La Lb) as (m' & Hm' & Ho).
      exists m', qc. split; assumption.
    + run (bn_swap_owns _ _ _ _ _ _ _ _ _ Ha Hb).
      set (ms := Mem _ (bufs m)).
      assert (Hxs : exclusive ms)
        by (apply (exclusive_swap m a _ b _ Hx); [apply Ha | apply Hb]).
      assert (Has : owns ms a qb lb gb).
      { split; cbn [ms structs bufs]; [| apply Hb].
        rewrite lookup_insert_ne by congruence. apply lookup_insert_eq. }
      assert (Hbs : owns ms b qa la ga).
      { split; cbn [ms structs bufs]; [| apply Ha]. apply lookup_insert_eq. }
      assert (Hcs : exists qc' lc' gc', owns ms c qc' lc' gc').
      { destruct (decide (c = a)) as [->|Hca]; [eauto |].
        destruct (decide (c = b)) as [->|Hcb]; [eauto |].
        exists qc, lc, gc. split; cbn [ms structs bufs]; [| apply Hc].
        rewrite !lookup_insert_ne by congruence. apply Hc. }
      destruct Hcs as (qc' & lc' & gc' & Hcs).
      destruct (bn_add_signed_owns ms a qb lb gb b qa la ga c qc' lc' gc'
                  Hxs Has Hbs Hcs Hlb Hla Nb Na Lb La) as (m' & Hm' & Ho).
      exists m', qc'. split; assumption.
Qed.

End Addition.

(** ** Exclusive ownership, checked *)

Lemma exclusiveb_sound m : exclusiveb m = true -> exclusive m.
Proof.
  intros H p p' s s' q Hs Hs' N N'. unfold exclusiveb in H.
  rewrite forallb_forall in H.
  assert (I1 : In (p, s) (map_to_list (structs m)))
    by (apply list_elem_of_In, elem_of_map_to_list; exact Hs).
  assert (I2 : In (p', s') (map_to_list (structs m)))
    by (apply list_elem_of_In, elem_of_map_to_list; exact Hs').
  specialize (H _ I1). rewrite forallb_forall in H. specialize (H _ I2).
  cbn [fst snd] in H. rewrite N, N' in H.
  destruct (decide (q = q)) as [_|Hne]; [| congruence].
  apply bool_decide_eq_true in H. exact H.
Qed.

Lemma exclusive_heap3 la ga lb gb lc gc : exclusive (heap3 la ga lb gb lc gc).
Proof. apply exclusiveb_sound. reflexivity. Qed.

(** ** What [bn_add] leaves behind *)

Lemma normalized_length l : normalized l -> (1 <= length l)%nat.
Proof.
  intros [H|H]; [lia |]. destruct l; [| simpl; lia].
  exfalso. apply H. reflexivity.
Qed.

Lemma add_sum_normalized la lb :
  limbs_ok la -> limbs_ok lb ->
  normalized (trim_top (add_limbs (Z.to_nat (add_digits la lb)) la lb)).
Proof.
  intros Ha Hb.
  destruct (add_limbs_sum la lb Ha Hb) as [Hok Hv].
  destruct (add_digits_fits la lb Ha Hb) as (Hmx & Hlo & Hhi).
  assert (Hlen : length (add_limbs (Z.to_nat (add_digits la lb)) la lb)
                 = Z.to_nat (add_digits la lb)) by apply length_limbs_out.
  apply trim_top_normalized; [exact Hok | lia |].
  intros H2. rewrite Hv, Hlen.
  replace (Z.of_nat (Z.to_nat (add_digits la lb))) with (add_digits la lb) by lia.
  apply add_limbs_top; [assumption.. | lia].
Qed.

Lemma signed_result_normalized la lb :
  (1 <= length la)%nat -> normalized (signed_result la lb).1.
Proof.
  intros Hn. unfold signed_result.
  destruct (0 <? cmp_limbs la lb); [| destruct (cmp_limbs la lb <? 0)]; cbn [fst].
  - apply trim_zeros_normalized. unfold sub_limbs. rewrite length_limbs_out. lia.
  - apply trim_zeros_normalized. unfold sub_limbs. rewrite length_limbs_out. lia.
  - left. reflexivity.
Qed.

Lemma add_result_normalized la ga lb gb :
  limbs_ok la -> limbs_ok lb -> (1 <= length la)%nat -> (1 <= length lb)%nat ->
  normalized (add_result la ga lb gb).1.
Proof.
  intros Ha Hb Na Nb. unfold add_result.
  destruct (ga =? gb); [apply add_sum_normalized; assumption |].
  destruct (negb (ga =? 0)); apply signed_result_normalized; assumption.
Qed.

Lemma trim_zeros_limbs_ok l : limbs_ok l -> limbs_ok (trim_zeros l).
Proof. intros H. unfold trim_zeros. apply limbs_ok_take. exact H. Qed.

Lemma signed_result_limbs_ok la lb :
  limbs_ok la -> limbs_ok lb -> limbs_ok (signed_result la lb).1.
Proof.
  intros Ha Hb. unfold signed_result.
  destruct (0 <? cmp_limbs la lb); [| destruct (cmp_limbs la lb <? 0)]; cbn [fst].
  - apply trim_zeros_limbs_ok, sub_limbs_ok; assumption.
  - apply trim_zeros_limbs_ok, sub_limbs_ok; assumption.
  - repeat constructor; lia.
Qed.

Lemma add_result_limbs_ok la ga lb gb :
  limbs_ok la -> limbs_ok lb -> limbs_ok (add_result la ga lb gb).1.
Proof.
  intros Ha Hb. unfold add_result. destruct (ga =? gb).
  - apply trim_top_limbs_ok. apply (add_limbs_sum la lb Ha Hb).
  - destruct (negb (ga =? 0)); apply signed_result_limbs_ok; assumption.
Qed.

(** A normalized magnitude that is zero is the one limb [0]. *)
Lemma normalized_zero l : limbs_ok l -> normalized l -> value l = 0 -> l = [0].
Proof.
  intros Hl Hn Hv. pose proof (normalized_length l Hn) as Hlen.
  destruct Hn as [H1|Hne].
  - destruct l as [|y [|? ?]]; try discriminate. simpl in Hv. f_equal. lia.
  - exfalso.
    destruct (length l) as [|k] eqn:E; [lia |].
    replace (Z.of_nat (S k) - 1) with (Z.of_nat k) in Hne by lia.
    destruct (lookup_lt_is_Some_2 l k) as [x Hy]; [lia |].
    rewrite (limb_lookup _ _ _ Hy) in Hne.
    assert (Hxr : 0 <= x < 2 ^ 32).
    { unfold limbs_ok in Hl. rewrite Forall_lookup in Hl. exact (Hl _ _ Hy). }
    rewrite <- (take_drop k l) in Hv. rewrite value_app in Hv.
    pose proof (value_range _ (limbs_ok_take l k Hl)) as [T0 _].
    rewrite (drop_S _ _ _ Hy) in Hv. rewrite drop_ge in Hv by lia. simpl in Hv.
    assert (0 < 2 ^ (32 * Z.of_nat (length (take k l)))) by (apply Z.pow_pos_nonneg; lia).
    nia.
Qed.

(** ** Normalized magnitudes are unique *)

Lemma value_top_lower l k :
  limbs_ok l -> length l = S k -> limb l (Z.of_nat k) <> 0 ->
  2 ^ (32 * Z.of_nat k) <= value l.
Proof.
  intros Hl Hlen Hne.
  destruct (lookup_lt_is_Some_2 l k) as [x Hx]; [lia |].
  rewrite (limb_lookup _ _ _ Hx) in Hne.
  assert (Hxr : 0 <= x < 2 ^ 32).
  { unfold limbs_ok in Hl. rewrite Forall_lookup in Hl. exact (Hl _ _ Hx). }
  rewrite <- (take_drop k l), value_app.
  rewrite (drop_S _ _ _ Hx), drop_ge by lia. simpl.
  pose proof (value_range _ (limbs_ok_take l k Hl)) as [T0 _].
  rewrite length_take. replace (k `min` length l)%nat with k by lia.
  assert (0 < 2 ^ (32 * Z.of_nat k)) by (apply Z.pow_pos_nonneg; lia).
  nia.
Qed.

Lemma normalized_lower l :
  limbs_ok l -> normalized l -> 0 < value l ->
  2 ^ (32 * (Z.of_nat (length l) - 1)) <= value l.
Proof.
  intros Hl [H1|Hne] Hv.
  - rewrite H1. simpl. lia.
  - destruct (length l) as [|k] eqn:E.
    + destruct l; [simpl in Hv; lia | discriminate].
    + replace (Z.of_nat (S k) - 1) with (Z.of_nat k) in * by lia.
      apply value_top_lower; assumption.
Qed.

Lemma value_inj l1 : forall l2,
  limbs_ok l1 -> limbs_ok l2 -> length l1 = length l2 -> value l1 = value l2 ->
  l1 = l2.
Proof.
  induction l1 as [|x l1 IH]; intros [|y l2] H1 H2 Hlen Hv; try discriminate.
  - reflexivity.
  - apply Forall_cons in H1 as [Hx H1]. apply Forall_cons in H2 as [Hy H2].
    simpl in Hv. fold (value l1) in Hv. fold (value l2) in Hv.
    assert (x = y /\ value l1 = value l2) as [-> Hv'] by lia.
    f_equal. apply IH; [assumption.. | | exact Hv']. simpl in Hlen. lia.
Qed.

Lemma normalized_unique l1 l2 :
  limbs_ok l1 -> limbs_ok l2 -> normalized l1 -> normalized l2 ->
  value l1 = value l2 -> l1 = l2.
Proof.
  intros H1 H2 N1 N2 Hv.
  pose proof (value_range l1 H1) as [V0 U1]. pose proof (value_range l2 H2) as [_ U2].
  destruct (decide (value l1 = 0)) as [E|E].
  - rewrite (normalized_zero l1 H1 N1 E).
    rewrite (normalized_zero l2 H2 N2) by lia. reflexivity.
  - pose proof (normalized_lower l1 H1 N1 ltac:(lia)) as L1.
    pose proof (normalized_lower l2 H2 N2 ltac:(lia)) as L2.
    pose proof (normalized_length l1 N1). pose proof (normalized_length l2 N2).
    apply value_inj; [assumption.. | | exact Hv].
    assert (A : 32 * (Z.of_nat (length l1) - 1) < 32 * Z.of_nat (length l2))
      by (apply (Z.pow_lt_mono_r_iff 2); lia).
    assert (B : 32 * (Z.of_nat (length l2) - 1) < 32 * Z.of_nat (length l1))
      by (apply (Z.pow_lt_mono_r_iff 2); lia).
    lia.
Qed.

(** ** The order [bn_cmp] computes *)

Lemma weigh_snoc n : forall xa i,
  weigh (S n) xa i = weigh n xa i + 2 ^ (32 * Z.of_nat n) * xa (i + Z.of_nat n).
Proof.
  induction n as [|n IH]; intros xa i.
  - cbn [weigh]. replace (i + Z.of_nat 0) with i by lia.
    change (32 * Z.of_nat 0) with 0. change (2 ^ 0) with 1. lia.
  - change (weigh (S (S n)) xa i) with (xa i + 2 ^ 32 * weigh (S n) xa (i + 1)).
    rewrite IH. change (weigh (S n) xa i) with (xa i + 2 ^ 32 * weigh n xa (i + 1)).
    replace (32 * Z.of_nat (S n)) with (32 + 32 * Z.of_nat n) by lia.
    rewrite Z.pow_add_r by lia.
    replace (i + 1 + Z.of_nat n) with (i + Z.of_nat (S n)) by lia. ring.
Qed.

(** On the low [n] limbs [cmp_top] answers [1] for the smaller first
    operand, [-1] for the larger, [0] for equal ones. *)
Lemma cmp_top_order la lb : limbs_ok la -> limbs_ok lb -> forall n,
  (cmp_top n la lb = 1 /\ weigh n (limb la) 0 < weigh n (limb lb) 0)
  \/ (cmp_top n la lb = -1 /\ weigh n (limb lb) 0 < weigh n (limb la) 0)
  \/ (cmp_top n la lb = 0 /\ weigh n (limb la) 0 = weigh n (limb lb) 0).
Proof.
  intros Ha Hb. induction n as [|n IH].
  - right. right. split; reflexivity.
  - rewrite !weigh_snoc. simpl cmp_top. rewrite !Z.add_0_l.
    pose proof (weigh_range n (limb la) 0 (limb_range_all la Ha)) as RA.
    pose proof (weigh_range n (limb lb) 0 (limb_range_all lb Hb)) as RB.
    pose proof (limb_range la (Z.of_nat n) Ha) as Rx.
    pose proof (limb_range lb (Z.of_nat n) Hb) as Ry.
    set (x := limb la (Z.of_nat n)) in *. set (y := limb lb (Z.of_nat n)) in *.
    set (A := weigh n (limb la) 0) in *. set (B := weigh n (limb lb) 0) in *.
    set (P := 2 ^ (32 * Z.of_nat n)) in *.
    destruct (Z.eqb_spec x y) as [E|E]; cbn [negb].
    + rewrite E. destruct IH as [[I1 I2]|[[I1 I2]|[I1 I2]]];
        [left | right; left | right; right]; split; try assumption; lia.
    + destruct (Z.ltb_spec x y) as [L|L].
      * left. split; [reflexivity |]. nia.
      * right. left. split; [reflexivity |]. nia.
Qed.

(** [bn_cmp] orders normalized magnitudes, the wrong way round: GREATER
    (as [bn_add] reads the answer) for the smaller first operand, LESS for
    the larger. *)
Lemma bn_cmp_reversed m a qa la ga b qb lb gb :
  owns m a qa la ga -> owns m b qb lb gb ->
  limbs_ok la -> limbs_ok lb -> normalized la -> normalized lb ->
  Z.of_nat (length la) < 2 ^ 31 ->
  exists r,
    bn_cmp (Some a) (Some b) m = Some (r, m)
    /\ (order_of_cmp r = GREATER <-> value la < value lb)
    /\ (order_of_cmp r = LESS <-> value lb < value la)
    /\ (order_of_cmp r = EQUAL <-> value la = value lb).
Proof.
  intros Ha Hb Hla Hlb Na Nb La.
  exists (cmp_limbs la lb). split; [apply (bn_cmp_owns _ _ _ _ _ _ _ _ _ Ha Hb La) |].
  assert (H : (cmp_limbs la lb = 1 /\ value la < value lb)
              \/ (cmp_limbs la lb = -1 /\ value lb < value la)
              \/ (cmp_limbs la lb = 0 /\ value la = value lb)).
  { unfold cmp_limbs.
    pose proof (normalized_length _ Na). pose proof (normalized_length _ Nb).
    pose proof (value_range la Hla) as [A0 A1]. pose proof (value_range lb Hlb) as [B0 B1].
    destruct (Z.eqb_spec (Z.of_nat (length la)) (Z.of_nat (length lb))) as [E|E]; cbn [negb].
    - pose proof (cmp_top_order la lb Hla Hlb (length la)) as Ho.
      rewrite !weigh_take in Ho. rewrite (take_ge la), (take_ge lb) in Ho by lia.
      exact Ho.
    - destruct (Z.ltb_spec (Z.of_nat (length la)) (Z.of_nat (length lb))) as [L|L].
      + left. split; [reflexivity |].
        assert (Hnb : limb lb (Z.of_nat (length lb) - 1) <> 0) by (destruct Nb; [lia | assumption]).
        destruct (length lb) as [|k] eqn:Ek; [lia |].
        replace (Z.of_nat (S k) - 1) with (Z.of_nat k) in Hnb by lia.
        pose proof (value_top_lower lb k Hlb Ek Hnb).
        assert (2 ^ (32 * Z.of_nat (length la)) <= 2 ^ (32 * Z.of_nat k))
          by (apply Z.pow_le_mono_r; lia).
        lia.
      + right. left. split; [reflexivity |].
        assert (Hna : limb la (Z.of_nat (length la) - 1) <> 0) by (destruct Na; [lia | assumption]).
        destruct (length la) as [|k] eqn:Ek; [lia |].
        replace (Z.of_nat (S k) - 1) with (Z.of_nat k) in Hna by lia.
        pose proof (value_top_lower la k Hla Ek Hna).
        assert (2 ^ (32 * Z.of_nat (length lb)) <= 2 ^ (32 * Z.of_nat k))
          by (apply Z.pow_le_mono_r; lia).
        lia. }
  unfold order_of_cmp.
  destruct H as [[-> H]|[[-> H]|[-> H]]]; cbn; repeat split; intros; try discriminate; lia.
Qed.

(** ** Adding zero to a non-negative number *)

Section Identity.

Variable ok : Z -> bool.
Variable stale : Z -> Z.
Hypothesis granted : forall n, ok n = true.

(** With both signs non-negative [bn_add] goes through [bn_do_add], and
    adding the canonical zero gives the other operand back. *)
Lemma bn_add_zero_nonneg m a b c la lc gc :
  exclusive m ->
  view m (Some a) = Some (la, Z.of_nat (length la), 0) ->
  view m (Some b) = Some ([0], 1, 0) ->
  view m (Some c) = Some (lc, Z.of_nat (length lc), gc) ->
  limbs_ok la -> normalized la -> Z.of_nat (length la) < 2 ^ 25 ->
  exists m',
    bn_add ok stale (Some a) (Some b) (Some c) m = Some (tt, m')
    /\ view m' (Some c) = Some (la, Z.of_nat (length la), 0).
Proof.
  intros Hx Va Vb Vc Hla Na La.
  destruct (view_owns _ _ _ _ Va) as [qa Ha].
  destruct (view_owns m b [0] 0 Vb) as [qb Hb].
  destruct (view_owns _ _ _ _ Vc) as [qc Hc].
  assert (H0 : limbs_ok [0]) by (repeat constructor; lia).
  pose proof (normalized_length _ Na) as Ia.
  destruct (bn_add_owns ok stale granted m a qa la 0 b qb [0] 0 c qc lc gc
              Hx Ha Hb Hc Hla H0 Ia ltac:(simpl; lia) La ltac:(simpl; lia))
    as (m' & q & Hm' & Ho).
  exists m'. split; [exact Hm' |].
  assert (E : add_result la 0 [0] 0 = (la, 0)).
  { unfold add_result. cbn [Z.eqb]. f_equal.
    apply normalized_unique.
    - apply trim_top_limbs_ok. apply (add_limbs_sum la [0] Hla H0).
    - exact Hla.
    - apply add_sum_normalized; assumption.
    - exact Na.
    - rewrite trim_top_value.
      destruct (add_limbs_sum la [0] Hla H0) as [_ ->]. simpl. lia. }
  rewrite E in Ho. exact (owns_view _ _ _ _ _ Ho).
Qed.

End Identity.

(** * The specification, claim by claim *)

(** The general statements are about well-formed heaps: [exclusive], every
    operand a live [bn] whose [size] is the length of its array and whose
    limbs are below [2 ^ 32], every [krealloc] granted.  Operands have fewer
    than [2 ^ 25] limbs, far above what [kmalloc] serves; below that bound
    the [int] arithmetic of [bn_clz], [bn_msb] and [bn_do_add] does not wrap.
    The three pointers handed to a function may be equal. *)

(** C1.  The comparison is a three-way one, but what it reports is the
    reverse of what the specification says and [bn_add] expects: [bn_add]
    reads [cmp > 0] as [|a| > |b|] ([order_of_cmp]), while [bn_cmp] answers
    [1] when [a] has fewer limbs (one limb [7] against the two limbs
    [{0, 1}]) and when, at equal sizes, the first differing limb of [a] is
    the smaller one ([3] against [5]).  The smaller operand is reported
    GREATER, not LESS. *)
Theorem bn_cmp_smaller_reported_greater :
  bn_cmp (Some 1%positive) (Some 2%positive) (heap3 [7] 0 [0; 1] 0 [0] 0)
    = Some (1, heap3 [7] 0 [0; 1] 0 [0] 0)
  /\ bn_cmp (Some 1%positive) (Some 2%positive) (heap3 [3] 0 [5] 0 [0] 0)
     = Some (1, heap3 [3] 0 [5] 0 [0] 0)
  /\ order_of_cmp 1 = GREATER
  /\ order_of_cmp 1 <> LESS.
Proof. repeat split; try reflexivity. discriminate. Qed.

(** C2.  [-5 + 3]: after the swap [bn_cmp (3, 5)] answers [1], [bn_add]
    takes that for [|a| > |b|] and computes [3 - 5] with [bn_do_sub], whose
    precondition fails: the destination ends up with the non-negative sign
    and the limb [0xFFFFFFFE], not with [-2]. *)
Theorem bn_add_minus_five_plus_three :
  exists m',
    bn_add always_granted no_stale (Some 1%positive) (Some 2%positive) (Some 3%positive)
      (heap3 [5] 1 [3] 0 [0] 0) = Some (tt, m')
    /\ view m' (Some 3%positive) = Some ([4294967294], 1, 0)
    /\ view m' (Some 3%positive) <> Some ([2], 1, 1).
Proof.
  eexists. split; [vm_compute; reflexivity |]. split; [reflexivity | discriminate].
Qed.

(** C3.  [-5 + 0]: the operands differ in sign, so the sum goes through
    [bn_cmp], which answers [1] on [(0, 5)]; [bn_add] computes [0 - 5] and
    leaves the non-negative sign and the limb [0xFFFFFFFB] instead of [-5]. *)
Theorem bn_add_minus_five_plus_zero :
  exists m',
    bn_add always_granted no_stale (Some 1%positive) (Some 2%positive) (Some 3%positive)
      (heap3 [5] 1 [0] 0 [0] 0) = Some (tt, m')
    /\ view m' (Some 3%positive) = Some ([4294967291], 1, 0)
    /\ view m' (Some 3%positive) <> Some ([5], 1, 1).
Proof.
  eexists. split; [vm_compute; reflexivity |]. split; [reflexivity | discriminate].
Qed.

(** C4.  A normalized [a] plus its negation, that is the same limbs under
    the other sign, is the canonical zero: [bn_add] returns and leaves the
    destination with size [1], [limbs[0] == 0] and the non-negative sign. *)
Theorem bn_add_negation_is_zero (ok : Z -> bool) (stale : Z -> Z) (m : mem)
    (a b c : positive) (la lc : list Z) (ga gb gc : Z) :
  (forall n, ok n = true) ->
  exclusive m ->
  view m (Some a) = Some (la, Z.of_nat (length la), ga) ->
  view m (Some b) = Some (la, Z.of_nat (length la), gb) ->
  view m (Some c) = Some (lc, Z.of_nat (length lc), gc) ->
  (ga = 0 /\ gb = 1) \/ (ga = 1 /\ gb = 0) ->
  limbs_ok la -> normalized la -> Z.of_nat (length la) < 2 ^ 25 ->
  exists m',
    bn_add ok stale (Some a) (Some b) (Some c) m = Some (tt, m')
    /\ view m' (Some c) = Some ([0], 1, 0).
Proof.
  intros Hok Hx Va Vb Vc Hg Hla Na La.
  destruct (view_owns _ _ _ _ Va) as [qa Ha].
  destruct (view_owns _ _ _ _ Vb) as [qb Hb].
  destruct (view_owns _ _ _ _ Vc) as [qc Hc].
  pose proof (normalized_length _ Na) as Ia.
  destruct (bn_add_owns ok stale Hok m a qa la ga b qb la gb c qc lc gc
              Hx Ha Hb Hc Hla Hla Ia Ia La La) as (m' & q & Hm' & Ho).
  exists m'. split; [exact Hm' |].
  assert (E : add_result la ga la gb = ([0], 0)).
  { unfold add_result, signed_result. rewrite cmp_limbs_refl.
    destruct Hg as [[-> ->]|[-> ->]]; reflexivity. }
  rewrite E in Ho. exact (owns_view _ _ _ _ _ Ho).
Qed.

Lemma bn_add_negation_is_zero_witness :
  exists m',
    bn_add always_granted no_stale (Some 1%positive) (Some 2%positive) (Some 3%positive)
      (heap3 [5] 0 [5] 1 [9; 9; 9] 1) = Some (tt, m')
    /\ view m' (Some 3%positive) = Some ([0], 1, 0).
Proof.
  apply (bn_add_negation_is_zero always_granted no_stale
           (heap3 [5] 0 [5] 1 [9; 9; 9] 1) 1 2 3 [5] [9; 9; 9] 0 1 1).
  - intros n. reflexivity.
  - apply exclusive_heap3.
  - reflexivity.
  - reflexivity.
  - reflexivity.
  - left. split; reflexivity.
  - repeat constructor; lia.
  - left. reflexivity.
  - simpl. lia.
Defined.

(** C5.  Normalization: whatever the signs, and whether or not the
    destination is one of the operands, [bn_add] on normalized operands
    returns and leaves in the destination a result [r] with [r.size == 1] or
    [r.limbs[r.size - 1] != 0].  Operands are well-formed (limbs below
    [2 ^ 32], arrays owned by one [bn] each, every allocation granted) and
    shorter than [2 ^ 25] limbs, the range in which the [int] arithmetic of
    [bn_clz] and [bn_msb] is exact. *)
Theorem bn_add_normalized (ok : Z -> bool) (stale : Z -> Z) (m : mem)
    (a b c : positive) (la lb lc : list Z) (ga gb gc : Z) :
  (forall n, ok n = true) ->
  exclusive m ->
  view m (Some a) = Some (la, Z.of_nat (length la), ga) ->
  view m (Some b) = Some (lb, Z.of_nat (length lb), gb) ->
  view m (Some c) = Some (lc, Z.of_nat (length lc), gc) ->
  limbs_ok la -> limbs_ok lb ->
  normalized la -> normalized lb ->
  Z.of_nat (length la) < 2 ^ 25 -> Z.of_nat (length lb) < 2 ^ 25 ->
  exists m' r g,
    bn_add ok stale (Some a) (Some b) (Some c) m = Some (tt, m')
    /\ view m' (Some c) = Some (r, Z.of_nat (length r), g)
    /\ (Z.of_nat (length r) = 1 \/ limb r (Z.of_nat (length r) - 1) <> 0).
Proof.
  intros Hok Hx Va Vb Vc Hla Hlb Na Nb La Lb.
  destruct (view_owns _ _ _ _ Va) as [qa Ha].
  destruct (view_owns _ _ _ _ Vb) as [qb Hb].
  destruct (view_owns _ _ _ _ Vc) as [qc Hc].
  pose proof (normalized_length _ Na) as Ia. pose proof (normalized_length _ Nb) as Ib.
  destruct (bn_add_owns ok stale Hok m a qa la ga b qb lb gb c qc lc gc
              Hx Ha Hb Hc Hla Hlb Ia Ib La Lb) as (m' & q & Hm' & Ho).
  exists m', (add_result la ga lb gb).1, (add_result la ga lb gb).2.
  split; [exact Hm' |]. split; [exact (owns_view _ _ _ _ _ Ho) |].
  destruct (add_result_normalized la ga lb gb Hla Hlb Ia Ib) as [H|H]; [left; lia | right; exact H].
Qed.

Lemma bn_add_normalized_witness :
  exists m' r g,
    bn_add always_granted no_stale (Some 1%positive) (Some 2%positive) (Some 1%positive)
      (heap3 [4294967295; 7] 0 [1] 0 [0] 0) = Some (tt, m')
    /\ view m' (Some 1%positive) = Some (r, Z.of_nat (length r), g)
    /\ (Z.of_nat (length r) = 1 \/ limb r (Z.of_nat (length r) - 1) <> 0).
Proof.
  apply (bn_add_normalized always_granted no_stale
           (heap3 [4294967295; 7] 0 [1] 0 [0] 0) 1 2 1
           [4294967295; 7] [1] [4294967295; 7] 0 0 0).
  - intros n. reflexivity.
  - apply exclusive_heap3.
  - reflexivity.
  - reflexivity.
  - reflexivity.
  - repeat constructor; lia.
  - repeat constructor; lia.
  - right. simpl. unfold limb. simpl. lia.
  - left. reflexivity.
  - simpl. lia.
  - simpl. lia.
Defined.

(** C6.  [bn_do_add] is exact.  It first resizes the destination to [d]
    limbs, where [d] is [(max (msb a) (msb b) + 1) / 32] rounded up (so at
    least one limb) and [msb a], [msb b] are what [bn_msb] returns, the bit
    lengths of [|a|] and [|b|]; then the carry loop and the trim leave the destination
    with magnitude [|a| + |b|], its sign untouched.  The three pointers are
    arbitrary: the destination may be [a] or [b].  In particular
    [0xFFFFFFFF + 0xFFFFFFFF] gives the limbs [0xFFFFFFFE; 1], size 2. *)
Theorem bn_do_add_magnitude (ok : Z -> bool) (stale : Z -> Z) (m : mem)
    (a b c : positive) (la lb lc : list Z) (ga gb gc : Z) :
  (forall n, ok n = true) ->
  exclusive m ->
  view m (Some a) = Some (la, Z.of_nat (length la), ga) ->
  view m (Some b) = Some (lb, Z.of_nat (length lb), gb) ->
  view m (Some c) = Some (lc, Z.of_nat (length lc), gc) ->
  limbs_ok la -> limbs_ok lb ->
  Z.of_nat (length la) < 2 ^ 25 -> Z.of_nat (length lb) < 2 ^ 25 ->
  exists ma mb d m1 l1 m' r,
    bn_msb (Some a) m = Some (ma, m)
    /\ ma = bitlen (value la)
    /\ bn_msb (Some b) m = Some (mb, m)
    /\ mb = bitlen (value lb)
    /\ bn_do_add_digits (Some a) (Some b) m = Some (d, m)
    /\ 1 <= d
    /\ 32 * (d - 1) < Z.max ma mb + 1 <= 32 * d
    /\ bn_resize ok stale (Some c) (u64 d) m = Some (0, m1)
    /\ view m1 (Some c) = Some (l1, d, gc)
    /\ Z.of_nat (length l1) = d
    /\ bn_do_add ok stale (Some a) (Some b) (Some c) m
       = bn_do_add_carry ok stale (Some a) (Some b) (Some c) m1
    /\ bn_do_add ok stale (Some a) (Some b) (Some c) m = Some (tt, m')
    /\ view m' (Some c) = Some (r, Z.of_nat (length r), gc)
    /\ value r = value la + value lb
    /\ exists m'',
         bn_do_add ok stale (Some 1%positive) (Some 2%positive) (Some 3%positive)
           (heap3 [4294967295] 0 [4294967295] 0 [0] 0) = Some (tt, m'')
         /\ view m'' (Some 3%positive) = Some ([4294967294; 1], 2, 0).
Proof.
  intros Hok Hx Va Vb Vc Hla Hlb La Lb.
  destruct (view_owns _ _ _ _ Va) as [qa Ha].
  destruct (view_owns _ _ _ _ Vb) as [qb Hb].
  destruct (view_owns _ _ _ _ Vc) as [qc Hc].
  pose proof (exclusive_owns _ _ _ _ _ _ _ _ _ Hx Ha Hc) as Sa.
  pose proof (exclusive_owns _ _ _ _ _ _ _ _ _ Hx Hb Hc) as Sb.
  pose proof (add_digits_range la lb Hla Hlb La Lb) as Hd.
  destruct (add_digits_fits la lb Hla Hlb) as (Hmx & Hlo & Hhi).
  pose proof (bn_do_add_digits_owns _ _ _ _ _ _ _ _ _ Ha Hb Hla Hlb La Lb) as Hdig.
  assert (Hres : bn_resize ok stale (Some c) (u64 (add_digits la lb)) m
                 = Some (0, Mem (<[c := Bn (Some qc) (Z.of_nat (Z.to_nat (add_digits la lb))) gc]>
                                   (structs m))
                                (<[qc := resize (Z.to_nat (add_digits la lb)) 0 lc]> (bufs m)))).
  { rewrite u64_small by lia. rewrite Z2Nat.id by lia.
    apply (bn_resize_owns ok stale _ _ _ _ _ _ Hc); [lia | apply Hok]. }
  pose proof (owns_resized m c qc lc gc (Z.to_nat (add_digits la lb))) as Hc1.
  destruct (add_limbs_sum la lb Hla Hlb) as [_ Hsum].
  eexists _, _, (add_digits la lb), _, _, _, _.
  split; [exact (bn_msb_owns _ _ _ _ _ Ha Hla ltac:(lia)) |].
  split; [reflexivity |].
  split; [exact (bn_msb_owns _ _ _ _ _ Hb Hlb ltac:(lia)) |].
  split; [reflexivity |].
  split; [exact Hdig |]. split; [lia |]. split; [lia |].
  split; [exact Hres |].
  split; [rewrite (owns_view _ _ _ _ _ Hc1), length_resize, Z2Nat.id by lia; reflexivity |].
  split; [rewrite length_resize; lia |].
  split.
  { unfold bn_do_add. run Hdig.
    run Hres. reflexivity. }
  split; [exact (bn_do_add_owns ok stale Hok _ _ _ _ _ _ _ _ _ _ _ _ _
                   Ha Hb Hc Sa Sb Hla Hlb La Lb) |].
  split.
  { apply (owns_view _ c qc). split; cbn [structs bufs]; apply lookup_insert_eq. }
  split; [rewrite trim_top_value; exact Hsum |].
  eexists. split.
  - apply (bn_do_add_owns ok stale Hok _ 1%positive 11%positive [4294967295] 0
             2%positive 12%positive [4294967295] 0 3%positive 13%positive [0] 0).
    + split; reflexivity.
    + split; reflexivity.
    + split; reflexivity.
    + right. discriminate.
    + right. discriminate.
    + repeat constructor; lia.
    + repeat constructor; lia.
    + simpl. lia.
    + simpl. lia.
  - reflexivity.
Qed.

Lemma bn_do_add_magnitude_witness :
  exists ma mb d m1 l1 m' r,
    bn_msb (Some 1%positive) (heap3 [4294967295; 7] 0 [1] 0 [0] 0)
      = Some (ma, heap3 [4294967295; 7] 0 [1] 0 [0] 0)
    /\ ma = bitlen (value [4294967295; 7])
    /\ bn_msb (Some 2%positive) (heap3 [4294967295; 7] 0 [1] 0 [0] 0)
       = Some (mb, heap3 [4294967295; 7] 0 [1] 0 [0] 0)
    /\ mb = bitlen (value [1])
    /\ bn_do_add_digits (Some 1%positive) (Some 2%positive)
         (heap3 [4294967295; 7] 0 [1] 0 [0] 0)
       = Some (d, heap3 [4294967295; 7] 0 [1] 0 [0] 0)
    /\ 1 <= d
    /\ 32 * (d - 1) < Z.max ma mb + 1 <= 32 * d
    /\ bn_resize always_granted no_stale (Some 1%positive) (u64 d)
         (heap3 [4294967295; 7] 0 [1] 0 [0] 0) = Some (0, m1)
    /\ view m1 (Some 1%positive) = Some (l1, d, 0)
    /\ Z.of_nat (length l1) = d
    /\ bn_do_add always_granted no_stale (Some 1%positive) (Some 2%positive) (Some 1%positive)
         (heap3 [4294967295; 7] 0 [1] 0 [0] 0)
       = bn_do_add_carry always_granted no_stale
           (Some 1%positive) (Some 2%positive) (Some 1%positive) m1
    /\ bn_do_add always_granted no_stale (Some 1%positive) (Some 2%positive) (Some 1%positive)
         (heap3 [4294967295; 7] 0 [1] 0 [0] 0) = Some (tt, m')
    /\ view m' (Some 1%positive) = Some (r, Z.of_nat (length r), 0)
    /\ value r = value [4294967295; 7] + value [1]
    /\ exists m'',
         bn_do_add always_granted no_stale (Some 1%positive) (Some 2%positive) (Some 3%positive)
           (heap3 [4294967295] 0 [4294967295] 0 [0] 0) = Some (tt, m'')
         /\ view m'' (Some 3%positive) = Some ([4294967294; 1], 2, 0).
Proof.
  apply (bn_do_add_magnitude always_granted no_stale
           (heap3 [4294967295; 7] 0 [1] 0 [0] 0) 1 2 1
           [4294967295; 7] [1] [4294967295; 7] 0 0 0).
  - intros n. reflexivity.
  - apply exclusive_heap3.
  - reflexivity.
  - reflexivity.
  - reflexivity.
  - repeat constructor; lia.
  - repeat constructor; lia.
  - simpl. lia.
  - simpl. lia.
Defined.

(** C7.  [bn_do_sub] under its precondition [|a| >= |b|].  It first
    resizes the destination to [max (a.size, b.size)] limbs; then the borrow
    loop and the trim leave the destination with magnitude [|a| - |b|] and no
    zero limb at the top, though never fewer than one limb.  In particular
    the limbs [{0, 1}] minus the limbs [{1, 0}] are the one limb
    [0xFFFFFFFF]. *)
Theorem bn_do_sub_magnitude (ok : Z -> bool) (stale : Z -> Z) (m : mem)
    (a b c : positive) (la lb lc : list Z) (ga gb gc : Z) :
  (forall n, ok n = true) ->
  exclusive m ->
  view m (Some a) = Some (la, Z.of_nat (length la), ga) ->
  view m (Some b) = Some (lb, Z.of_nat (length lb), gb) ->
  view m (Some c) = Some (lc, Z.of_nat (length lc), gc) ->
  limbs_ok la -> limbs_ok lb ->
  normalized la -> normalized lb ->
  Z.of_nat (length la) < 2 ^ 25 -> Z.of_nat (length lb) < 2 ^ 25 ->
  value lb <= value la ->
  exists m1 l1 m' r,
    bn_resize ok stale (Some c)
      (u64 (s32 (Z.max (Z.of_nat (length la)) (Z.of_nat (length lb))))) m = Some (0, m1)
    /\ view m1 (Some c)
       = Some (l1, Z.max (Z.of_nat (length la)) (Z.of_nat (length lb)), gc)
    /\ Z.of_nat (length l1) = Z.max (Z.of_nat (length la)) (Z.of_nat (length lb))
    /\ bn_do_sub ok stale (Some a) (Some b) (Some c) m
       = bn_do_sub_borrow ok stale (Some a) (Some b) (Some c) m1
    /\ bn_do_sub ok stale (Some a) (Some b) (Some c) m = Some (tt, m')
    /\ view m' (Some c) = Some (r, Z.of_nat (length r), gc)
    /\ value r = value la - value lb
    /\ (Z.of_nat (length r) = 1 \/ limb r (Z.of_nat (length r) - 1) <> 0)
    /\ exists m'',
         bn_do_sub ok stale (Some 1%positive) (Some 2%positive) (Some 3%positive)
           (heap3 [0; 1] 0 [1; 0] 0 [0] 0) = Some (tt, m'')
         /\ view m'' (Some 3%positive) = Some ([4294967295], 1, 0).
Proof.
  intros Hok Hx Va Vb Vc Hla Hlb Na Nb La Lb Hle.
  destruct (view_owns _ _ _ _ Va) as [qa Ha].
  destruct (view_owns _ _ _ _ Vb) as [qb Hb].
  destruct (view_owns _ _ _ _ Vc) as [qc Hc].
  pose proof (exclusive_owns _ _ _ _ _ _ _ _ _ Hx Ha Hc) as Sa.
  pose proof (exclusive_owns _ _ _ _ _ _ _ _ _ Hx Hb Hc) as Sb.
  pose proof (normalized_length _ Na) as Ia.
  set (n := (length la `max` length lb)%nat).
  assert (En : Z.max (Z.of_nat (length la)) (Z.of_nat (length lb)) = Z.of_nat n) by lia.
  rewrite En.
  assert (Hres : bn_resize ok stale (Some c) (u64 (s32 (Z.of_nat n))) m
                 = Some (0, Mem (<[c := Bn (Some qc) (Z.of_nat n) gc]> (structs m))
                                (<[qc := resize n 0 lc]> (bufs m)))).
  { rewrite s32_small by lia. rewrite u64_small by lia.
    rewrite <- (Nat2Z.id n) at 3.
    apply (bn_resize_owns ok stale _ _ _ _ _ _ Hc); [lia | apply Hok]. }
  pose proof (owns_resized m c qc lc gc n) as Hc1.
  pose proof (bn_do_sub_owns ok stale Hok _ _ _ _ _ _ _ _ _ _ _ _ _
                Ha Hb Hc Sa Sb Hla Hlb La Lb ltac:(lia)) as Hsub.
  cbv zeta in Hsub. fold n in Hsub.
  eexists _, _, _, _.
  split; [exact Hres |].
  split; [rewrite (owns_view _ _ _ _ _ Hc1), length_resize; reflexivity |].
  split; [rewrite length_resize; reflexivity |].
  split.
  { unfold bn_do_sub.
    run_deref Ha.
    run_deref Hb. cbn [size].
    rewrite En. run Hres. reflexivity. }
  split; [exact Hsub |].
  split.
  { apply (owns_view _ c qc). split; cbn [structs bufs]; apply lookup_insert_eq. }
  split; [rewrite trim_zeros_value; apply sub_limbs_difference; assumption |].
  split.
  { destruct (trim_zeros_normalized (sub_limbs n la lb)) as [H|H].
    - unfold sub_limbs. rewrite length_limbs_out. lia.
    - left. lia.
    - right. exact H. }
  eexists. split.
  - apply (bn_do_sub_owns ok stale Hok _ 1%positive 11%positive [0; 1] 0
             2%positive 12%positive [1; 0] 0 3%positive 13%positive [0] 0).
    + split; reflexivity.
    + split; reflexivity.
    + split; reflexivity.
    + right. discriminate.
    + right. discriminate.
    + repeat constructor; lia.
    + repeat constructor; lia.
    + simpl. lia.
    + simpl. lia.
    + simpl. lia.
  - reflexivity.
Qed.

Lemma bn_do_sub_magnitude_witness :
  exists m1 l1 m' r,
    bn_resize always_granted no_stale (Some 2%positive)
      (u64 (s32 (Z.max (Z.of_nat (length [5; 0; 3])) (Z.of_nat (length [7; 0; 3])))))
      (heap3 [5; 0; 3] 0 [7; 0; 3] 1 [0] 0) = Some (0, m1)
    /\ view m1 (Some 2%positive)
       = Some (l1, Z.max (Z.of_nat (length [5; 0; 3])) (Z.of_nat (length [7; 0; 3])), 1)
    /\ Z.of_nat (length l1)
       = Z.max (Z.of_nat (length [5; 0; 3])) (Z.of_nat (length [7; 0; 3]))
    /\ bn_do_sub always_granted no_stale (Some 2%positive) (Some 1%positive) (Some 2%positive)
         (heap3 [5; 0; 3] 0 [7; 0; 3] 1 [0] 0)
       = bn_do_sub_borrow always_granted no_stale
           (Some 2%positive) (Some 1%positive) (Some 2%positive) m1
    /\ bn_do_sub always_granted no_stale (Some 2%positive) (Some 1%positive) (Some 2%positive)
         (heap3 [5; 0; 3] 0 [7; 0; 3] 1 [0] 0) = Some (tt, m')
    /\ view m' (Some 2%positive) = Some (r, Z.of_nat (length r), 1)
    /\ value r = value [7; 0; 3] - value [5; 0; 3]
    /\ (Z.of_nat (length r) = 1 \/ limb r (Z.of_nat (length r) - 1) <> 0)
    /\ exists m'',
         bn_do_sub always_granted no_stale (Some 1%positive) (Some 2%positive) (Some 3%positive)
           (heap3 [0; 1] 0 [1; 0] 0 [0] 0) = Some (tt, m'')
         /\ view m'' (Some 3%positive) = Some ([4294967295], 1, 0).
Proof.
  apply (bn_do_sub_magnitude always_granted no_stale
           (heap3 [5; 0; 3] 0 [7; 0; 3] 1 [0] 0) 2 1 2
           [7; 0; 3] [5; 0; 3] [7; 0; 3] 1 0 1).
  - intros n. reflexivity.
  - apply exclusive_heap3.
  - reflexivity.
  - reflexivity.
  - reflexivity.
  - repeat constructor; lia.
  - repeat constructor; lia.
  - right. simpl. unfold limb. simpl. lia.
  - right. simpl. unfold limb. simpl. lia.
  - simpl. lia.
  - simpl. lia.
  - simpl. lia.
Defined.

(** C8.  [bn_is_zero] looks at nothing but [size], and holds exactly when
    it is [0]; the [bn] that [bn_add] leaves in its destination never has
    size [0], so the predicate is false on every result, the result of
    magnitude zero included, which is the one limb [0]. *)
Theorem bn_is_zero_never_after_add (ok : Z -> bool) (stale : Z -> Z) (m : mem)
    (a b c : positive) (la lb lc : list Z) (ga gb gc : Z) (n : bn) :
  (forall k, ok k = true) ->
  exclusive m ->
  view m (Some a) = Some (la, Z.of_nat (length la), ga) ->
  view m (Some b) = Some (lb, Z.of_nat (length lb), gb) ->
  view m (Some c) = Some (lc, Z.of_nat (length lc), gc) ->
  limbs_ok la -> limbs_ok lb ->
  normalized la -> normalized lb ->
  Z.of_nat (length la) < 2 ^ 25 -> Z.of_nat (length lb) < 2 ^ 25 ->
  (bn_is_zero n = true <-> size n = 0)
  /\ exists m' s r g,
       bn_add ok stale (Some a) (Some b) (Some c) m = Some (tt, m')
       /\ structs m' !! c = Some s
       /\ bn_is_zero s = false
       /\ view m' (Some c) = Some (r, size s, g)
       /\ (value r = 0 -> r = [0] /\ size s = 1).
Proof.
  intros Hok Hx Va Vb Vc Hla Hlb Na Nb La Lb.
  split; [unfold bn_is_zero; apply Z.eqb_eq |].
  destruct (view_owns _ _ _ _ Va) as [qa Ha].
  destruct (view_owns _ _ _ _ Vb) as [qb Hb].
  destruct (view_owns _ _ _ _ Vc) as [qc Hc].
  pose proof (normalized_length _ Na) as Ia. pose proof (normalized_length _ Nb) as Ib.
  destruct (bn_add_owns ok stale Hok m a qa la ga b qb lb gb c qc lc gc
              Hx Ha Hb Hc Hla Hlb Ia Ib La Lb) as (m' & q & Hm' & Ho).
  pose proof (add_result_normalized la ga lb gb Hla Hlb Ia Ib) as Hn.
  pose proof (add_result_limbs_ok la ga lb gb Hla Hlb) as Hl.
  pose proof (normalized_length _ Hn) as Hlen.
  set (r := (add_result la ga lb gb).1) in *. set (g := (add_result la ga lb gb).2) in *.
  exists m', (Bn (Some q) (Z.of_nat (length r)) g), r, g.
  split; [exact Hm' |]. split; [apply Ho |]. split.
  - unfold bn_is_zero. cbn [size]. apply Z.eqb_neq. lia.
  - split; [exact (owns_view _ _ _ _ _ Ho) |].
    intros Hv. rewrite (normalized_zero r Hl Hn Hv). split; reflexivity.
Qed.

Lemma bn_is_zero_never_after_add_witness :
  (bn_is_zero (Bn None 0 0) = true <-> size (Bn None 0 0) = 0)
  /\ exists m' s r g,
       bn_add always_granted no_stale (Some 1%positive) (Some 2%positive) (Some 3%positive)
         (heap3 [6; 1] 0 [6; 1] 1 [9; 9; 9] 1) = Some (tt, m')
       /\ structs m' !! 3%positive = Some s
       /\ bn_is_zero s = false
       /\ view m' (Some 3%positive) = Some (r, size s, g)
       /\ (value r = 0 -> r = [0] /\ size s = 1).
Proof.
  apply (bn_is_zero_never_after_add always_granted no_stale
           (heap3 [6; 1] 0 [6; 1] 1 [9; 9; 9] 1) 1 2 3
           [6; 1] [6; 1] [9; 9; 9] 0 1 1 (Bn None 0 0)).
  - intros n. reflexivity.
  - apply exclusive_heap3.
  - reflexivity.
  - reflexivity.
  - reflexivity.
  - repeat constructor; lia.
  - repeat constructor; lia.
  - right. simpl. unfold limb. simpl. lia.
  - right. simpl. unfold limb. simpl. lia.
  - simpl. lia.
  - simpl. lia.
Defined.

(** C9.  [bn_free] answers [-1] exactly when it is handed [NULL]; handed a
    live [bn] (its [number] is [NULL] or a live array) it frees the limb
    array, then the [bn] itself, and answers [0]. *)
Theorem bn_free_reports (m : mem) (p : positive) (s : bn) :
  structs m !! p = Some s ->
  (number s = None \/ exists q l, number s = Some q /\ bufs m !! q = Some l) ->
  bn_free None m = Some (-1, m)
  /\ (exists m1 m',
        kfree_limbs (number s) m = Some (tt, m1)
        /\ kfree_bn (Some p) m1 = Some (tt, m')
        /\ bn_free (Some p) m = Some (0, m')
        /\ structs m' !! p = None
        /\ (forall q, number s = Some q -> bufs m' !! q = None)
        /\ view m' (Some p) = None)
  /\ (forall src r m'', bn_free src m = Some (r, m'') -> (r = -1 <-> src = None)).
Proof.
  intros Hs Hq. split; [reflexivity |]. split.
  - assert (H1 : exists m1, kfree_limbs (number s) m = Some (tt, m1)
                            /\ structs m1 = structs m
                            /\ forall q, number s = Some q -> bufs m1 !! q = None).
    { destruct Hq as [E|(q & l & E & Hl)]; rewrite E.
      - exists m. split; [reflexivity |]. split; [reflexivity | discriminate].
      - unfold kfree_limbs. rewrite Hl. eexists. split; [reflexivity |].
        split; [reflexivity |]. intros q' [= <-]. apply lookup_delete_eq. }
    destruct H1 as (m1 & K1 & S1 & B1).
    exists m1, (Mem (delete p (structs m1)) (bufs m1)).
    assert (K2 : kfree_bn (Some p) m1 = Some (tt, Mem (delete p (structs m1)) (bufs m1))).
    { unfold kfree_bn. rewrite S1, Hs. reflexivity. }
    split; [exact K1 |]. split; [exact K2 |]. split.
    + unfold bn_free. unfold bind at 1. unfold deref. rewrite Hs.
      run K1. run K2. reflexivity.
    + split; [apply lookup_delete_eq |]. split; [exact B1 |].
      unfold view. cbn [structs]. rewrite lookup_delete_eq. reflexivity.
  - intros src r m'' H. destruct src as [p'|].
    + split; [| discriminate]. intros ->. exfalso.
      unfold bn_free, bind in H.
      destruct (deref (Some p') m) as [[s' m1]|]; [| discriminate].
      destruct (kfree_limbs (number s') m1) as [[[] m2]|]; [| discriminate].
      destruct (kfree_bn (Some p') m2) as [[[] m3]|]; discriminate.
    + injection H as <- _. split; reflexivity.
Qed.

Lemma bn_free_reports_witness :
  bn_free None (heap3 [5] 0 [3] 1 [0] 0) = Some (-1, heap3 [5] 0 [3] 1 [0] 0)
  /\ (exists m1 m',
        kfree_limbs (number (Bn (Some 12%positive) 1 1)) (heap3 [5] 0 [3] 1 [0] 0)
          = Some (tt, m1)
        /\ kfree_bn (Some 2%positive) m1 = Some (tt, m')
        /\ bn_free (Some 2%positive) (heap3 [5] 0 [3] 1 [0] 0) = Some (0, m')
        /\ structs m' !! 2%positive = None
        /\ (forall q, number (Bn (Some 12%positive) 1 1) = Some q -> bufs m' !! q = None)
        /\ view m' (Some 2%positive) = None)
  /\ (forall src r m'',
        bn_free src (heap3 [5] 0 [3] 1 [0] 0) = Some (r, m'') -> (r = -1 <-> src = None)).
Proof.
  apply (bn_free_reports (heap3 [5] 0 [3] 1 [0] 0) 2 (Bn (Some 12%positive) 1 1)).
  - reflexivity.
  - right. exists 12%positive, [3]. split; reflexivity.
Defined.

(** C10, amended.  [bn_resize] on a live [bn], in the order of its tests.
    Asked for the size the [bn] has, size [0] included, it changes nothing
    and answers [0].  Asked for size [0] on a [bn] of at least one limb it
    does not resize: it hands the [bn] to [bn_free], which frees the array
    and the [bn] and whose answer it returns, so nothing is left behind the
    pointer.  Asked for more, and granted the memory, it keeps the old
    limbs, sets the limbs from the old size up to the new one to zero and
    answers [0]; refused the memory it answers [-1]. *)
Theorem bn_resize_cases (ok : Z -> bool) (stale : Z -> Z) (m : mem)
    (c q : positive) (l : list Z) (g : Z) :
  owns m c q l g ->
  Z.of_nat (length l) < 2 ^ 32 ->
  bn_resize ok stale (Some c) (Z.of_nat (length l)) m = Some (0, m)
  /\ (1 <= Z.of_nat (length l) ->
      exists m',
        bn_resize ok stale (Some c) 0 m = bn_free (Some c) m
        /\ bn_free (Some c) m = Some (0, m')
        /\ structs m' !! c = None
        /\ bufs m' !! q = None
        /\ view m' (Some c) = None)
  /\ (forall n, Z.of_nat (length l) < n < 2 ^ 32 -> ok n = true ->
      exists m',
        bn_resize ok stale (Some c) n m = Some (0, m')
        /\ view m' (Some c)
           = Some (l ++ replicate (Z.to_nat (n - Z.of_nat (length l))) 0, n, g))
  /\ (forall n, Z.of_nat (length l) < n -> ok n = false ->
      exists m', bn_resize ok stale (Some c) n m = Some (-1, m')).
Proof.
  intros Ho Hlen. pose proof Ho as [Hs Hq]. split; [| split; [| split]].
  - unfold bn_resize.
    run_deref Ho. cbn [size].
    rewrite Z.eqb_refl. reflexivity.
  - intros H1. eexists. split; [| split; [exact (bn_free_owns _ _ _ _ _ Ho) |]].
    + unfold bn_resize.
      run_deref Ho. cbn [size].
      destruct (Z.eqb_spec 0 (Z.of_nat (length l))) as [E|_]; [lia | reflexivity].
    + cbn [structs bufs]. split; [apply lookup_delete_eq |].
      split; [apply lookup_delete_eq |].
      unfold view. cbn [structs]. rewrite lookup_delete_eq. reflexivity.
  - intros n Hn Hok. eexists. split.
    + apply (bn_resize_owns ok stale _ _ _ _ _ _ Ho); [lia | exact Hok].
    + unfold view. cbn [structs bufs]. rewrite lookup_insert_eq. cbn [number size sign].
      rewrite lookup_insert_eq. rewrite resize_ge by lia.
      replace (Z.to_nat n - length l)%nat with (Z.to_nat (n - Z.of_nat (length l))) by lia.
      reflexivity.
  - intros n Hn Hok. unfold bn_resize.
    run_deref Ho. cbn [number size sign].
    destruct (Z.eqb_spec n (Z.of_nat (length l))) as [E|_]; [lia |].
    destruct (Z.eqb_spec n 0) as [E|_]; [lia |].
    unfold bind at 1. unfold krealloc. rewrite Hok.
    erewrite bind_Some by (apply set_number_live; exact Hs).
    eexists. reflexivity.
Qed.

Lemma bn_resize_cases_witness :
  bn_resize always_granted no_stale (Some 1%positive) (Z.of_nat (length [5; 6]))
    (heap3 [5; 6] 1 [3] 0 [0] 0) = Some (0, heap3 [5; 6] 1 [3] 0 [0] 0)
  /\ (1 <= Z.of_nat (length [5; 6]) ->
      exists m',
        bn_resize always_granted no_stale (Some 1%positive) 0 (heap3 [5; 6] 1 [3] 0 [0] 0)
          = bn_free (Some 1%positive) (heap3 [5; 6] 1 [3] 0 [0] 0)
        /\ bn_free (Some 1%positive) (heap3 [5; 6] 1 [3] 0 [0] 0) = Some (0, m')
        /\ structs m' !! 1%positive = None
        /\ bufs m' !! 11%positive = None
        /\ view m' (Some 1%positive) = None)
  /\ (forall n, Z.of_nat (length [5; 6]) < n < 2 ^ 32 -> always_granted n = true ->
      exists m',
        bn_resize always_granted no_stale (Some 1%positive) n (heap3 [5; 6] 1 [3] 0 [0] 0)
          = Some (0, m')
        /\ view m' (Some 1%positive)
           = Some ([5; 6] ++ replicate (Z.to_nat (n - Z.of_nat (length [5; 6]))) 0, n, 1))
  /\ (forall n, Z.of_nat (length [5; 6]) < n -> always_granted n = false ->
      exists m',
        bn_resize always_granted no_stale (Some 1%positive) n (heap3 [5; 6] 1 [3] 0 [0] 0)
          = Some (-1, m')).
Proof.
  apply (bn_resize_cases always_granted no_stale (heap3 [5; 6] 1 [3] 0 [0] 0)
           1 11 [5; 6] 1).
  - split; reflexivity.
  - simpl. lia.
Defined.

(** C10 as the specification has it fails on a live [bn] of size [0], which
    is what [bn_alloc (0)] returns: the equal-size test of line 80 comes
    before the zero test of line 82, so [bn_resize] to [0] answers [0], is
    not [bn_free], frees neither the array nor the [bn], and the [bn] is
    still live behind its pointer. *)
Lemma bn_resize_zero_on_size_zero_frees_nothing :
  bn_alloc true (Bn None 7 7) always_granted no_stale 0 (Mem ∅ ∅)
  = Some (Some 1%positive,
          Mem (<[1%positive := Bn (Some 1%positive) 0 0]> ∅) (<[1%positive := []]> ∅))
  /\ view (Mem (<[1%positive := Bn (Some 1%positive) 0 0]> ∅) (<[1%positive := []]> ∅))
       (Some 1%positive) = Some ([], 0, 0)
  /\ bn_resize always_granted no_stale (Some 1%positive) 0
       (Mem (<[1%positive := Bn (Some 1%positive) 0 0]> ∅) (<[1%positive := []]> ∅))
     = Some (0, Mem (<[1%positive := Bn (Some 1%positive) 0 0]> ∅) (<[1%positive := []]> ∅))
  /\ bn_resize always_granted no_stale (Some 1%positive) 0
       (Mem (<[1%positive := Bn (Some 1%positive) 0 0]> ∅) (<[1%positive := []]> ∅))
     <> bn_free (Some 1%positive)
          (Mem (<[1%positive := Bn (Some 1%positive) 0 0]> ∅) (<[1%positive := []]> ∅))
  /\ ~ (exists m',
          bn_resize always_granted no_stale (Some 1%positive) 0
            (Mem (<[1%positive := Bn (Some 1%positive) 0 0]> ∅) (<[1%positive := []]> ∅))
          = Some (0, m')
          /\ view m' (Some 1%positive) = None).
Proof.
  assert (R : bn_resize always_granted no_stale (Some 1%positive) 0
                (Mem (<[1%positive := Bn (Some 1%positive) 0 0]> ∅) (<[1%positive := []]> ∅))
              = Some (0, Mem (<[1%positive := Bn (Some 1%positive) 0 0]> ∅)
                             (<[1%positive := []]> ∅)))
    by reflexivity.
  split; [| split; [reflexivity | split; [exact R | split]]].
  - vm_compute. reflexivity.
  - intros E.
    apply (f_equal (fun r : option (Z * mem) =>
                      match r with
                      | Some (_, m') => structs m' !! 1%positive
                      | None => None
                      end)) in E.
    vm_compute in E. discriminate E.
  - intros (m' & E & V). rewrite R in E. injection E as <-. discriminate V.
Qed.

(** The same on any heap: a [bn] of size [0] is left as it is. *)
Remark bn_resize_zero_sized (ok : Z -> bool) (stale : Z -> Z) (m : mem)
    (c : positive) (s : bn) :
  structs m !! c = Some s -> size s = 0 ->
  bn_resize ok stale (Some c) 0 m = Some (0, m).
Proof.
  intros Hs H0. unfold bn_resize, bind, deref. rewrite Hs, H0. reflexivity.
Qed.

(** * The rest of [bn.c] *)

(** ** Heaps *)

Lemma no_danglingb_sound m : no_danglingb m = true -> no_dangling m.
Proof.
  intros H p s q Hs N. unfold no_danglingb in H. rewrite forallb_forall in H.
  assert (I : In (p, s) (map_to_list (structs m)))
    by (apply list_elem_of_In, elem_of_map_to_list; exact Hs).
  specialize (H _ I). cbn [snd] in H. rewrite N in H.
  apply bool_decide_eq_true in H. exact H.
Qed.

Lemma no_dangling_heap3 la ga lb gb lc gc : no_dangling (heap3 la ga lb gb lc gc).
Proof. apply no_danglingb_sound. reflexivity. Qed.

(** What is behind a pointer depends on its object and its array only. *)
Lemma view_agree m m' p :
  structs m' !! p = structs m !! p ->
  (forall s q, structs m !! p = Some s -> number s = Some q ->
     bufs m' !! q = bufs m !! q) ->
  view m' (Some p) = view m (Some p).
Proof.
  intros Hs Hq. unfold view. rewrite Hs.
  destruct (structs m !! p) as [s|] eqn:E; [| reflexivity].
  destruct (number s) as [q|] eqn:N; [| reflexivity].
  rewrite (Hq s q eq_refl N). reflexivity.
Qed.

Lemma view_live m p v :
  view m (Some p) = Some v ->
  exists s q l, structs m !! p = Some s /\ number s = Some q /\ bufs m !! q = Some l
                /\ v = (l, size s, sign s).
Proof.
  unfold view. destruct (structs m !! p) as [s|]; [| discriminate].
  destruct (number s) as [q|] eqn:N; [| discriminate].
  destruct (bufs m !! q) as [l|] eqn:B; [| discriminate].
  intros [= <-]. exists s, q, l. repeat split; assumption.
Qed.


(** ** [bn_alloc] *)

Section Allocation.

Variable kmalloc_bn_ok : bool.
Variable stale_bn : bn.
Variable kmalloc_ok : Z -> bool.
Variable stale : Z -> Z.

Lemma bn_alloc_granted m n :
  kmalloc_bn_ok = true -> kmalloc_ok n = true -> 0 <= n < 2 ^ 32 ->
  bn_alloc kmalloc_bn_ok stale_bn kmalloc_ok stale n m =
    Some (Some (fresh (dom (structs m))),
          Mem (<[fresh (dom (structs m)) := Bn (Some (fresh (dom (bufs m)))) n 0]>
                 (structs m))
              (<[fresh (dom (bufs m)) := replicate (Z.to_nat n) 0]> (bufs m))).
Proof.
  intros H1 H2 Hn. unfold bn_alloc.
  unfold bind at 1. unfold kmalloc_bn. rewrite H1.
  set (p := fresh (dom (structs m))).
  assert (En : u64 (4 * n) / 4 = n).
  { rewrite u64_small by lia. rewrite Z.mul_comm. apply Z.div_mul. lia. }
  cbv zeta. rewrite En.
  unfold bind at 1. unfold kmalloc. rewrite H2. cbn [structs bufs].
  set (q := fresh (dom (bufs m))).
  erewrite bind_Some by (apply set_number_live; cbn [structs]; apply lookup_insert_eq).
  cbn [structs bufs number size sign].
  unfold bind at 1. unfold deref. cbn [structs]. rewrite lookup_insert_eq.
  cbn [number].
  erewrite bind_Some; cycle 1.
  { apply memset0_live with (l := (fun i => u32 (stale i)) <$> seqZ 0 n).
    - cbn [bufs]. apply lookup_insert_eq.
    - lia.
    - lia.
    - rewrite length_fmap, length_seqZ. lia. }
  cbn [structs bufs].
  erewrite bind_Some by (apply set_size_live; cbn [structs]; apply lookup_insert_eq).
  cbn [structs bufs number size sign].
  erewrite bind_Some by (apply set_sign_live; cbn [structs]; apply lookup_insert_eq).
  cbn [structs bufs number size sign]. unfold ret.
  rewrite !insert_insert_eq. rewrite u32_small by lia.
  do 4 f_equal. rewrite take_0, app_nil_l.
  rewrite drop_ge by (rewrite length_fmap, length_seqZ; lia).
  rewrite app_nil_r. reflexivity.
Qed.

End Allocation.

(** X1.  A granted [bn_alloc (n)] returns a pointer that was not live
    before; behind it is [+0] on [n] zero limbs.  Every [bn] that was there
    is as it was, no two objects share an array and no array pointer
    dangles afterwards. *)
Theorem bn_alloc_fresh_zero (kmalloc_bn_ok : bool) (stale_bn : bn)
    (kmalloc_ok : Z -> bool) (stale : Z -> Z) (m : mem) (n : Z) :
  kmalloc_bn_ok = true -> kmalloc_ok n = true -> 0 <= n < 2 ^ 32 ->
  exclusive m -> no_dangling m ->
  exists p m',
    bn_alloc kmalloc_bn_ok stale_bn kmalloc_ok stale n m = Some (Some p, m')
    /\ structs m !! p = None
    /\ view m' (Some p) = Some (replicate (Z.to_nat n) 0, n, 0)
    /\ (forall p' v, view m (Some p') = Some v -> view m' (Some p') = Some v)
    /\ exclusive m' /\ no_dangling m'.
Proof.
  intros H1 H2 Hn Hx Hd.
  pose proof (bn_alloc_granted kmalloc_bn_ok stale_bn kmalloc_ok stale m n H1 H2 Hn) as Ha.
  set (p := fresh (dom (structs m))) in *. set (q := fresh (dom (bufs m))) in *.
  assert (Fp : structs m !! p = None) by (apply not_elem_of_dom, is_fresh).
  assert (Fq : bufs m !! q = None) by (apply not_elem_of_dom, is_fresh).
  eexists p, _. split; [exact Ha |]. split; [exact Fp |]. split; [| split; [| split]].
  - unfold view. cbn [structs bufs]. rewrite lookup_insert_eq. cbn [number size sign].
    rewrite lookup_insert_eq. reflexivity.
  - intros p' v Hv. rewrite <- Hv.
    destruct (view_live _ _ _ Hv) as (s & q' & l & Hs & N & Hl & _).
    apply view_agree; cbn [structs bufs].
    + apply lookup_insert_ne. congruence.
    + intros s' q'' Hs' N'. apply lookup_insert_ne.
      destruct (Hd _ _ _ Hs' N') as [l' Hl']. congruence.
  - intros p1 p2 s1 s2 q0. cbn [structs]. intros L1 L2 N1 N2.
    destruct (decide (p1 = p)) as [->|E1]; destruct (decide (p2 = p)) as [->|E2];
      try reflexivity.
    + rewrite lookup_insert_eq in L1. rewrite lookup_insert_ne in L2 by congruence.
      injection L1 as <-. cbn in N1. injection N1 as <-.
      destruct (Hd _ _ _ L2 N2) as [l' Hl']. congruence.
    + rewrite lookup_insert_eq in L2. rewrite lookup_insert_ne in L1 by congruence.
      injection L2 as <-. cbn in N2. injection N2 as <-.
      destruct (Hd _ _ _ L1 N1) as [l' Hl']. congruence.
    + rewrite lookup_insert_ne in L1, L2 by congruence.
      exact (Hx _ _ _ _ q0 L1 L2 N1 N2).
  - intros p1 s1 q0. cbn [structs bufs]. intros L1 N1.
    destruct (decide (p1 = p)) as [->|E1].
    + rewrite lookup_insert_eq in L1. injection L1 as <-. cbn in N1. injection N1 as <-.
      rewrite lookup_insert_eq. eexists. reflexivity.
    + rewrite lookup_insert_ne in L1 by congruence.
      destruct (Hd _ _ _ L1 N1) as [l' Hl'].
      destruct (decide (q0 = q)) as [->|E2]; [congruence |].
      rewrite lookup_insert_ne by congruence. eexists. exact Hl'.
Qed.

Lemma bn_alloc_fresh_zero_witness :
  exists p m',
    bn_alloc true (Bn None 7 7) always_granted no_stale 4 (heap3 [5] 1 [3] 0 [0] 0)
      = Some (Some p, m')
    /\ structs (heap3 [5] 1 [3] 0 [0] 0) !! p = None
    /\ view m' (Some p) = Some (replicate (Z.to_nat 4) 0, 4, 0)
    /\ (forall p' v, view (heap3 [5] 1 [3] 0 [0] 0) (Some p') = Some v ->
                     view m' (Some p') = Some v)
    /\ exclusive m' /\ no_dangling m'.
Proof.
  apply (bn_alloc_fresh_zero true (Bn None 7 7) always_granted no_stale
           (heap3 [5] 1 [3] 0 [0] 0) 4).
  - reflexivity.
  - reflexivity.
  - lia.
  - apply exclusive_heap3.
  - apply no_dangling_heap3.
Defined.

(** X2.  Freeing what [bn_alloc] has just returned gives the heap back as
    it was: nothing is leaked and nothing else is touched. *)
Theorem bn_alloc_free_round_trip (kmalloc_bn_ok : bool) (stale_bn : bn)
    (kmalloc_ok : Z -> bool) (stale : Z -> Z) (m : mem) (n : Z) :
  kmalloc_bn_ok = true -> kmalloc_ok n = true -> 0 <= n < 2 ^ 32 ->
  (p <- bn_alloc kmalloc_bn_ok stale_bn kmalloc_ok stale n ;; bn_free p) m
    = Some (0, m).
Proof.
  intros H1 H2 Hn.
  run (bn_alloc_granted kmalloc_bn_ok stale_bn kmalloc_ok stale m n H1 H2 Hn).
  set (p := fresh (dom (structs m))). set (q := fresh (dom (bufs m))).
  assert (Fp : structs m !! p = None) by (apply not_elem_of_dom, is_fresh).
  assert (Fq : bufs m !! q = None) by (apply not_elem_of_dom, is_fresh).
  rewrite (bn_free_owns _ p q (replicate (Z.to_nat n) 0) 0).
  - cbn [structs bufs]. rewrite !delete_insert_id by assumption.
    rewrite mem_eta. reflexivity.
  - split; cbn [structs bufs]; rewrite lookup_insert_eq; [| reflexivity].
    rewrite length_replicate, Z2Nat.id by lia. reflexivity.
Qed.

Lemma bn_alloc_free_round_trip_witness :
  (p <- bn_alloc true (Bn None 7 7) always_granted no_stale 4 ;; bn_free p)
    (heap3 [5] 1 [3] 0 [0] 0) = Some (0, heap3 [5] 1 [3] 0 [0] 0).
Proof.
  apply (bn_alloc_free_round_trip true (Bn None 7 7) always_granted no_stale
           (heap3 [5] 1 [3] 0 [0] 0) 4).
  - reflexivity.
  - reflexivity.
  - lia.
Defined.

(** X3.  [bn_alloc] checks neither [kmalloc].  When the object is refused,
    or when the array is refused and is of at least one limb (and of fewer
    than [2 ^ 62], so that its byte count is not reduced), it does not
    return [NULL]: it writes through the null pointer. *)
Theorem bn_alloc_refused_faults (kmalloc_bn_ok : bool) (stale_bn : bn)
    (kmalloc_ok : Z -> bool) (stale : Z -> Z) (m : mem) (n : Z) :
  kmalloc_bn_ok = false \/ (kmalloc_ok n = false /\ 0 < n < 2 ^ 62) ->
  bn_alloc kmalloc_bn_ok stale_bn kmalloc_ok stale n m = None.
Proof.
  intros H. unfold bn_alloc, bind at 1. unfold kmalloc_bn. cbv zeta.
  destruct kmalloc_bn_ok.
  - destruct H as [H|[H Hn]]; [discriminate |].
    assert (En : u64 (4 * n) / 4 = n).
    { rewrite u64_small by lia. rewrite Z.mul_comm. apply Z.div_mul. lia. }
    rewrite En.
    unfold bind at 1. unfold kmalloc. rewrite H.
    erewrite bind_Some by (apply set_number_live; cbn [structs]; apply lookup_insert_eq).
    unfold bind at 1. unfold deref. cbn [structs]. rewrite lookup_insert_eq.
    cbn [number]. unfold bind at 1. unfold memset0.
    destruct (Z.eqb_spec n 0) as [E|_]; [lia |]. reflexivity.
  - unfold bind at 1.
    destruct (kmalloc kmalloc_ok stale (u64 (4 * n) / 4) m) as [[q m1]|]; reflexivity.
Qed.

Lemma bn_alloc_refused_faults_witness :
  bn_alloc true (Bn None 7 7) (fun _ => false) no_stale 4 (heap3 [5] 1 [3] 0 [0] 0) = None
  /\ bn_alloc false (Bn None 7 7) always_granted no_stale 4 (heap3 [5] 1 [3] 0 [0] 0)
     = None.
Proof.
  split.
  - apply (bn_alloc_refused_faults true (Bn None 7 7) (fun _ => false) no_stale
             (heap3 [5] 1 [3] 0 [0] 0) 4).
    right. split; [reflexivity | lia].
  - apply (bn_alloc_refused_faults false (Bn None 7 7) always_granted no_stale
             (heap3 [5] 1 [3] 0 [0] 0) 4).
    left. reflexivity.
Defined.

(** The byte count of line 18 is a [size_t]: asked for [2 ^ 62] limbs,
    [bn_alloc] asks [kmalloc] for no byte at all, writes nothing, and returns
    a [bn] of size [0], also when that request is refused. *)
Remark bn_alloc_zero_bytes (stale_bn : bn) (kmalloc_ok : Z -> bool)
    (stale : Z -> Z) (m : mem) :
  kmalloc_ok 0 = false ->
  bn_alloc true stale_bn kmalloc_ok stale (2 ^ 62) m
  = Some (Some (fresh (dom (structs m))),
          Mem (<[fresh (dom (structs m)) := Bn None 0 0]> (structs m)) (bufs m)).
Proof.
  intros H. unfold bn_alloc, bind at 1. unfold kmalloc_bn. cbv zeta.
  change (u64 (4 * 2 ^ 62) / 4) with 0. change (u32 (2 ^ 62)) with 0.
  unfold bind at 1. unfold kmalloc. rewrite H.
  erewrite bind_Some by (apply set_number_live; cbn [structs]; apply lookup_insert_eq).
  unfold bind at 1. unfold deref. cbn [structs]. rewrite lookup_insert_eq.
  cbn [number size sign]. unfold memset0. cbn [Z.eqb]. unfold bind at 1.
  erewrite bind_Some by (apply set_size_live; cbn [structs]; apply lookup_insert_eq).
  cbn [structs bufs number size sign].
  erewrite bind_Some by (apply set_sign_live; cbn [structs]; apply lookup_insert_eq).
  cbn [structs bufs number size sign]. unfold ret.
  rewrite !insert_insert_eq. reflexivity.
Qed.

(** ** [bn_swap] *)

Lemma bn_swap_live m a sa b sb :
  structs m !! a = Some sa -> structs m !! b = Some sb ->
  bn_swap (Some a) (Some b) m =
    Some (tt, Mem (<[b := sa]> (<[a := sb]> (structs m))) (bufs m)).
Proof.
  intros Ha Hb. unfold bn_swap, bind, deref, assign. rewrite Ha, Hb, Ha.
  cbn [structs bufs].
  destruct (decide (a = b)) as [->|Hne].
  - rewrite lookup_insert_eq. reflexivity.
  - rewrite lookup_insert_ne by congruence. rewrite Hb. reflexivity.
Qed.

(** X4.  [bn_swap] exchanges what is behind its two pointers, sign and
    size included, copies no limb and leaves every other [bn] alone; arrays
    that were owned by one object each still are. *)
Theorem bn_swap_exchanges (m : mem) (a b : positive) (sa sb : bn) :
  structs m !! a = Some sa -> structs m !! b = Some sb ->
  exists m',
    bn_swap (Some a) (Some b) m = Some (tt, m')
    /\ view m' (Some a) = view m (Some b)
    /\ view m' (Some b) = view m (Some a)
    /\ (forall p, p <> a -> p <> b -> view m' (Some p) = view m (Some p))
    /\ bufs m' = bufs m
    /\ (exclusive m -> exclusive m').
Proof.
  intros Ha Hb. eexists. split; [exact (bn_swap_live m a sa b sb Ha Hb) |].
  split; [| split; [| split; [| split]]].
  - unfold view. cbn [structs bufs]. rewrite Hb.
    destruct (decide (a = b)) as [->|Hne].
    + rewrite lookup_insert_eq. assert (sa = sb) as -> by congruence. reflexivity.
    + rewrite lookup_insert_ne by congruence. rewrite lookup_insert_eq. reflexivity.
  - unfold view. cbn [structs bufs]. rewrite lookup_insert_eq, Ha. reflexivity.
  - intros p Hpa Hpb. unfold view. cbn [structs bufs].
    rewrite !lookup_insert_ne by congruence. reflexivity.
  - reflexivity.
  - intros Hx. exact (exclusive_swap m a sa b sb Hx Ha Hb).
Qed.

Lemma bn_swap_exchanges_witness :
  exists m',
    bn_swap (Some 1%positive) (Some 2%positive) (heap3 [5; 6] 1 [3] 0 [0] 0) = Some (tt, m')
    /\ view m' (Some 1%positive) = view (heap3 [5; 6] 1 [3] 0 [0] 0) (Some 2%positive)
    /\ view m' (Some 2%positive) = view (heap3 [5; 6] 1 [3] 0 [0] 0) (Some 1%positive)
    /\ (forall p, p <> 1%positive -> p <> 2%positive ->
          view m' (Some p) = view (heap3 [5; 6] 1 [3] 0 [0] 0) (Some p))
    /\ bufs m' = bufs (heap3 [5; 6] 1 [3] 0 [0] 0)
    /\ (exclusive (heap3 [5; 6] 1 [3] 0 [0] 0) -> exclusive m').
Proof.
  apply (bn_swap_exchanges (heap3 [5; 6] 1 [3] 0 [0] 0) 1 2
           (Bn (Some 11%positive) 2 1) (Bn (Some 12%positive) 1 0)).
  - reflexivity.
  - reflexivity.
Defined.

(** X5.  Swapping twice gives the heap back, and the order of the two
    pointers does not matter. *)
Theorem bn_swap_involutive (m : mem) (a b : positive) (sa sb : bn) :
  structs m !! a = Some sa -> structs m !! b = Some sb ->
  (bn_swap (Some a) (Some b) ;;; bn_swap (Some a) (Some b)) m = Some (tt, m)
  /\ bn_swap (Some b) (Some a) m = bn_swap (Some a) (Some b) m.
Proof.
  intros Ha Hb. split.
  - run (bn_swap_live m a sa b sb Ha Hb).
    rewrite (bn_swap_live _ a (if decide (a = b) then sa else sb) b sa).
    + cbn [structs bufs]. rewrite <- (mem_eta m) at 3. do 3 f_equal.
      apply map_eq. intros i. rewrite !lookup_insert.
      repeat case_decide; congruence.
    + cbn [structs]. rewrite !lookup_insert. repeat case_decide; congruence.
    + cbn [structs]. apply lookup_insert_eq.
  - rewrite (bn_swap_live m a sa b sb Ha Hb), (bn_swap_live m b sb a sa Hb Ha).
    do 3 f_equal. apply map_eq. intros i. rewrite !lookup_insert.
    repeat case_decide; congruence.
Qed.

Lemma bn_swap_involutive_witness :
  (bn_swap (Some 1%positive) (Some 2%positive) ;;; bn_swap (Some 1%positive) (Some 2%positive))
    (heap3 [5; 6] 1 [3] 0 [0] 0) = Some (tt, heap3 [5; 6] 1 [3] 0 [0] 0)
  /\ bn_swap (Some 2%positive) (Some 1%positive) (heap3 [5; 6] 1 [3] 0 [0] 0)
     = bn_swap (Some 1%positive) (Some 2%positive) (heap3 [5; 6] 1 [3] 0 [0] 0).
Proof.
  apply (bn_swap_involutive (heap3 [5; 6] 1 [3] 0 [0] 0) 1 2
           (Bn (Some 11%positive) 2 1) (Bn (Some 12%positive) 1 0)).
  - reflexivity.
  - reflexivity.
Defined.

(** ** [bn_clz] and [bn_msb] *)

(** X6.  [bn_msb] is the bit length of the magnitude and [bn_clz] the
    number of zero bits above it, [32 * size] of them when the magnitude is
    zero; neither writes to memory. *)
Theorem bn_msb_bit_length (m : mem) (p : positive) (l : list Z) (g : Z) :
  view m (Some p) = Some (l, Z.of_nat (length l), g) ->
  limbs_ok l -> Z.of_nat (length l) < 2 ^ 26 ->
  exists z,
    bn_clz (Some p) m = Some (z, m)
    /\ bn_msb (Some p) m = Some (32 * Z.of_nat (length l) - z, m)
    /\ 0 <= z <= 32 * Z.of_nat (length l)
    /\ value l < 2 ^ (32 * Z.of_nat (length l) - z)
    /\ (0 < value l -> 2 ^ (32 * Z.of_nat (length l) - z - 1) <= value l)
    /\ (value l = 0 -> z = 32 * Z.of_nat (length l)).
Proof.
  intros Hv Hl Hb. destruct (view_owns _ _ _ _ Hv) as [q Ho].
  exists (clz_top (length l) l).
  pose proof (msb_bitlen l Hl) as E.
  pose proof (value_range l Hl) as [V0 _].
  destruct (bitlen_spec (value l) V0) as (B0 & B1 & B2).
  split; [exact (bn_clz_owns _ _ _ _ _ Ho Hl Hb) |].
  split; [rewrite E; exact (bn_msb_owns _ _ _ _ _ Ho Hl Hb) |].
  split; [apply clz_top_range; exact Hl |].
  rewrite E. split; [exact B1 |]. split; [exact B2 |].
  intros Hz. rewrite Hz in E. change (bitlen 0) with 0 in E. lia.
Qed.

Lemma bn_msb_bit_length_witness :
  exists z,
    bn_clz (Some 1%positive) (heap3 [5; 6; 0] 1 [3] 0 [0] 0)
      = Some (z, heap3 [5; 6; 0] 1 [3] 0 [0] 0)
    /\ bn_msb (Some 1%positive) (heap3 [5; 6; 0] 1 [3] 0 [0] 0)
       = Some (32 * Z.of_nat (length [5; 6; 0]) - z, heap3 [5; 6; 0] 1 [3] 0 [0] 0)
    /\ 0 <= z <= 32 * Z.of_nat (length [5; 6; 0])
    /\ value [5; 6; 0] < 2 ^ (32 * Z.of_nat (length [5; 6; 0]) - z)
    /\ (0 < value [5; 6; 0] ->
        2 ^ (32 * Z.of_nat (length [5; 6; 0]) - z - 1) <= value [5; 6; 0])
    /\ (value [5; 6; 0] = 0 -> z = 32 * Z.of_nat (length [5; 6; 0])).
Proof.
  apply (bn_msb_bit_length (heap3 [5; 6; 0] 1 [3] 0 [0] 0) 1 [5; 6; 0] 1).
  - reflexivity.
  - repeat constructor; lia.
  - simpl. lia.
Defined.

(** ** [bn_resize] *)

(** Writing the object and the array of [c] leaves the other [bn] objects
    as they are. *)
Lemma view_other m c qc lc gc s' l' p :
  exclusive m -> owns m c qc lc gc -> p <> c ->
  view (Mem (<[c := s']> (structs m)) (<[qc := l']> (bufs m))) (Some p)
  = view m (Some p).
Proof.
  intros Hx [Hc _] Hne. apply view_agree; cbn [structs bufs].
  - apply lookup_insert_ne. congruence.
  - intros s q Hs N. apply lookup_insert_ne. intros ->.
    apply Hne. exact (Hx _ _ _ _ q Hs Hc N eq_refl).
Qed.

Lemma value_take_mod l n :
  limbs_ok l -> value (take n l) = value l mod 2 ^ (32 * Z.of_nat n).
Proof.
  intros Hl.
  destruct (decide (length l <= n)%nat) as [Hle|Hgt].
  - rewrite take_ge by lia. symmetry. apply Z.mod_small.
    pose proof (value_range l Hl) as [V0 V1]. split; [exact V0 |].
    eapply Z.lt_le_trans; [exact V1 |]. apply Z.pow_le_mono_r; lia.
  - rewrite <- (take_drop n l) at 2. rewrite value_app, length_take.
    replace (n `min` length l)%nat with n by lia.
    pose proof (value_range _ (limbs_ok_take l n Hl)) as R.
    rewrite length_take in R. replace (n `min` length l)%nat with n in R by lia.
    rewrite Z.mul_comm, Z.mod_add by lia. symmetry. apply Z.mod_small. exact R.
Qed.

(** X7.  A granted shrink to [n] limbs keeps the low [n] limbs and drops
    the rest without looking at them: the magnitude becomes the old one
    modulo [2 ^ (32 * n)], the sign stays, no other [bn] changes. *)
Theorem bn_resize_shrink_truncates (ok : Z -> bool) (stale : Z -> Z) (m : mem)
    (c : positive) (l : list Z) (g n : Z) :
  exclusive m ->
  view m (Some c) = Some (l, Z.of_nat (length l), g) ->
  limbs_ok l -> 0 < n <= Z.of_nat (length l) -> Z.of_nat (length l) < 2 ^ 32 ->
  ok n = true ->
  exists m',
    bn_resize ok stale (Some c) n m = Some (0, m')
    /\ view m' (Some c) = Some (take (Z.to_nat n) l, n, g)
    /\ value (take (Z.to_nat n) l) = value l mod 2 ^ (32 * n)
    /\ (forall p, p <> c -> view m' (Some p) = view m (Some p)).
Proof.
  intros Hx Hv Hl Hn Hb Hok. destruct (view_owns _ _ _ _ Hv) as [q Ho].
  eexists. split; [apply (bn_resize_owns ok stale _ _ _ _ _ _ Ho); [lia | exact Hok] |].
  split; [| split].
  - unfold view. cbn [structs bufs]. rewrite lookup_insert_eq. cbn [number size sign].
    rewrite lookup_insert_eq, resize_le by lia. reflexivity.
  - rewrite value_take_mod by exact Hl. rewrite Z2Nat.id by lia. reflexivity.
  - intros p Hp. apply (view_other _ _ _ _ _ _ _ _ Hx Ho Hp).
Qed.

Lemma bn_resize_shrink_truncates_witness :
  exists m',
    bn_resize always_granted no_stale (Some 1%positive) 2 (heap3 [5; 6; 7] 1 [3] 0 [0] 0)
      = Some (0, m')
    /\ view m' (Some 1%positive) = Some (take (Z.to_nat 2) [5; 6; 7], 2, 1)
    /\ value (take (Z.to_nat 2) [5; 6; 7]) = value [5; 6; 7] mod 2 ^ (32 * 2)
    /\ (forall p, p <> 1%positive ->
          view m' (Some p) = view (heap3 [5; 6; 7] 1 [3] 0 [0] 0) (Some p)).
Proof.
  apply (bn_resize_shrink_truncates always_granted no_stale
           (heap3 [5; 6; 7] 1 [3] 0 [0] 0) 1 [5; 6; 7] 1 2).
  - apply exclusive_heap3.
  - reflexivity.
  - repeat constructor; lia.
  - simpl. lia.
  - simpl. lia.
  - reflexivity.
Defined.



(** X9.  Shrinking a [bn] to [n] limbs and growing it back does not bring
    the dropped limbs back: the limbs from [n] up read zero. *)
Theorem bn_resize_shrink_grow_zeroes (ok : Z -> bool) (stale : Z -> Z) (m : mem)
    (c : positive) (l : list Z) (g n : Z) :
  view m (Some c) = Some (l, Z.of_nat (length l), g) ->
  0 < n <= Z.of_nat (length l) -> Z.of_nat (length l) < 2 ^ 32 ->
  ok n = true -> ok (Z.of_nat (length l)) = true ->
  exists m',
    (bn_resize ok stale (Some c) n ;;;
     bn_resize ok stale (Some c) (Z.of_nat (length l))) m = Some (0, m')
    /\ view m' (Some c)
       = Some (take (Z.to_nat n) l ++ replicate (length l - Z.to_nat n) 0,
               Z.of_nat (length l), g).
Proof.
  intros Hv Hn Hb Hok Hok'. destruct (view_owns _ _ _ _ Hv) as [q Ho].
  erewrite bind_Some
    by (apply (bn_resize_owns ok stale _ _ _ _ _ _ Ho); [lia | exact Hok]).
  pose proof (owns_resized m c q l g (Z.to_nat n)) as Ho1.
  rewrite Z2Nat.id in Ho1 by lia.
  rewrite (bn_resize_owns ok stale _ _ _ _ _ _ Ho1) by (try lia; exact Hok').
  eexists. split; [reflexivity |].
  unfold view. cbn [structs bufs]. rewrite lookup_insert_eq. cbn [number size sign].
  rewrite lookup_insert_eq, Nat2Z.id.
  rewrite (resize_le l (Z.to_nat n)) by lia.
  rewrite resize_ge by (rewrite length_take; lia).
  rewrite length_take. replace (Z.to_nat n `min` length l)%nat with (Z.to_nat n) by lia.
  reflexivity.
Qed.

Lemma bn_resize_shrink_grow_zeroes_witness :
  exists m',
    (bn_resize always_granted no_stale (Some 1%positive) 1 ;;;
     bn_resize always_granted no_stale (Some 1%positive) (Z.of_nat (length [5; 6; 7])))
      (heap3 [5; 6; 7] 1 [3] 0 [0] 0) = Some (0, m')
    /\ view m' (Some 1%positive)
       = Some (take (Z.to_nat 1) [5; 6; 7] ++ replicate (length [5; 6; 7] - Z.to_nat 1) 0,
               Z.of_nat (length [5; 6; 7]), 1).
Proof.
  apply (bn_resize_shrink_grow_zeroes always_granted no_stale
           (heap3 [5; 6; 7] 1 [3] 0 [0] 0) 1 [5; 6; 7] 1 1).
  - reflexivity.
  - simpl. lia.
  - simpl. lia.
  - reflexivity.
  - reflexivity.
Defined.

(** X10.  When [krealloc] refuses, [bn_resize] answers [-1] having already
    overwritten [number] with [NULL]: the [bn] keeps its size and sign but
    has no limbs any more, and its old array stays allocated with nothing
    pointing to it, also after the [bn] is freed. *)
Theorem bn_resize_refused_loses_array (ok : Z -> bool) (stale : Z -> Z) (m : mem)
    (c q : positive) (l : list Z) (g n : Z) :
  owns m c q l g ->
  n <> Z.of_nat (length l) -> n <> 0 -> ok n = false ->
  bn_resize ok stale (Some c) n m
    = Some (-1, Mem (<[c := Bn None (Z.of_nat (length l)) g]> (structs m)) (bufs m))
  /\ view (Mem (<[c := Bn None (Z.of_nat (length l)) g]> (structs m)) (bufs m)) (Some c)
     = None
  /\ (bn_resize ok stale (Some c) n ;;; bn_free (Some c)) m
     = Some (0, Mem (delete c (structs m)) (bufs m))
  /\ bufs m !! q = Some l.
Proof.
  intros Ho Hn H0 Hok. pose proof Ho as [Hs Hq].
  assert (R : bn_resize ok stale (Some c) n m
              = Some (-1, Mem (<[c := Bn None (Z.of_nat (length l)) g]> (structs m)) (bufs m))).
  { unfold bn_resize. run_deref Ho. cbn [number size sign].
    destruct (Z.eqb_spec n (Z.of_nat (length l))) as [E|_]; [contradiction |].
    destruct (Z.eqb_spec n 0) as [E|_]; [contradiction |].
    unfold bind at 1. unfold krealloc. rewrite Hok.
    erewrite bind_Some by (apply set_number_live; exact Hs). reflexivity. }
  split; [exact R |]. split; [| split; [| exact Hq]].
  - unfold view. cbn [structs]. rewrite lookup_insert_eq. reflexivity.
  - run R. unfold bn_free, bind, deref, kfree_limbs, kfree_bn, ret. cbn [structs bufs].
    rewrite lookup_insert_eq. cbn [number structs bufs]. rewrite lookup_insert_eq.
    rewrite delete_insert_eq. reflexivity.
Qed.

Lemma bn_resize_refused_loses_array_witness :
  bn_resize (fun _ => false) no_stale (Some 1%positive) 5 (heap3 [5; 6] 1 [3] 0 [0] 0)
    = Some (-1, Mem (<[1%positive := Bn None (Z.of_nat (length [5; 6])) 1]>
                       (structs (heap3 [5; 6] 1 [3] 0 [0] 0)))
                    (bufs (heap3 [5; 6] 1 [3] 0 [0] 0)))
  /\ view (Mem (<[1%positive := Bn None (Z.of_nat (length [5; 6])) 1]>
                  (structs (heap3 [5; 6] 1 [3] 0 [0] 0)))
               (bufs (heap3 [5; 6] 1 [3] 0 [0] 0))) (Some 1%positive)
     = None
  /\ (bn_resize (fun _ => false) no_stale (Some 1%positive) 5 ;;; bn_free (Some 1%positive))
       (heap3 [5; 6] 1 [3] 0 [0] 0)
     = Some (0, Mem (delete 1%positive (structs (heap3 [5; 6] 1 [3] 0 [0] 0)))
                    (bufs (heap3 [5; 6] 1 [3] 0 [0] 0)))
  /\ bufs (heap3 [5; 6] 1 [3] 0 [0] 0) !! 11%positive = Some [5; 6].
Proof.
  apply (bn_resize_refused_loses_array (fun _ => false) no_stale
           (heap3 [5; 6] 1 [3] 0 [0] 0) 1 11 [5; 6] 1 5).
  - split; reflexivity.
  - simpl. lia.
  - lia.
  - reflexivity.
Defined.

(** ** [bn_cmp] *)

Lemma cmp_top_antisym la lb : forall n, cmp_top n lb la = - cmp_top n la lb.
Proof.
  induction n as [|n IH]; simpl; [reflexivity |].
  rewrite (Z.eqb_sym (limb lb (Z.of_nat n))).
  destruct (Z.eqb_spec (limb la (Z.of_nat n)) (limb lb (Z.of_nat n))) as [E|E]; cbn [negb].
  - exact IH.
  - destruct (Z.ltb_spec (limb lb (Z.of_nat n)) (limb la (Z.of_nat n)));
      destruct (Z.ltb_spec (limb la (Z.of_nat n)) (limb lb (Z.of_nat n))); lia.
Qed.

Lemma cmp_top_range la lb : forall n,
  cmp_top n la lb = 1 \/ cmp_top n la lb = 0 \/ cmp_top n la lb = -1.
Proof.
  induction n as [|n IH]; simpl; [tauto |].
  destruct (negb _); [| exact IH]. destruct (_ <? _); tauto.
Qed.

Lemma cmp_top_zero la lb : forall n,
  cmp_top n la lb = 0 <->
  forall i, (i < n)%nat -> limb la (Z.of_nat i) = limb lb (Z.of_nat i).
Proof.
  induction n as [|n IH]; simpl.
  - split; [intros _ i Hi; lia | reflexivity].
  - destruct (Z.eqb_spec (limb la (Z.of_nat n)) (limb lb (Z.of_nat n))) as [E|E]; cbn [negb].
    + rewrite IH. split.
      * intros H i Hi. destruct (decide (i = n)) as [->|]; [exact E | apply H; lia].
      * intros H i Hi. apply H. lia.
    + split.
      * destruct (_ <? _); discriminate.
      * intros H. exfalso. apply E, H. lia.
Qed.

Lemma limbs_eq (la lb : list Z) :
  length la = length lb ->
  (forall i, (i < length la)%nat -> limb la (Z.of_nat i) = limb lb (Z.of_nat i)) ->
  la = lb.
Proof.
  intros Hlen H. apply list_eq. intros i.
  destruct (decide (i < length la)%nat) as [Hi|Hi].
  - destruct (lookup_lt_is_Some_2 la i) as [x Hx]; [lia |].
    destruct (lookup_lt_is_Some_2 lb i) as [y Hy]; [lia |].
    specialize (H i Hi). rewrite (limb_lookup _ _ _ Hx), (limb_lookup _ _ _ Hy) in H.
    congruence.
  - rewrite !lookup_ge_None_2 by lia. reflexivity.
Qed.

(** X11.  [bn_cmp] reads and never writes; it answers [1], [0] or [-1],
    exchanging the operands negates the answer, [0] means the same limbs,
    and when the sizes differ the limbs are not looked at: the shorter first
    operand gets [1]. *)
Theorem bn_cmp_antisymmetric (m : mem) (a b : positive) (la lb : list Z) (ga gb : Z) :
  view m (Some a) = Some (la, Z.of_nat (length la), ga) ->
  view m (Some b) = Some (lb, Z.of_nat (length lb), gb) ->
  Z.of_nat (length la) < 2 ^ 31 -> Z.of_nat (length lb) < 2 ^ 31 ->
  exists r,
    bn_cmp (Some a) (Some b) m = Some (r, m)
    /\ bn_cmp (Some b) (Some a) m = Some (- r, m)
    /\ (r = 1 \/ r = 0 \/ r = -1)
    /\ (r = 0 <-> la = lb)
    /\ ((length la < length lb)%nat -> r = 1)
    /\ ((length lb < length la)%nat -> r = -1).
Proof.
  intros Va Vb La Lb.
  destruct (view_owns _ _ _ _ Va) as [qa Ha].
  destruct (view_owns _ _ _ _ Vb) as [qb Hb].
  exists (cmp_limbs la lb).
  split; [exact (bn_cmp_owns _ _ _ _ _ _ _ _ _ Ha Hb La) |].
  split.
  { rewrite (bn_cmp_owns _ _ _ _ _ _ _ _ _ Hb Ha Lb). do 2 f_equal.
    unfold cmp_limbs. rewrite (Z.eqb_sym (Z.of_nat (length lb))).
    destruct (Z.eqb_spec (Z.of_nat (length la)) (Z.of_nat (length lb))) as [E|E]; cbn [negb].
    - replace (length lb) with (length la) by lia. apply cmp_top_antisym.
    - destruct (Z.ltb_spec (Z.of_nat (length lb)) (Z.of_nat (length la)));
        destruct (Z.ltb_spec (Z.of_nat (length la)) (Z.of_nat (length lb))); lia. }
  unfold cmp_limbs.
  destruct (Z.eqb_spec (Z.of_nat (length la)) (Z.of_nat (length lb))) as [E|E]; cbn [negb].
  - split; [apply cmp_top_range |]. split; [| split; intros; lia].
    rewrite cmp_top_zero. split.
    + intros H. apply limbs_eq; [lia | exact H].
    + intros -> i _. reflexivity.
  - destruct (Z.ltb_spec (Z.of_nat (length la)) (Z.of_nat (length lb))).
    + split; [tauto |]. split; [| split; intros; lia].
      split; [discriminate | intros ->; lia].
    + split; [tauto |]. split; [| split; intros; lia].
      split; [discriminate | intros ->; lia].
Qed.

Lemma bn_cmp_antisymmetric_witness :
  exists r,
    bn_cmp (Some 1%positive) (Some 2%positive) (heap3 [5; 0] 1 [7] 0 [0] 0)
      = Some (r, heap3 [5; 0] 1 [7] 0 [0] 0)
    /\ bn_cmp (Some 2%positive) (Some 1%positive) (heap3 [5; 0] 1 [7] 0 [0] 0)
       = Some (- r, heap3 [5; 0] 1 [7] 0 [0] 0)
    /\ (r = 1 \/ r = 0 \/ r = -1)
    /\ (r = 0 <-> [5; 0] = [7])
    /\ ((length [5; 0]%Z < length [7]%Z)%nat -> r = 1)
    /\ ((length [7]%Z < length [5; 0]%Z)%nat -> r = -1).
Proof.
  apply (bn_cmp_antisymmetric (heap3 [5; 0] 1 [7] 0 [0] 0) 1 2 [5; 0] [7] 1 0).
  - reflexivity.
  - reflexivity.
  - simpl. lia.
  - simpl. lia.
Defined.

(** On normalized limbs [cmp_limbs] is [1] for the smaller first operand,
    [-1] for the larger, [0] for equal magnitudes. *)
Lemma cmp_limbs_order la lb :
  limbs_ok la -> limbs_ok lb -> normalized la -> normalized lb ->
  (cmp_limbs la lb = 1 /\ value la < value lb)
  \/ (cmp_limbs la lb = -1 /\ value lb < value la)
  \/ (cmp_limbs la lb = 0 /\ value la = value lb).
Proof.
  intros Hla Hlb Na Nb. unfold cmp_limbs.
  pose proof (normalized_length _ Na). pose proof (normalized_length _ Nb).
  pose proof (value_range la Hla) as [A0 A1]. pose proof (value_range lb Hlb) as [B0 B1].
  destruct (Z.eqb_spec (Z.of_nat (length la)) (Z.of_nat (length lb))) as [E|E]; cbn [negb].
  - pose proof (cmp_top_order la lb Hla Hlb (length la)) as Ho.
    rewrite !weigh_take in Ho. rewrite (take_ge la), (take_ge lb) in Ho by lia.
    exact Ho.
  - destruct (Z.ltb_spec (Z.of_nat (length la)) (Z.of_nat (length lb))) as [L|L].
    + left. split; [reflexivity |].
      assert (Hnb : limb lb (Z.of_nat (length lb) - 1) <> 0) by (destruct Nb; [lia | assumption]).
      destruct (length lb) as [|k] eqn:Ek; [lia |].
      replace (Z.of_nat (S k) - 1) with (Z.of_nat k) in Hnb by lia.
      pose proof (value_top_lower lb k Hlb Ek Hnb).
      assert (2 ^ (32 * Z.of_nat (length la)) <= 2 ^ (32 * Z.of_nat k))
        by (apply Z.pow_le_mono_r; lia).
      lia.
    + right. left. split; [reflexivity |].
      assert (Hna : limb la (Z.of_nat (length la) - 1) <> 0) by (destruct Na; [lia | assumption]).
      destruct (length la) as [|k] eqn:Ek; [lia |].
      replace (Z.of_nat (S k) - 1) with (Z.of_nat k) in Hna by lia.
      pose proof (value_top_lower la k Hla Ek Hna).
      assert (2 ^ (32 * Z.of_nat (length lb)) <= 2 ^ (32 * Z.of_nat k))
        by (apply Z.pow_le_mono_r; lia).
      lia.
Qed.

(** X12.  On normalized operands [bn_cmp] decides the order of the
    magnitudes: it answers [1] exactly when [|a| < |b|], [-1] exactly when
    [|a| > |b|] and [0] exactly when they are equal. *)
Theorem bn_cmp_orders_magnitudes (m : mem) (a b : positive) (la lb : list Z)
    (ga gb : Z) :
  view m (Some a) = Some (la, Z.of_nat (length la), ga) ->
  view m (Some b) = Some (lb, Z.of_nat (length lb), gb) ->
  limbs_ok la -> limbs_ok lb -> normalized la -> normalized lb ->
  Z.of_nat (length la) < 2 ^ 31 ->
  exists r,
    bn_cmp (Some a) (Some b) m = Some (r, m)
    /\ (r = 1 <-> value la < value lb)
    /\ (r = -1 <-> value lb < value la)
    /\ (r = 0 <-> value la = value lb).
Proof.
  intros Va Vb Hla Hlb Na Nb La.
  destruct (view_owns _ _ _ _ Va) as [qa Ha].
  destruct (view_owns _ _ _ _ Vb) as [qb Hb].
  exists (cmp_limbs la lb).
  split; [exact (bn_cmp_owns _ _ _ _ _ _ _ _ _ Ha Hb La) |].
  destruct (cmp_limbs_order la lb Hla Hlb Na Nb) as [[-> H]|[[-> H]|[-> H]]];
    repeat split; intros; lia.
Qed.

Lemma bn_cmp_orders_magnitudes_witness :
  exists r,
    bn_cmp (Some 1%positive) (Some 2%positive) (heap3 [5; 6] 1 [7; 6] 0 [0] 0)
      = Some (r, heap3 [5; 6] 1 [7; 6] 0 [0] 0)
    /\ (r = 1 <-> value [5; 6] < value [7; 6])
    /\ (r = -1 <-> value [7; 6] < value [5; 6])
    /\ (r = 0 <-> value [5; 6] = value [7; 6]).
Proof.
  apply (bn_cmp_orders_magnitudes (heap3 [5; 6] 1 [7; 6] 0 [0] 0) 1 2 [5; 6] [7; 6] 1 0).
  - reflexivity.
  - reflexivity.
  - repeat constructor; lia.
  - repeat constructor; lia.
  - right. simpl. unfold limb. simpl. lia.
  - right. simpl. unfold limb. simpl. lia.
  - simpl. lia.
Defined.

(** ** [bn_do_add] and [bn_do_sub] *)

Lemma limbs_out_comm f n : (forall t1 t2 k, f t1 t2 k = f t2 t1 k) ->
  forall xa xb i k, limbs_out f n xa xb i k = limbs_out f n xb xa i k.
Proof.
  intros Hf. induction n as [|n IH]; intros xa xb i k; simpl; [reflexivity |].
  rewrite (Hf (xa i) (xb i) k). f_equal. apply IH.
Qed.

Lemma add_step_comm t1 t2 k : add_step t1 t2 k = add_step t2 t1 k.
Proof. unfold add_step. rewrite (Z.add_comm t1 t2). reflexivity. Qed.

Lemma add_digits_comm la lb : add_digits la lb = add_digits lb la.
Proof. unfold add_digits. rewrite Z.max_comm. reflexivity. Qed.

Lemma add_limbs_comm n la lb : add_limbs n la lb = add_limbs n lb la.
Proof. apply limbs_out_comm, add_step_comm. Qed.




Section Magnitudes.

Variable ok : Z -> bool.
Variable stale : Z -> Z.
Hypothesis granted : forall n, ok n = true.

(** X13.  [bn_do_add] does not depend on the order of its operands: with
    [a] and [b] exchanged it leaves the same heap. *)
Theorem bn_do_add_commutes (m : mem) (a b c : positive) (la lb lc : list Z)
    (ga gb gc : Z) :
  exclusive m ->
  view m (Some a) = Some (la, Z.of_nat (length la), ga) ->
  view m (Some b) = Some (lb, Z.of_nat (length lb), gb) ->
  view m (Some c) = Some (lc, Z.of_nat (length lc), gc) ->
  limbs_ok la -> limbs_ok lb ->
  Z.of_nat (length la) < 2 ^ 25 -> Z.of_nat (length lb) < 2 ^ 25 ->
  exists m',
    bn_do_add ok stale (Some a) (Some b) (Some c) m = Some (tt, m')
    /\ bn_do_add ok stale (Some b) (Some a) (Some c) m = Some (tt, m').
Proof.
  intros Hx Va Vb Vc Hla Hlb La Lb.
  destruct (view_owns _ _ _ _ Va) as [qa Ha].
  destruct (view_owns _ _ _ _ Vb) as [qb Hb].
  destruct (view_owns _ _ _ _ Vc) as [qc Hc].
  pose proof (exclusive_owns _ _ _ _ _ _ _ _ _ Hx Ha Hc) as Sa.
  pose proof (exclusive_owns _ _ _ _ _ _ _ _ _ Hx Hb Hc) as Sb.
  eexists. split.
  - exact (bn_do_add_owns ok stale granted _ _ _ _ _ _ _ _ _ _ _ _ _
             Ha Hb Hc Sa Sb Hla Hlb La Lb).
  - rewrite (bn_do_add_owns ok stale granted _ _ _ _ _ _ _ _ _ _ _ _ _
               Hb Ha Hc Sb Sa Hlb Hla Lb La).
    rewrite (add_digits_comm lb la), (add_limbs_comm _ lb la). reflexivity.
Qed.


(** X15.  [bn_do_sub] does not check [|a| >= |b|]: with [|a| < |b|] it
    returns all the same and leaves the difference wrapped around, that is
    [|a| - |b| + 2 ^ (32 * max (a.size, b.size))], trimmed. *)
Theorem bn_do_sub_wraps (m : mem) (a b c : positive) (la lb lc : list Z)
    (ga gb gc : Z) :
  exclusive m ->
  view m (Some a) = Some (la, Z.of_nat (length la), ga) ->
  view m (Some b) = Some (lb, Z.of_nat (length lb), gb) ->
  view m (Some c) = Some (lc, Z.of_nat (length lc), gc) ->
  limbs_ok la -> limbs_ok lb ->
  Z.of_nat (length la) < 2 ^ 25 -> Z.of_nat (length lb) < 2 ^ 25 ->
  value la < value lb ->
  exists m' r,
    bn_do_sub ok stale (Some a) (Some b) (Some c) m = Some (tt, m')
    /\ view m' (Some c) = Some (r, Z.of_nat (length r), gc)
    /\ value r
       = value la - value lb + 2 ^ (32 * Z.of_nat (length la `max` length lb))
    /\ normalized r.
Proof.
  intros Hx Va Vb Vc Hla Hlb La Lb Hlt.
  destruct (view_owns _ _ _ _ Va) as [qa Ha].
  destruct (view_owns _ _ _ _ Vb) as [qb Hb].
  destruct (view_owns _ _ _ _ Vc) as [qc Hc].
  pose proof (exclusive_owns _ _ _ _ _ _ _ _ _ Hx Ha Hc) as Sa.
  pose proof (exclusive_owns _ _ _ _ _ _ _ _ _ Hx Hb Hc) as Sb.
  assert (Nb : (1 <= length lb)%nat).
  { destruct lb; [| simpl; lia]. pose proof (value_range la Hla). simpl in Hlt. lia. }
  set (n := (length la `max` length lb)%nat).
  eexists _, (trim_zeros (sub_limbs n la lb)). split.
  { exact (bn_do_sub_owns ok stale granted _ _ _ _ _ _ _ _ _ _ _ _ _
             Ha Hb Hc Sa Sb Hla Hlb La Lb ltac:(lia)). }
  split; [apply (owns_view _ c qc); split; cbn [structs bufs]; apply lookup_insert_eq |].
  split.
  - rewrite trim_zeros_value.
    destruct (limbs_out_value (-1) sub_step sub_step_law n (limb la) (limb lb) 0 0
                (limb_range_all la Hla) (limb_range_all lb Hlb) ltac:(lia))
      as (Hok & Hcr & Hv).
    fold (sub_limbs n la lb) in *.
    rewrite !weigh_take in Hv.
    rewrite (take_ge la) in Hv by lia. rewrite (take_ge lb) in Hv by lia.
    pose proof (value_range _ Hok) as Hr.
    unfold sub_limbs in Hr. rewrite length_limbs_out in Hr. fold (sub_limbs n la lb) in Hr.
    set (P := 2 ^ (32 * Z.of_nat n)) in *. set (C := carry_out _ _ _ _ _ _) in *.
    assert (C = 1) by nia. lia.
  - apply trim_zeros_normalized. unfold sub_limbs. rewrite length_limbs_out. lia.
Qed.

End Magnitudes.

Lemma bn_do_add_commutes_witness :
  exists m',
    bn_do_add always_granted no_stale (Some 1%positive) (Some 2%positive) (Some 2%positive)
      (heap3 [4294967295; 7] 0 [1] 0 [0] 0) = Some (tt, m')
    /\ bn_do_add always_granted no_stale (Some 2%positive) (Some 1%positive) (Some 2%positive)
         (heap3 [4294967295; 7] 0 [1] 0 [0] 0) = Some (tt, m').
Proof.
  apply (bn_do_add_commutes always_granted no_stale (fun _ => eq_refl)
           (heap3 [4294967295; 7] 0 [1] 0 [0] 0) 1 2 2
           [4294967295; 7] [1] [1] 0 0 0).
  - apply exclusive_heap3.
  - reflexivity.
  - reflexivity.
  - reflexivity.
  - repeat constructor; lia.
  - repeat constructor; lia.
  - simpl. lia.
  - simpl. lia.
Defined.


Lemma bn_do_sub_wraps_witness :
  exists m' r,
    bn_do_sub always_granted no_stale (Some 1%positive) (Some 2%positive) (Some 3%positive)
      (heap3 [3] 0 [5; 1] 0 [0] 0) = Some (tt, m')
    /\ view m' (Some 3%positive) = Some (r, Z.of_nat (length r), 0)
    /\ value r
       = value [3] - value [5; 1] + 2 ^ (32 * Z.of_nat (length [3] `max` length [5; 1]))
    /\ normalized r.
Proof.
  apply (bn_do_sub_wraps always_granted no_stale (fun _ => eq_refl)
           (heap3 [3] 0 [5; 1] 0 [0] 0) 1 2 3 [3] [5; 1] [0] 0 0 0).
  - apply exclusive_heap3.
  - reflexivity.
  - reflexivity.
  - reflexivity.
  - repeat constructor; lia.
  - repeat constructor; lia.
  - simpl. lia.
  - simpl. lia.
  - simpl. lia.
Defined.

(** ** [bn_add] *)

Lemma signed_result_limbs la lb :
  limbs_ok la -> limbs_ok lb -> normalized la -> normalized lb ->
  let n := (length la `max` length lb)%nat in
  (value la < value lb
   /\ signed_result la lb = (trim_zeros (sub_limbs n la lb), 0))
  \/ (value lb < value la
      /\ signed_result la lb = (trim_zeros (sub_limbs n lb la), 1))
  \/ (value la = value lb /\ signed_result la lb = ([0], 0)).
Proof.
  intros Hla Hlb Na Nb n. unfold signed_result. fold n.
  destruct (cmp_limbs_order la lb Hla Hlb Na Nb) as [[-> H]|[[-> H]|[-> H]]]; cbn; tauto.
Qed.

Lemma add_result_comm la ga lb gb :
  (ga = 0 \/ ga = 1) -> (gb = 0 \/ gb = 1) ->
  add_result lb gb la ga = add_result la ga lb gb.
Proof.
  intros Ga Gb. unfold add_result.
  rewrite (add_digits_comm lb la), (add_limbs_comm _ lb la).
  destruct Ga as [-> | ->], Gb as [-> | ->]; reflexivity.
Qed.

Section Sums.

Variable ok : Z -> bool.
Variable stale : Z -> Z.
Hypothesis granted : forall n, ok n = true.

(** Lines 169-183 with the heap they leave. *)
Lemma bn_add_signed_mem m a qa la ga b qb lb gb c qc lc gc :
  exclusive m ->
  owns m a qa la ga -> owns m b qb lb gb -> owns m c qc lc gc ->
  limbs_ok la -> limbs_ok lb ->
  (1 <= length la)%nat -> (1 <= length lb)%nat ->
  Z.of_nat (length la) < 2 ^ 25 -> Z.of_nat (length lb) < 2 ^ 25 ->
  (cmp <- bn_cmp (Some a) (Some b) ;;
   if 0 <? cmp then
     bn_do_sub ok stale (Some a) (Some b) (Some c) ;;;
     set_sign (Some c) 0
   else if cmp <? 0 then
     bn_do_sub ok stale (Some b) (Some a) (Some c) ;;;
     set_sign (Some c) 1
   else
     bn_resize ok stale (Some c) 1 ;;;
     sc <- deref (Some c) ;;
     store (number sc) 0 0 ;;;
     set_sign (Some c) 0) m
  = Some (tt, Mem (<[c := Bn (Some qc) (Z.of_nat (length (signed_result la lb).1))
                           (signed_result la lb).2]> (structs m))
                  (<[qc := (signed_result la lb).1]> (bufs m))).
Proof.
  intros Hx Ha Hb Hc Hla Hlb Na Nb La Lb.
  pose proof (exclusive_owns _ _ _ _ _ _ _ _ _ Hx Ha Hc) as Sa.
  pose proof (exclusive_owns _ _ _ _ _ _ _ _ _ Hx Hb Hc) as Sb.
  run (bn_cmp_owns _ _ _ _ _ _ _ _ _ Ha Hb ltac:(lia)).
  unfold signed_result.
  destruct (0 <? cmp_limbs la lb); [| destruct (cmp_limbs la lb <? 0)]; cbn [fst snd].
  - run
      (bn_do_sub_owns ok stale granted _ _ _ _ _ _ _ _ _ _ _ _ _ Ha Hb Hc Sa Sb Hla Hlb La Lb
         ltac:(lia)).
    erewrite set_sign_live by (cbn [structs]; apply lookup_insert_eq).
    cbn [structs bufs number size sign]. rewrite insert_insert_eq. reflexivity.
  - rewrite (Nat.max_comm (length la) (length lb)).
    run
      (bn_do_sub_owns ok stale granted _ _ _ _ _ _ _ _ _ _ _ _ _ Hb Ha Hc Sb Sa Hlb Hla Lb La
         ltac:(lia)).
    erewrite set_sign_live by (cbn [structs]; apply lookup_insert_eq).
    cbn [structs bufs number size sign]. rewrite insert_insert_eq. reflexivity.
  - erewrite bind_Some
      by (apply (bn_resize_owns ok stale _ _ _ _ _ _ Hc); [lia | apply granted]).
    change (Z.to_nat 1) with 1%nat.
    pose proof (owns_resized m c qc lc gc 1) as Hc1. change (Z.of_nat 1) with 1 in Hc1.
    run_deref Hc1. cbn [number].
    erewrite bind_Some
      by (apply store_live; [apply Hc1 | rewrite length_resize; lia]).
    erewrite set_sign_live by (cbn [structs]; apply lookup_insert_eq).
    cbn [structs bufs number size sign]. rewrite !insert_insert_eq.
    assert (E : <[Z.to_nat 0 := 0]> (resize 1 0 lc) = [0]).
    { destruct lc as [|z lc]; cbn; [reflexivity |]. rewrite resize_0. reflexivity. }
    rewrite E. reflexivity.
Qed.

(** [bn_add] with the heap it leaves: the objects as they are after the
    swap of line 168, if it is taken, and then the destination rewritten. *)
Lemma bn_add_mem m a qa la ga b qb lb gb c qc lc gc :
  exclusive m ->
  owns m a qa la ga -> owns m b qb lb gb -> owns m c qc lc gc ->
  limbs_ok la -> limbs_ok lb ->
  (1 <= length la)%nat -> (1 <= length lb)%nat ->
  Z.of_nat (length la) < 2 ^ 25 -> Z.of_nat (length lb) < 2 ^ 25 ->
  exists S' qc' lc' gc',
    bn_add ok stale (Some a) (Some b) (Some c) m
    = Some (tt, Mem (<[c := Bn (Some qc') (Z.of_nat (length (add_result la ga lb gb).1))
                             (add_result la ga lb gb).2]> S')
                    (<[qc' := (add_result la ga lb gb).1]> (bufs m)))
    /\ owns (Mem S' (bufs m)) c qc' lc' gc'
    /\ exclusive (Mem S' (bufs m))
    /\ S' = if (ga =? gb) || (ga =? 0) then structs m
            else <[b := Bn (Some qa) (Z.of_nat (length la)) ga]>
                   (<[a := Bn (Some qb) (Z.of_nat (length lb)) gb]> (structs m)).
Proof.
  intros Hx Ha Hb Hc Hla Hlb Na Nb La Lb. unfold bn_add, add_result.
  run_deref Ha. run_deref Hb. cbn [sign].
  destruct (Z.eqb_spec ga gb) as [E|E]; cbn [orb].
  - exists (structs m), qc, lc, gc. rewrite mem_eta.
    split; [| split; [exact Hc | split; [exact Hx | reflexivity]]].
    pose proof (exclusive_owns _ _ _ _ _ _ _ _ _ Hx Ha Hc) as Sa.
    pose proof (exclusive_owns _ _ _ _ _ _ _ _ _ Hx Hb Hc) as Sb.
    run
      (bn_do_add_owns ok stale granted _ _ _ _ _ _ _ _ _ _ _ _ _ Ha Hb Hc Sa Sb Hla Hlb La Lb).
    set (r := trim_top _).
    set (m1 := Mem (<[c := Bn (Some qc) (Z.of_nat (length r)) gc]> (structs m))
                   (<[qc := r]> (bufs m))).
    assert (Hsa : exists sa, structs m1 !! a = Some sa /\ sign sa = ga).
    { destruct (decide (a = c)) as [->|Hne].
      - exists (Bn (Some qc) (Z.of_nat (length r)) gc). split.
        + apply lookup_insert_eq.
        + destruct Ha as [Hs _], Hc as [Hcs _]. rewrite Hs in Hcs. cbn. congruence.
      - exists (Bn (Some qa) (Z.of_nat (length la)) ga). split; [| reflexivity].
        cbn [m1 structs]. rewrite lookup_insert_ne by congruence. apply Ha. }
    destruct Hsa as (sa & Hsa & Hg).
    assert (Hda : deref (Some a) m1 = Some (sa, m1)) by (unfold deref; rewrite Hsa; reflexivity).
    run Hda. rewrite Hg.
    erewrite set_sign_live by (cbn [m1 structs]; apply lookup_insert_eq).
    cbn [m1 structs bufs number size sign fst snd]. rewrite insert_insert_eq. reflexivity.
  - assert (Hab : a <> b).
    { intros ->. destruct Ha as [Hs _], Hb as [Hs' _]. rewrite Hs in Hs'. congruence. }
    destruct (Z.eqb_spec ga 0) as [E0|E0]; cbn [negb].
    + exists (structs m), qc, lc, gc. rewrite mem_eta.
      split; [| split; [exact Hc | split; [exact Hx | reflexivity]]].
      unfold ret at 1. unfold bind at 1.
      exact (bn_add_signed_mem m a qa la ga b qb lb gb c qc lc gc
               Hx Ha Hb Hc Hla Hlb Na Nb La Lb).
    + run (bn_swap_owns _ _ _ _ _ _ _ _ _ Ha Hb).
      set (ms := Mem _ (bufs m)).
      assert (Hxs : exclusive ms)
        by (apply (exclusive_swap m a _ b _ Hx); [apply Ha | apply Hb]).
      assert (Has : owns ms a qb lb gb).
      { split; cbn [ms structs bufs]; [| apply Hb].
        rewrite lookup_insert_ne by congruence. apply lookup_insert_eq. }
      assert (Hbs : owns ms b qa la ga).
      { split; cbn [ms structs bufs]; [| apply Ha]. apply lookup_insert_eq. }
      assert (Hcs : exists qc' lc' gc', owns ms c qc' lc' gc').
      { destruct (decide (c = a)) as [->|Hca]; [eauto |].
        destruct (decide (c = b)) as [->|Hcb]; [eauto |].
        exists qc, lc, gc. split; cbn [ms structs bufs]; [| apply Hc].
        rewrite !lookup_insert_ne by congruence. apply Hc. }
      destruct Hcs as (qc' & lc' & gc' & Hcs).
      exists (structs ms), qc', lc', gc'.
      split; [| split; [exact Hcs | split; [exact Hxs | reflexivity]]].
      exact (bn_add_signed_mem ms a qb lb gb b qa la ga c qc' lc' gc'
               Hxs Has Hbs Hcs Hlb Hla Nb Na Lb La).
Qed.

(** X16.  Operands of the same sign: [bn_add] leaves their sign and the
    sum of their magnitudes, normalized, whatever the aliasing. *)
Theorem bn_add_same_sign_sum (m : mem) (a b c : positive) (la lb lc : list Z)
    (g gc : Z) :
  exclusive m ->
  view m (Some a) = Some (la, Z.of_nat (length la), g) ->
  view m (Some b) = Some (lb, Z.of_nat (length lb), g) ->
  view m (Some c) = Some (lc, Z.of_nat (length lc), gc) ->
  limbs_ok la -> limbs_ok lb ->
  (1 <= length la)%nat -> (1 <= length lb)%nat ->
  Z.of_nat (length la) < 2 ^ 25 -> Z.of_nat (length lb) < 2 ^ 25 ->
  exists m' r,
    bn_add ok stale (Some a) (Some b) (Some c) m = Some (tt, m')
    /\ view m' (Some c) = Some (r, Z.of_nat (length r), g)
    /\ value r = value la + value lb
    /\ normalized r.
Proof.
  intros Hx Va Vb Vc Hla Hlb Na Nb La Lb.
  destruct (view_owns _ _ _ _ Va) as [qa Ha].
  destruct (view_owns _ _ _ _ Vb) as [qb Hb].
  destruct (view_owns _ _ _ _ Vc) as [qc Hc].
  destruct (bn_add_owns ok stale granted m a qa la g b qb lb g c qc lc gc
              Hx Ha Hb Hc Hla Hlb Na Nb La Lb) as (m' & q & Hm' & Ho).
  unfold add_result in Ho. rewrite Z.eqb_refl in Ho. cbn [fst snd] in Ho.
  eexists m', _. split; [exact Hm' |]. split; [exact (owns_view _ _ _ _ _ Ho) |].
  split.
  - rewrite trim_top_value. apply (add_limbs_sum la lb Hla Hlb).
  - apply add_sum_normalized; assumption.
Qed.

(** X17.  [bn_add] is commutative in what it leaves in the destination:
    with the operands exchanged the limbs, the size and the sign are the
    same, for signs [0] and [1] and any aliasing. *)
Theorem bn_add_commutes (m : mem) (a b c : positive) (la lb lc : list Z)
    (ga gb gc : Z) :
  exclusive m ->
  view m (Some a) = Some (la, Z.of_nat (length la), ga) ->
  view m (Some b) = Some (lb, Z.of_nat (length lb), gb) ->
  view m (Some c) = Some (lc, Z.of_nat (length lc), gc) ->
  (ga = 0 \/ ga = 1) -> (gb = 0 \/ gb = 1) ->
  limbs_ok la -> limbs_ok lb ->
  (1 <= length la)%nat -> (1 <= length lb)%nat ->
  Z.of_nat (length la) < 2 ^ 25 -> Z.of_nat (length lb) < 2 ^ 25 ->
  exists m1 m2 v,
    bn_add ok stale (Some a) (Some b) (Some c) m = Some (tt, m1)
    /\ bn_add ok stale (Some b) (Some a) (Some c) m = Some (tt, m2)
    /\ view m1 (Some c) = Some v
    /\ view m2 (Some c) = Some v.
Proof.
  intros Hx Va Vb Vc Ga Gb Hla Hlb Na Nb La Lb.
  destruct (view_owns _ _ _ _ Va) as [qa Ha].
  destruct (view_owns _ _ _ _ Vb) as [qb Hb].
  destruct (view_owns _ _ _ _ Vc) as [qc Hc].
  destruct (bn_add_owns ok stale granted m a qa la ga b qb lb gb c qc lc gc
              Hx Ha Hb Hc Hla Hlb Na Nb La Lb) as (m1 & q1 & Hm1 & Ho1).
  destruct (bn_add_owns ok stale granted m b qb lb gb a qa la ga c qc lc gc
              Hx Hb Ha Hc Hlb Hla Nb Na Lb La) as (m2 & q2 & Hm2 & Ho2).
  rewrite (add_result_comm la ga lb gb Ga Gb) in Ho2.
  eexists m1, m2, _. split; [exact Hm1 |]. split; [exact Hm2 |].
  split; [exact (owns_view _ _ _ _ _ Ho1) | exact (owns_view _ _ _ _ _ Ho2)].
Qed.

(** X18.  [bn_add] writes to its operands: with a destination that is
    neither of them, a negative [a] and a non-negative [b] have exchanged
    their contents when it returns (line 168); in the other cases both are
    as they were. *)
Theorem bn_add_exchanges_operands (m : mem) (a b c : positive) (la lb lc : list Z)
    (ga gb gc : Z) :
  exclusive m ->
  view m (Some a) = Some (la, Z.of_nat (length la), ga) ->
  view m (Some b) = Some (lb, Z.of_nat (length lb), gb) ->
  view m (Some c) = Some (lc, Z.of_nat (length lc), gc) ->
  c <> a -> c <> b ->
  limbs_ok la -> limbs_ok lb ->
  (1 <= length la)%nat -> (1 <= length lb)%nat ->
  Z.of_nat (length la) < 2 ^ 25 -> Z.of_nat (length lb) < 2 ^ 25 ->
  exists m',
    bn_add ok stale (Some a) (Some b) (Some c) m = Some (tt, m')
    /\ (ga <> gb -> ga <> 0 ->
        view m' (Some a) = Some (lb, Z.of_nat (length lb), gb)
        /\ view m' (Some b) = Some (la, Z.of_nat (length la), ga))
    /\ (ga = gb \/ ga = 0 ->
        view m' (Some a) = Some (la, Z.of_nat (length la), ga)
        /\ view m' (Some b) = Some (lb, Z.of_nat (length lb), gb)).
Proof.
  intros Hx Va Vb Vc Hca Hcb Hla Hlb Na Nb La Lb.
  destruct (view_owns _ _ _ _ Va) as [qa Ha].
  destruct (view_owns _ _ _ _ Vb) as [qb Hb].
  destruct (view_owns _ _ _ _ Vc) as [qc Hc].
  destruct (bn_add_mem m a qa la ga b qb lb gb c qc lc gc
              Hx Ha Hb Hc Hla Hlb Na Nb La Lb) as (S' & qc' & lc' & gc' & Hm' & Hc' & Hx' & HS).
  eexists. split; [exact Hm' |].
  assert (F : forall p, p <> c ->
              view (Mem (<[c := Bn (Some qc') (Z.of_nat (length (add_result la ga lb gb).1))
                                 (add_result la ga lb gb).2]> S')
                        (<[qc' := (add_result la ga lb gb).1]> (bufs m))) (Some p)
              = view (Mem S' (bufs m)) (Some p)).
  { intros p Hp. exact (view_other (Mem S' (bufs m)) _ _ _ _ _ _ _ Hx' Hc' Hp). }
  rewrite !F by congruence. split.
  - intros Hne H0.
    destruct (Z.eqb_spec ga gb) as [?|_]; [contradiction |].
    destruct (Z.eqb_spec ga 0) as [?|_]; [contradiction |].
    cbn [orb] in HS. subst S'.
    assert (Hab : a <> b).
    { intros ->. destruct Ha as [Hs _], Hb as [Hs' _]. rewrite Hs in Hs'. congruence. }
    split.
    + apply (owns_view _ a qb). split; cbn [structs bufs]; [| apply Hb].
      rewrite lookup_insert_ne by congruence. apply lookup_insert_eq.
    + apply (owns_view _ b qa). split; cbn [structs bufs]; [| apply Ha].
      apply lookup_insert_eq.
  - intros Hs.
    assert (E : (ga =? gb) || (ga =? 0) = true).
    { destruct Hs as [-> | ->]; [rewrite Z.eqb_refl; reflexivity |].
      apply orb_true_r. }
    rewrite E in HS. subst S'. rewrite mem_eta. split; assumption.
Qed.

(** X19.  Operands of opposite signs and different magnitudes: [bn_add]
    takes the branch meant for the other order and subtracts the larger
    from the smaller.  With [p] the magnitude of the non-negative operand,
    [q] that of the negative one and [n] the larger size, it leaves
    [2 ^ (32 * n) - |p - q|] and the sign of the operand of smaller
    magnitude. *)
Theorem bn_add_opposite_signs_wraps (m : mem) (a b c : positive)
    (la lb lc : list Z) (ga gb gc : Z) :
  exclusive m ->
  view m (Some a) = Some (la, Z.of_nat (length la), ga) ->
  view m (Some b) = Some (lb, Z.of_nat (length lb), gb) ->
  view m (Some c) = Some (lc, Z.of_nat (length lc), gc) ->
  (ga = 0 /\ gb = 1) \/ (ga = 1 /\ gb = 0) ->
  limbs_ok la -> limbs_ok lb -> normalized la -> normalized lb ->
  Z.of_nat (length la) < 2 ^ 25 -> Z.of_nat (length lb) < 2 ^ 25 ->
  value la <> value lb ->
  exists m' r g,
    bn_add ok stale (Some a) (Some b) (Some c) m = Some (tt, m')
    /\ view m' (Some c) = Some (r, Z.of_nat (length r), g)
    /\ value r = 2 ^ (32 * Z.of_nat (length la `max` length lb))
                 - Z.abs (value la - value lb)
    /\ g = (if value la <? value lb then ga else gb).
Proof.
  intros Hx Va Vb Vc Hg Hla Hlb Na Nb La Lb Hne.
  destruct (view_owns _ _ _ _ Va) as [qa Ha].
  destruct (view_owns _ _ _ _ Vb) as [qb Hb].
  destruct (view_owns _ _ _ _ Vc) as [qc Hc].
  pose proof (normalized_length _ Na) as Ia. pose proof (normalized_length _ Nb) as Ib.
  destruct (bn_add_owns ok stale granted m a qa la ga b qb lb gb c qc lc gc
              Hx Ha Hb Hc Hla Hlb Ia Ib La Lb) as (m' & q & Hm' & Ho).
  exists m', (add_result la ga lb gb).1, (add_result la ga lb gb).2.
  split; [exact Hm' |]. split; [exact (owns_view _ _ _ _ _ Ho) |].
  assert (W : forall l1 l2, limbs_ok l1 -> limbs_ok l2 -> value l1 < value l2 ->
              value (trim_zeros (sub_limbs (length l1 `max` length l2) l1 l2))
              = value l1 - value l2 + 2 ^ (32 * Z.of_nat (length l1 `max` length l2))).
  { intros l1 l2 H1 H2 Hlt. rewrite trim_zeros_value.
    set (n := (length l1 `max` length l2)%nat).
    destruct (limbs_out_value (-1) sub_step sub_step_law n (limb l1) (limb l2) 0 0
                (limb_range_all l1 H1) (limb_range_all l2 H2) ltac:(lia))
      as (Hok & Hcr & Hv).
    fold (sub_limbs n l1 l2) in *.
    rewrite !weigh_take in Hv.
    rewrite (take_ge l1) in Hv by lia. rewrite (take_ge l2) in Hv by lia.
    pose proof (value_range _ Hok) as Hr.
    unfold sub_limbs in Hr. rewrite length_limbs_out in Hr. fold (sub_limbs n l1 l2) in Hr.
    set (P := 2 ^ (32 * Z.of_nat n)) in *. set (C := carry_out _ _ _ _ _ _) in *.
    assert (C = 1) by nia. lia. }
  unfold add_result.
  destruct Hg as [[-> ->]|[-> ->]]; cbn [Z.eqb negb].
  - destruct (signed_result_limbs la lb Hla Hlb Na Nb) as [[H E]|[[H E]|[H E]]];
      [| | contradiction]; rewrite E; cbn [fst snd].
    + rewrite (W la lb Hla Hlb H).
      destruct (Z.ltb_spec (value la) (value lb)); [| lia]. split; lia.
    + rewrite (Nat.max_comm (length la) (length lb)), (W lb la Hlb Hla H).
      destruct (Z.ltb_spec (value la) (value lb)); [lia |]. split; lia.
  - destruct (signed_result_limbs lb la Hlb Hla Nb Na) as [[H E]|[[H E]|[H E]]];
      [| | congruence]; rewrite E; cbn [fst snd].
    + rewrite (Nat.max_comm (length la) (length lb)), (W lb la Hlb Hla H).
      destruct (Z.ltb_spec (value la) (value lb)); [lia |]. split; lia.
    + rewrite (Nat.max_comm (length lb) (length la)), (W la lb Hla Hlb H).
      destruct (Z.ltb_spec (value la) (value lb)); [| lia]. split; lia.
Qed.


End Sums.

Lemma bn_add_same_sign_sum_witness :
  exists m' r,
    bn_add always_granted no_stale (Some 1%positive) (Some 2%positive) (Some 1%positive)
      (heap3 [4294967295; 7] 1 [1] 1 [0] 0) = Some (tt, m')
    /\ view m' (Some 1%positive) = Some (r, Z.of_nat (length r), 1)
    /\ value r = value [4294967295; 7] + value [1]
    /\ normalized r.
Proof.
  apply (bn_add_same_sign_sum always_granted no_stale (fun _ => eq_refl)
           (heap3 [4294967295; 7] 1 [1] 1 [0] 0) 1 2 1
           [4294967295; 7] [1] [4294967295; 7] 1 1).
  - apply exclusive_heap3.
  - reflexivity.
  - reflexivity.
  - reflexivity.
  - repeat constructor; lia.
  - repeat constructor; lia.
  - simpl. lia.
  - simpl. lia.
  - simpl. lia.
  - simpl. lia.
Defined.

Lemma bn_add_commutes_witness :
  exists m1 m2 v,
    bn_add always_granted no_stale (Some 1%positive) (Some 2%positive) (Some 3%positive)
      (heap3 [5; 2] 1 [3] 0 [0] 0) = Some (tt, m1)
    /\ bn_add always_granted no_stale (Some 2%positive) (Some 1%positive) (Some 3%positive)
         (heap3 [5; 2] 1 [3] 0 [0] 0) = Some (tt, m2)
    /\ view m1 (Some 3%positive) = Some v
    /\ view m2 (Some 3%positive) = Some v.
Proof.
  apply (bn_add_commutes always_granted no_stale (fun _ => eq_refl)
           (heap3 [5; 2] 1 [3] 0 [0] 0) 1 2 3 [5; 2] [3] [0] 1 0 0).
  - apply exclusive_heap3.
  - reflexivity.
  - reflexivity.
  - reflexivity.
  - right. reflexivity.
  - left. reflexivity.
  - repeat constructor; lia.
  - repeat constructor; lia.
  - simpl. lia.
  - simpl. lia.
  - simpl. lia.
  - simpl. lia.
Defined.

Lemma bn_add_exchanges_operands_witness :
  exists m',
    bn_add always_granted no_stale (Some 1%positive) (Some 2%positive) (Some 3%positive)
      (heap3 [5; 2] 1 [3] 0 [0] 0) = Some (tt, m')
    /\ (1 <> 0 -> 1 <> 0 ->
        view m' (Some 1%positive) = Some ([3], Z.of_nat (length [3]), 0)
        /\ view m' (Some 2%positive) = Some ([5; 2], Z.of_nat (length [5; 2]), 1))
    /\ (1 = 0 \/ 1 = 0 ->
        view m' (Some 1%positive) = Some ([5; 2], Z.of_nat (length [5; 2]), 1)
        /\ view m' (Some 2%positive) = Some ([3], Z.of_nat (length [3]), 0)).
Proof.
  apply (bn_add_exchanges_operands always_granted no_stale (fun _ => eq_refl)
           (heap3 [5; 2] 1 [3] 0 [0] 0) 1 2 3 [5; 2] [3] [0] 1 0 0).
  - apply exclusive_heap3.
  - reflexivity.
  - reflexivity.
  - reflexivity.
  - discriminate.
  - discriminate.
  - repeat constructor; lia.
  - repeat constructor; lia.
  - simpl. lia.
  - simpl. lia.
  - simpl. lia.
  - simpl. lia.
Defined.

Lemma bn_add_opposite_signs_wraps_witness :
  exists m' r g,
    bn_add always_granted no_stale (Some 1%positive) (Some 2%positive) (Some 3%positive)
      (heap3 [5; 2] 1 [3] 0 [0] 0) = Some (tt, m')
    /\ view m' (Some 3%positive) = Some (r, Z.of_nat (length r), g)
    /\ value r = 2 ^ (32 * Z.of_nat (length [5; 2] `max` length [3]))
                 - Z.abs (value [5; 2] - value [3])
    /\ g = (if value [5; 2] <? value [3] then 1 else 0).
Proof.
  apply (bn_add_opposite_signs_wraps always_granted no_stale (fun _ => eq_refl)
           (heap3 [5; 2] 1 [3] 0 [0] 0) 1 2 3 [5; 2] [3] [0] 1 0 0).
  - apply exclusive_heap3.
  - reflexivity.
  - reflexivity.
  - reflexivity.
  - right. split; reflexivity.
  - repeat constructor; lia.
  - repeat constructor; lia.
  - right. simpl. unfold limb. simpl. lia.
  - left. reflexivity.
  - simpl. lia.
  - simpl. lia.
  - simpl. lia.
Defined.



